(** * Asset index query building: filter parser, WHERE compiler, sort compiler

    A shallow embedding of
    - [app/modules/asset/utils.server.ts]
      ([getAssetsWhereInput], [parseFilters], [getFilterFieldType],
      [parseFilterValue]) and
    - [app/modules/asset/advanced-index-query.server.ts]
      ([generateWhereClause], the [add*Filter] family, [parseSortingOptions],
      [generateCustomFieldSelect]),
    together with the parts of the JavaScript run time and of the
    [Prisma.sql] tagged template these functions rely on. *)

From Stdlib Require Import String Ascii List Bool Arith Lia.
Import ListNotations.

Local Open Scope char_scope.
Local Open Scope string_scope.
Local Open Scope list_scope.
Local Open Scope nat_scope.

Infix "+:+" := String.append (at level 60, right associativity).
Infix "===" := String.eqb (at level 70, no associativity).

(* ================================================================== *)
(** * JavaScript strings, values and exceptions *)
(* ================================================================== *)

Module Js.

(** Strings are byte strings holding UTF-8 text.  Every literal of the
    source is ASCII, so literals, [startsWith], [slice(3)] and the
    one-character separators of [split] act on bytes exactly as they act
    on UTF-16 code units. *)

Definition DQ : string := String "034" EmptyString.
Definition NL : string := String "010" EmptyString.

(** A double-quoted SQL identifier, [`"${s}"`]. *)
Definition quoted (s : string) : string := DQ +:+ s +:+ DQ.

(** [s.split(c)] for a one-character separator.  The result is never the
    empty list, so its first element, read with [hd], is always there. *)
Fixpoint split (sep : ascii) (s : string) : list string :=
  match s with
  | EmptyString => [EmptyString]
  | String c s' =>
      if Ascii.eqb c sep then EmptyString :: split sep s'
      else match split sep s' with
           | [] => [String c EmptyString]
           | w :: ws => String c w :: ws
           end
  end.

(** [parts.join(sep)]. *)
Fixpoint join (sep : string) (parts : list string) : string :=
  match parts with
  | [] => EmptyString
  | [p] => p
  | p :: ps => p +:+ sep +:+ join sep ps
  end.

(** [s.startsWith(p)] and [s.slice(n)]. *)
Definition startsWith (p s : string) : bool := String.prefix p s.

Fixpoint slice (n : nat) (s : string) : string :=
  match n, s with
  | O, _ => s
  | S _, EmptyString => EmptyString
  | S n', String _ s' => slice n' s'
  end.

(** [s.toLowerCase()] restricted to the ASCII letters.  The full Unicode
    mapping sends no character outside [A-Z] to one of the letters of
    ["true"], so the comparison [s.toLowerCase() === "true"], the only
    use in the source, is decided correctly. *)
Definition lower_ascii (c : ascii) : ascii :=
  let n := nat_of_ascii c in
  if (65 <=? n) && (n <=? 90) then ascii_of_nat (n + 32) else c.

Fixpoint toLowerCase (s : string) : string :=
  match s with
  | EmptyString => EmptyString
  | String c s' => String (lower_ascii c) (toLowerCase s')
  end.

(** ** White space ([\s] of a regular expression, and [trim])

    The class is TAB, LF, VT, FF, CR, SPACE, U+00A0, U+1680,
    U+2000..U+200A, U+2028, U+2029, U+202F, U+205F, U+3000 and U+FEFF.
    A string is scanned into tokens: one token per white-space character
    (one to three bytes of UTF-8) and one per other byte. *)

Inductive token :=
| White (bytes : string)
| Byte (c : ascii).

Definition ws1 (c : ascii) : bool :=
  let n := nat_of_ascii c in ((9 <=? n) && (n <=? 13)) || (n =? 32).

Definition ws2 (c1 c2 : ascii) : bool :=
  (nat_of_ascii c1 =? 194) && (nat_of_ascii c2 =? 160).

Definition ws3 (c1 c2 c3 : ascii) : bool :=
  let a := nat_of_ascii c1 in
  let b := nat_of_ascii c2 in
  let c := nat_of_ascii c3 in
  ((a =? 225) && (b =? 154) && (c =? 128))
  || ((a =? 226) && (b =? 128)
      && (((128 <=? c) && (c <=? 138)) || (c =? 168) || (c =? 169) || (c =? 175)))
  || ((a =? 226) && (b =? 129) && (c =? 159))
  || ((a =? 227) && (b =? 128) && (c =? 128))
  || ((a =? 239) && (b =? 187) && (c =? 191)).

Fixpoint scan (s : string) : list token :=
  match s with
  | EmptyString => []
  | String c1 t1 =>
      if ws1 c1 then White (String c1 EmptyString) :: scan t1
      else
        match t1 with
        | EmptyString => Byte c1 :: scan t1
        | String c2 t2 =>
            if ws2 c1 c2
            then White (String c1 (String c2 EmptyString)) :: scan t2
            else
              match t2 with
              | EmptyString => Byte c1 :: scan t1
              | String c3 t3 =>
                  if ws3 c1 c2 c3
                  then White (String c1 (String c2 (String c3 EmptyString)))
                         :: scan t3
                  else Byte c1 :: scan t1
              end
        end
  end.

Fixpoint unscan (ts : list token) : string :=
  match ts with
  | [] => EmptyString
  | White b :: ts' => b +:+ unscan ts'
  | Byte c :: ts' => String c (unscan ts')
  end.

Fixpoint dropWhite (ts : list token) : list token :=
  match ts with
  | White _ :: ts' => dropWhite ts'
  | _ => ts
  end.

(** [s.trim()]. *)
Definition trim (s : string) : string :=
  unscan (rev (dropWhite (rev (dropWhite (scan s))))).

(** [s.split(/\s+/)]: the pieces between maximal white-space runs; a run
    at either end leaves an empty piece there. *)
Fixpoint splitTokens (cur : string) (ts : list token) : list string :=
  match ts with
  | [] => [cur]
  | White _ :: ts' => cur :: splitTokens EmptyString (dropWhite ts')
  | Byte c :: ts' => splitTokens (cur +:+ String c EmptyString) ts'
  end.

Definition splitWhite (s : string) : list string :=
  splitTokens EmptyString (scan s).

(** [s.replace(/\s+/g, r)]. *)
Fixpoint replaceTokens (r : string) (ts : list token) : string :=
  match ts with
  | [] => EmptyString
  | White _ :: ts' => r +:+ replaceTokens r (dropWhite ts')
  | Byte c :: ts' => String c (replaceTokens r ts')
  end.

Definition replaceWhite (r s : string) : string := replaceTokens r (scan s).

(** [Boolean(s)] on a string, as [filter(Boolean)] and [if (s)] use it. *)
Definition truthy (s : string) : bool :=
  match s with EmptyString => false | _ => true end.

(** ** Exceptions *)

Inductive error := TypeError.

Inductive result (A : Type) :=
| Ok (a : A)
| Throw (e : error).
Arguments Ok {A} a.
Arguments Throw {A} e.

Definition bind {A B} (r : result A) (k : A -> result B) : result B :=
  match r with
  | Ok a => k a
  | Throw e => Throw e
  end.

(** [xs.forEach(x => { acc = f(acc, x) })] where [f] may throw. *)
Fixpoint foldM {A B} (f : A -> B -> result A) (acc : A) (xs : list B)
  : result A :=
  match xs with
  | [] => Ok acc
  | x :: xs' => bind (f acc x) (fun acc' => foldM f acc' xs')
  end.

(** [xs.map(f)] collected in order, where [f] may throw. *)
Fixpoint mapM {A B} (f : A -> result B) (xs : list A) : result (list B) :=
  match xs with
  | [] => Ok []
  | x :: xs' =>
      bind (f x) (fun y => bind (mapM f xs') (fun ys => Ok (y :: ys)))
  end.

Definition throws {A} (r : result A) : Prop := exists e, r = Throw e.

(** ** Numbers and the platform

    A JavaScript number is an IEEE double and [Number(s)] the platform's
    conversion; [new URLSearchParams(s)] is the platform's query-string
    decoder.  The functions of the repository only pass numbers around
    and iterate over the decoded parameters, so both are taken as an
    interface: every theorem holds for each implementation of it. *)

Class Host := {
  number : Type;
  (** [Number(s)] on a string. *)
  Number : string -> number;
  (** [Number(undefined)]. *)
  NaN : number;
  (** [String(n)] on a number, as a template literal applies it. *)
  numberToString : number -> string;
  (** The (key, value) pairs of [new URLSearchParams(s)], in order. *)
  URLSearchParams : string -> list (string * string)
}.

Section Values.
Context {host : Host}.

#[warnings="-register-all"]
Inductive value :=
| VUndefined
| VNull
| VBool (b : bool)
| VNum (n : number)
| VStr (s : string)
| VArr (elems : list value).

(** [`${v}`]: the string conversion a template literal applies.  An
    array is its elements joined by [","], [undefined] and [null]
    elements giving the empty string. *)
Fixpoint toString (v : value) : string :=
  match v with
  | VUndefined => "undefined"
  | VNull => "null"
  | VBool true => "true"
  | VBool false => "false"
  | VNum n => numberToString n
  | VStr s => s
  | VArr elems =>
      join ","
        (map (fun e => match e with
                       | VUndefined | VNull => EmptyString
                       | _ => toString e
                       end) elems)
  end.

(** [`${s}`] for a string that may be [undefined]. *)
Definition show (s : option string) : string :=
  match s with
  | Some x => x
  | None => "undefined"
  end.

(** A string that may be [undefined], as a value. *)
Definition ofOption (s : option string) : value :=
  match s with
  | Some x => VStr x
  | None => VUndefined
  end.

End Values.

(** ** A reference platform, to run the functions on concrete inputs

    Numbers are kept as the text they were converted from, and the query
    string is decoded as the URL standard prescribes for
    [application/x-www-form-urlencoded]: an optional leading [?], pairs
    separated by [&], key and value separated at the first [=], [+] read
    as a space, [%XX] read as a byte. *)

Inductive textNumber :=
| NumOf (text : string)
| NumNaN.

Definition hexDigit (c : ascii) : option nat :=
  let n := nat_of_ascii c in
  if (48 <=? n) && (n <=? 57) then Some (n - 48)
  else if (65 <=? n) && (n <=? 70) then Some (n - 55)
  else if (97 <=? n) && (n <=? 102) then Some (n - 87)
  else None.

Fixpoint percentDecode (s : string) : string :=
  match s with
  | EmptyString => EmptyString
  | String c1 t1 =>
      if Ascii.eqb c1 "%" then
        match t1 with
        | String c2 (String c3 t3) =>
            match hexDigit c2, hexDigit c3 with
            | Some h, Some l => String (ascii_of_nat (16 * h + l)) (percentDecode t3)
            | _, _ => String c1 (percentDecode t1)
            end
        | _ => String c1 (percentDecode t1)
        end
      else if Ascii.eqb c1 "+" then String " " (percentDecode t1)
      else String c1 (percentDecode t1)
  end.

(** The text before and after the first [=]. *)
Fixpoint cutAtEquals (s : string) : string * string :=
  match s with
  | EmptyString => (EmptyString, EmptyString)
  | String c s' =>
      if Ascii.eqb c "=" then (EmptyString, s')
      else let (k, v) := cutAtEquals s' in (String c k, v)
  end.

Definition urlDecode (s : string) : list (string * string) :=
  let body := match s with
              | String c s' => if Ascii.eqb c "?" then s' else s
              | EmptyString => s
              end in
  map (fun piece => let (k, v) := cutAtEquals piece in
                    (percentDecode k, percentDecode v))
      (filter truthy (split "&" body)).

#[export] Instance referenceHost : Host := {|
  number := textNumber;
  Number := NumOf;
  NaN := NumNaN;
  numberToString := fun n => match n with NumOf t => t | NumNaN => "NaN" end;
  URLSearchParams := urlDecode
|}.

End Js.

Notation "x <- c ;; k" := (Js.bind c (fun x => k))
  (at level 61, c at next level, right associativity).

(* ================================================================== *)
(** * The [Prisma.sql] tagged template *)
(* ================================================================== *)

Module Prisma.
Import Js.

Section Sql.
Context {host : Host}.

(** A [Prisma.Sql] object holds [strings], the raw SQL text, and
    [values], the bound parameters, one between every two consecutive
    strings.  It is kept here as the first string followed by the
    (parameter, following string) pairs. *)
Record Sql := mkSql {
  head : string;
  tail : list (value * string)
}.

Definition strings (q : Sql) : list string := head q :: map snd (tail q).
Definition values (q : Sql) : list value := map fst (tail q).

(** What stands in a [${...}] hole of the template: another [Sql], which
    is spliced in, or any other value, which is bound. *)
Inductive hole :=
| Nested (q : Sql)
| Bound (v : value).

Fixpoint appendLast (t : list (value * string)) (s : string)
  : list (value * string) :=
  match t with
  | [] => []
  | [(v, x)] => [(v, x +:+ s)]
  | p :: t' => p :: appendLast t' s
  end.

(** [this.strings[pos] += s]: raw text appended to the last string. *)
Definition addText (q : Sql) (s : string) : Sql :=
  match tail q with
  | [] => {| head := head q +:+ s; tail := [] |}
  | t => {| head := head q; tail := appendLast t s |}
  end.

(** The constructor's step for a nested child: its first string joins the
    current one, its parameters and remaining strings follow. *)
Definition splice (q child : Sql) : Sql :=
  let q' := addText q (head child) in
  {| head := head q'; tail := tail q' ++ tail child |}.

Definition fill (q : Sql) (h : hole * string) : Sql :=
  match h with
  | (Bound v, s) => {| head := head q; tail := tail q ++ [(v, s)] |}
  | (Nested child, s) => addText (splice q child) s
  end.

(** [Prisma.sql`s0${h1}s1...${hn}sn`]. *)
Definition sql (s0 : string) (rest : list (hole * string)) : Sql :=
  fold_left fill rest {| head := s0; tail := [] |}.

(** [Prisma.raw(s)] and [Prisma.empty]. *)
Definition raw (s : string) : Sql := {| head := s; tail := [] |}.
Definition empty : Sql := raw EmptyString.

(** [Prisma.join(values)], with the default separator [","] and empty
    prefix and suffix; an empty array is a [TypeError]. *)
Definition join (vs : list hole) : result Sql :=
  match vs with
  | [] => Throw TypeError
  | _ :: vs' =>
      Ok (sql EmptyString
            (combine vs (repeat "," (length vs') ++ [EmptyString])))
  end.

(** The statement text with [?] for each parameter (the [sql] getter). *)
Definition text (q : Sql) : string := Js.join "?" (strings q).

End Sql.
End Prisma.

(* ================================================================== *)
(** * components/assets/assets-index/advanced-filters/types *)
(* ================================================================== *)

Module AdvancedFilters.

Section Types.
Context {host : Js.Host}.

(** The [Filter] record.  [type] (a [FilterFieldType]) and [operator] (a
    [FilterOperator]) are strings at run time; [value] is whatever
    [parseFilterValue] produced. *)
Record Filter := mkFilter {
  name : string;
  type : string;
  operator : string;
  value : Js.value
}.

End Types.
End AdvancedFilters.

(* ================================================================== *)
(** * advanced-index-query.server.ts *)
(* ================================================================== *)

Module AdvancedIndexQuery.
Import Js Prisma AdvancedFilters.

Section Where.
Context {host : Host}.

(** [Prisma.sql`${whereClause} AND a."${Prisma.raw(field)}" <op> ${v}`]. *)
Definition compare (whereClause : Sql) (field op : string) (v : Js.value)
  : Sql :=
  sql EmptyString
    [ (Nested whereClause, " AND a." +:+ DQ);
      (Nested (raw field), DQ +:+ " " +:+ op +:+ " ");
      (Bound v, EmptyString) ].

(** [Prisma.sql`${whereClause} AND a."${Prisma.raw(field)}" BETWEEN
    ${lo} AND ${hi}`]. *)
Definition between (whereClause : Sql) (field : string) (lo hi : Js.value)
  : Sql :=
  sql EmptyString
    [ (Nested whereClause, " AND a." +:+ DQ);
      (Nested (raw field), DQ +:+ " BETWEEN ");
      (Bound lo, " AND ");
      (Bound hi, EmptyString) ].

Definition addStringFilter (whereClause : Sql) (field operator : string)
  (value : Js.value) : Sql :=
  if operator === "is" then compare whereClause field "=" value
  else if operator === "isNot" then compare whereClause field "!=" value
  else whereClause.

Definition addEnumFilter (whereClause : Sql) (field operator : string)
  (value : Js.value) : result Sql :=
  if operator === "is" then Ok (compare whereClause field "=" value)
  else if operator === "isNot" then Ok (compare whereClause field "!=" value)
  else if operator === "in" then
    match value with
    | VArr elems =>
        list <- join (map Bound elems) ;;
        Ok (sql EmptyString
              [ (Nested whereClause, " AND a." +:+ DQ);
                (Nested (raw field), DQ +:+ " IN (");
                (Nested list, ")") ])
    | _ => Ok whereClause
    end
  else Ok whereClause.

Definition addTextFilter (whereClause : Sql) (field operator : string)
  (value : Js.value) : Sql :=
  if operator === "contains"
  then compare whereClause field "ILIKE"
         (VStr ("%" +:+ toString value +:+ "%"))
  else whereClause.

Definition addNumberFilter (whereClause : Sql) (field operator : string)
  (value : Js.value) : Sql :=
  if operator === "is" then compare whereClause field "=" value
  else if operator === "isNot" then compare whereClause field "!=" value
  else if operator === "gt" then compare whereClause field ">" value
  else if operator === "lt" then compare whereClause field "<" value
  else if operator === "gte" then compare whereClause field ">=" value
  else if operator === "lte" then compare whereClause field "<=" value
  else if operator === "between" then
    match value with
    | VArr [lo; hi] => between whereClause field lo hi
    | _ => whereClause
    end
  else whereClause.

Definition addBooleanFilter (whereClause : Sql) (field : string)
  (value : Js.value) : Sql :=
  compare whereClause field "=" value.

(** [Prisma.sql`${whereClause} AND DATE(a."${Prisma.raw(field)}") <op>
    ${v}`]. *)
Definition compareDate (whereClause : Sql) (field op : string)
  (v : Js.value) : Sql :=
  sql EmptyString
    [ (Nested whereClause, " AND DATE(a." +:+ DQ);
      (Nested (raw field), DQ +:+ ") " +:+ op +:+ " ");
      (Bound v, EmptyString) ].

Definition addDateFilter (whereClause : Sql) (field operator : string)
  (value : Js.value) : Sql :=
  if operator === "is" then compareDate whereClause field "=" value
  else if operator === "isNot" then compareDate whereClause field "!=" value
  else if operator === "before" then compare whereClause field "<" value
  else if operator === "after" then compare whereClause field ">" value
  else if operator === "between" then
    match value with
    | VArr [lo; hi] => between whereClause field lo hi
    | _ => whereClause
    end
  else whereClause.

(** The body of [filters.forEach]: the [switch] on the filter's type. *)
Definition addFilter (whereClause : Sql) (filter : Filter) : result Sql :=
  let '(mkFilter name type operator value) := filter in
  if type === "string" then Ok (addStringFilter whereClause name operator value)
  else if type === "enum" then addEnumFilter whereClause name operator value
  else if type === "text" then Ok (addTextFilter whereClause name operator value)
  else if type === "number" then Ok (addNumberFilter whereClause name operator value)
  else if type === "boolean" then Ok (addBooleanFilter whereClause name value)
  else if type === "date" then Ok (addDateFilter whereClause name operator value)
  else Ok whereClause.

Definition spaces (n : nat) : string := String.concat EmptyString (repeat " " n).

(** [WHERE a."organizationId" = ${organizationId}]. *)
Definition organizationClause (organizationId : string) : Sql :=
  sql ("WHERE a." +:+ quoted "organizationId" +:+ " = ")
    [ (Bound (VStr organizationId), EmptyString) ].

(** The [if (search)] block. *)
Definition addSearch (whereClause : Sql) (search : option string) : Sql :=
  match search with
  | None => whereClause
  | Some search =>
      if truthy search then
        let words := filter truthy (splitWhite (trim search)) in
        if 0 <? length words then
          let searchQuery :=
            Js.join " | " (map (fun word => word +:+ ":* | " +:+ word) words) in
          sql (NL +:+ spaces 8)
            [ (Nested whereClause,
               " AND (" +:+ NL +:+ spaces 10
               +:+ "to_tsvector('english', a." +:+ quoted "title"
               +:+ " || ' ' || COALESCE(a." +:+ quoted "description"
               +:+ ", '')) @@ to_tsquery('english', ");
              (Bound (VStr searchQuery),
               ")" +:+ NL +:+ spaces 8 +:+ ")" +:+ NL +:+ spaces 6) ]
        else whereClause
      else whereClause
  end.

Definition generateWhereClause (organizationId : string)
  (search : option string) (filters : list Filter) : result Sql :=
  foldM addFilter (addSearch (organizationClause organizationId) search)
    filters.

End Where.

(** ** Sorting *)

Section Sorting.
Context {host : Host}.

(** The own properties of the [directAssetFields] object. *)
Definition directAssetFields : list (string * string) :=
  [ ("id", "assetId");
    ("name", "assetTitle");
    ("valuation", "assetValue");
    ("status", "assetStatus");
    ("description", "assetDescription");
    ("createdAt", "assetCreatedAt");
    ("availableToBook", "assetAvailableToBook") ].

Definition nativeFunction (f : string) : string :=
  "function " +:+ f +:+ "() { [native code] }".

(** [directAssetFields] is an object literal, so its prototype is
    [Object.prototype]: the [in] operator and a property read also see
    the properties inherited from it.  Each one is listed with the text a
    template literal renders its value as (the engine's rendering of a
    built-in function; [__proto__] reads as the prototype object). *)
Definition objectPrototype : list (string * string) :=
  [ ("constructor", nativeFunction "Object");
    ("__defineGetter__", nativeFunction "__defineGetter__");
    ("__defineSetter__", nativeFunction "__defineSetter__");
    ("hasOwnProperty", nativeFunction "hasOwnProperty");
    ("__lookupGetter__", nativeFunction "__lookupGetter__");
    ("__lookupSetter__", nativeFunction "__lookupSetter__");
    ("isPrototypeOf", nativeFunction "isPrototypeOf");
    ("propertyIsEnumerable", nativeFunction "propertyIsEnumerable");
    ("toString", nativeFunction "toString");
    ("valueOf", nativeFunction "valueOf");
    ("__proto__", "[object Object]");
    ("toLocaleString", nativeFunction "toLocaleString") ].

Fixpoint assoc (key : string) (table : list (string * string))
  : option string :=
  match table with
  | [] => None
  | (k, v) :: table' => if key === k then Some v else assoc key table'
  end.

(** [`${directAssetFields[key]}`] when [key in directAssetFields], and
    [None] when the [in] test fails. *)
Definition lookupIn (key : string) : option string :=
  match assoc key directAssetFields with
  | Some column => Some column
  | None => assoc key objectPrototype
  end.

Record SortField := mkSortField {
  fieldName : string;
  direction : option string;
  fieldType : option string
}.

(** [const [name, direction, fieldType] = s.split(":")]. *)
Definition parseSortField (s : string) : SortField :=
  let pieces := split ":" s in
  mkSortField (hd EmptyString pieces) (nth_error pieces 1) (nth_error pieces 2).

Record CustomFieldSorting := mkCustomFieldSorting {
  cfName : string;
  valueKey : string;
  alias : string;
  cfFieldType : option string
}.

(** The variables the [for] loop updates, and the console. *)
Record SortState := mkSortState {
  orderByParts : list string;
  cfSortings : list CustomFieldSorting;
  console : list string
}.

Definition pushPart (st : SortState) (part : string) : SortState :=
  mkSortState (orderByParts st ++ [part]) (cfSortings st) (console st).

(** One iteration of [for (const field of fields)]. *)
Definition sortStep (st : SortState) (field : SortField) : SortState :=
  match lookupIn (fieldName field) with
  | Some columnName =>
      pushPart st (quoted columnName +:+ " " +:+ show (direction field))
  | None =>
      if fieldName field === "kit" then
        pushPart st (quoted "kitName" +:+ " " +:+ show (direction field))
      else if fieldName field === "category" then
        pushPart st (quoted "categoryName" +:+ " " +:+ show (direction field))
      else if fieldName field === "location" then
        pushPart st (quoted "locationName" +:+ " " +:+ show (direction field))
      else if fieldName field === "custody" then
        pushPart st ("custody->>'name' " +:+ show (direction field))
      else if startsWith "cf_" (fieldName field) then
        let customFieldName := slice 3 (fieldName field) in
        let alias := "cf_" +:+ replaceWhite "_" customFieldName in
        mkSortState
          (orderByParts st ++ [alias +:+ " " +:+ show (direction field)])
          (cfSortings st
             ++ [mkCustomFieldSorting customFieldName "raw" alias
                   (fieldType field)])
          (console st)
      else
        mkSortState (orderByParts st) (cfSortings st)
          (console st ++ ["Unknown sort field: " +:+ fieldName field])
  end.

Record SortingOptions := mkSortingOptions {
  orderByClause : string;
  customFieldSortings : list CustomFieldSorting;
  (** What [console.warn] printed during the call. *)
  warnings : list string
}.

(** The state after the [for] loop over the parsed entries. *)
Definition sortLoop (sortBy : list string) : SortState :=
  let fields := map parseSortField sortBy in
  fold_left sortStep fields (mkSortState [] [] []).

Definition parseSortingOptions (sortBy : list string) : SortingOptions :=
  let st := sortLoop sortBy in
  let orderByClause :=
    if 0 <? length (orderByParts st)
    then "ORDER BY " +:+ Js.join ", " (orderByParts st)
    else EmptyString in
  mkSortingOptions orderByClause (cfSortings st) (console st).

(** The subquery template of [generateCustomFieldSelect]. *)
Definition customFieldSubquery (cf : CustomFieldSorting) : Sql :=
  sql ("(" +:+ NL
       +:+ spaces 6 +:+ "SELECT " +:+ NL
       +:+ spaces 8 +:+ "CASE ")
    [ (Bound (ofOption (cfFieldType cf)),
       NL
       +:+ spaces 10 +:+ "WHEN 'DATE' THEN " +:+ NL
       +:+ spaces 12 +:+ "(acfv.value->>'valueDate')::timestamp::text" +:+ NL
       +:+ spaces 10 +:+ "WHEN 'NUMBER' THEN " +:+ NL
       +:+ spaces 12 +:+ "(acfv.value->>'raw')::numeric::text" +:+ NL
       +:+ spaces 10 +:+ "WHEN 'BOOLEAN' THEN " +:+ NL
       +:+ spaces 12 +:+ "(acfv.value->>'valueBoolean')::boolean::text" +:+ NL
       +:+ spaces 10 +:+ "ELSE" +:+ NL
       +:+ spaces 12 +:+ "acfv.value->>'raw'" +:+ NL
       +:+ spaces 8 +:+ "END" +:+ NL
       +:+ spaces 6 +:+ "FROM public." +:+ quoted "AssetCustomFieldValue"
       +:+ " acfv" +:+ NL
       +:+ spaces 6 +:+ "JOIN public." +:+ quoted "CustomField"
       +:+ " cf ON acfv." +:+ quoted "customFieldId" +:+ " = cf.id" +:+ NL
       +:+ spaces 6 +:+ "WHERE acfv." +:+ quoted "assetId"
       +:+ " = a.id AND cf.name = ");
      (Bound (VStr (cfName cf)), NL +:+ spaces 4 +:+ ") AS ");
      (Nested (raw (alias cf)), EmptyString) ].

Definition generateCustomFieldSelect
  (customFieldSortings : list CustomFieldSorting) : result Sql :=
  if length customFieldSortings =? 0 then Ok empty
  else
    list <- join (map (fun cf => Nested (customFieldSubquery cf))
                    customFieldSortings) ;;
    Ok (sql ", " [ (Nested list, EmptyString) ]).

End Sorting.
(** ** Data *)

Section Data.
Context {host : Host}.

(** [Prisma.sql`...`] for a template without holes, given line by line:
    the template opens and closes with a line break. *)
Definition template (lines : list string) : Sql :=
  sql (Js.join NL lines) [].

Definition assetQueryFragment : Sql :=
  template
  [ EmptyString;
    "  SELECT ";
    "    a.id AS " +:+ quoted "assetId" +:+ ",";
    "    a.title AS " +:+ quoted "assetTitle" +:+ ",";
    "    a.description AS " +:+ quoted "assetDescription" +:+ ",";
    "    a." +:+ quoted "createdAt" +:+ " AS " +:+ quoted "assetCreatedAt" +:+ ",";
    "    a." +:+ quoted "updatedAt" +:+ " AS " +:+ quoted "assetUpdatedAt" +:+ ",";
    "    a." +:+ quoted "userId" +:+ " AS " +:+ quoted "assetUserId" +:+ ",";
    "    a." +:+ quoted "mainImage" +:+ " AS " +:+ quoted "assetMainImage" +:+ ",";
    "    a." +:+ quoted "mainImageExpiration" +:+ " AS " +:+ quoted "assetMainImageExpiration" +:+ ",";
    "    a." +:+ quoted "locationId" +:+ " AS " +:+ quoted "assetLocationId" +:+ ",";
    "    a." +:+ quoted "organizationId" +:+ " AS " +:+ quoted "assetOrganizationId" +:+ ",";
    "    a.status AS " +:+ quoted "assetStatus" +:+ ",";
    "    a.value AS " +:+ quoted "assetValue" +:+ ",";
    "    a." +:+ quoted "availableToBook" +:+ " AS " +:+ quoted "assetAvailableToBook" +:+ ",";
    "    a." +:+ quoted "kitId" +:+ " AS " +:+ quoted "assetKitId" +:+ ",";
    "    a." +:+ quoted "categoryId" +:+ " AS " +:+ quoted "assetCategoryId" +:+ ",";
    "    k.id AS " +:+ quoted "kitId" +:+ ",";
    "    k.name AS " +:+ quoted "kitName" +:+ ",";
    "    c.id AS " +:+ quoted "categoryId" +:+ ",";
    "    c.name AS " +:+ quoted "categoryName" +:+ ",";
    "    c.color AS " +:+ quoted "categoryColor" +:+ ",";
    "    l.name AS " +:+ quoted "locationName" +:+ ",";
    "    json_agg(DISTINCT jsonb_build_object('id', t.id, 'name', t.name)) AS tags,";
    "    COALESCE(";
    "      CASE ";
    "        WHEN cu.id IS NOT NULL THEN";
    "          jsonb_build_object(";
    "            'name', tm.name,";
    "            'custodian', jsonb_build_object(";
    "              'name', tm.name,";
    "              'user', CASE ";
    "                WHEN u.id IS NOT NULL THEN";
    "                  jsonb_build_object(";
    "                    'firstName', u." +:+ quoted "firstName" +:+ ",";
    "                    'lastName', u." +:+ quoted "lastName" +:+ ",";
    "                    'profilePicture', u." +:+ quoted "profilePicture" +:+ ",";
    "                    'email', u.email";
    "                  )";
    "                ELSE NULL";
    "              END";
    "            )";
    "          )";
    "        WHEN b.id IS NOT NULL THEN";
    "          jsonb_build_object(";
    "            'name', COALESCE(CONCAT(bu." +:+ quoted "firstName" +:+ ", ' ', bu." +:+ quoted "lastName" +:+ "), btm.name),";
    "            'custodian', jsonb_build_object(";
    "              'name', COALESCE(CONCAT(bu." +:+ quoted "firstName" +:+ ", ' ', bu." +:+ quoted "lastName" +:+ "), btm.name),";
    "              'user', CASE ";
    "                WHEN bu.id IS NOT NULL THEN";
    "                  jsonb_build_object(";
    "                    'firstName', bu." +:+ quoted "firstName" +:+ ",";
    "                    'lastName', bu." +:+ quoted "lastName" +:+ ",";
    "                    'profilePicture', bu." +:+ quoted "profilePicture" +:+ ",";
    "                    'email', bu.email";
    "                  )";
    "                ELSE NULL";
    "              END";
    "            )";
    "          )";
    "        ELSE NULL";
    "      END,";
    "      NULL";
    "    ) AS custody,";
    "    (";
    "      SELECT jsonb_agg(";
    "        jsonb_build_object(";
    "          'id', acfv.id,";
    "          'value', acfv.value,";
    "          'customField', jsonb_build_object(";
    "            'id', cf.id,";
    "            'name', cf.name,";
    "            'helpText', cf." +:+ quoted "helpText" +:+ ",";
    "            'required', cf.required,";
    "            'type', cf.type,";
    "            'options', cf.options,";
    "            'categories', (";
    "              SELECT jsonb_agg(jsonb_build_object('id', cat.id, 'name', cat.name))";
    "              FROM public." +:+ quoted "_CategoryToCustomField" +:+ " ccf";
    "              JOIN public." +:+ quoted "Category" +:+ " cat ON ccf." +:+ quoted "A" +:+ " = cat.id";
    "              WHERE ccf." +:+ quoted "B" +:+ " = cf.id";
    "            )";
    "          )";
    "        )";
    "      )";
    "      FROM public." +:+ quoted "AssetCustomFieldValue" +:+ " acfv";
    "      JOIN public." +:+ quoted "CustomField" +:+ " cf ON acfv." +:+ quoted "customFieldId" +:+ " = cf.id";
    "      WHERE acfv." +:+ quoted "assetId" +:+ " = a.id AND cf.active = true";
    "    ) AS " +:+ quoted "customFields";
    EmptyString ].

End Data.
End AdvancedIndexQuery.

(* ================================================================== *)
(** * utils.server.ts *)
(* ================================================================== *)

Module AssetUtils.
Import Js AdvancedFilters.

Section Filters.
Context {host : Host}.

Definition getFilterFieldType (fieldName : string) : string :=
  if fieldName === "id" then "string"
  else if fieldName === "status" then "enum"
  else if fieldName === "description" then "text"
  else if fieldName === "valuation" then "number"
  else if fieldName === "availableToBook" then "boolean"
  else if fieldName === "createdAt" then "date"
  else "string".

(** [value.split(",")] on a value that may be [undefined]: a method call
    on [undefined] is a [TypeError]. *)
Definition splitComma (value : option string) : result (list string) :=
  match value with
  | Some v => Ok (split "," v)
  | None => Throw TypeError
  end.

(** [value] is the second piece of the parameter's text and is
    [undefined] ([None]) when there is no such piece. *)
Definition parseFilterValue (field operator : string) (value : option string)
  : result Js.value :=
  if field === "valuation" then
    if operator === "between" then
      pieces <- splitComma value ;;
      Ok (VArr (map (fun piece => VNum (Number piece)) pieces))
    else
      Ok (VNum (match value with Some v => Number v | None => NaN end))
  else if field === "availableToBook" then
    match value with
    | Some v => Ok (VBool (toLowerCase v === "true"))
    | None => Throw TypeError
    end
  else if field === "createdAt" then
    if operator === "between" then
      pieces <- splitComma value ;;
      Ok (VArr (map VStr pieces))
    else Ok (ofOption value)
  else if field === "status" then
    if operator === "in" then
      pieces <- splitComma value ;;
      Ok (VArr (map VStr pieces))
    else Ok (ofOption value)
  else Ok (ofOption value).

(** The callback of [searchParams.forEach]: one parameter pushes one
    filter. *)
Definition pushFilter (filters : list Filter) (param : string * string)
  : result (list Filter) :=
  let (key, value) := param in
  let pieces := split ":" value in
  let operator := hd EmptyString pieces in
  let filterValue := nth_error pieces 1 in
  parsed <- parseFilterValue key operator filterValue ;;
  Ok (filters ++ [mkFilter key (getFilterFieldType key) operator parsed]).

Definition parseFilters (filtersString : string) : result (list Filter) :=
  foldM pushFilter [] (URLSearchParams filtersString).

End Filters.

(** ** [getAssetsWhereInput] *)

Section WhereInput.

(** What the function reads of the object [getParamsValues] returns.
    An array that is absent is [None]. *)
Record ParamsValues := mkParamsValues {
  categoriesIds : option (list string);
  locationIds : option (list string);
  tagsIds : option (list string);
  search : option string;
  teamMemberIds : option (list string)
}.

(** [getParamsValues] of [~/utils/list] is taken as a parameter. *)
Variable getParamsValues : list (string * string) -> ParamsValues.

(** The objects the function puts in the [OR] array. *)
Inductive alternative :=
| CategoryIdIn (ids : list string)
| CategoryIdNull
| TagsSomeIdIn (ids : list string)
| TagsNone
| LocationIdIn (ids : list string)
| LocationIdNull
| CustodyTeamMemberIdIn (ids : list string)
| CustodyCustodianUserIdIn (ids : list string)
| BookingsSomeCustodianTeamMemberIdIn (ids : list string)
| BookingsSomeCustodianUserIdIn (ids : list string)
| CustodyNull.

(** [{ contains, mode: "insensitive" }]. *)
Record TitleFilter := mkTitleFilter {
  contains : string;
  mode : string
}.

(** The keys of [Prisma.AssetWhereInput] the function sets; a key that
    is not set is [None]. *)
Record AssetWhereInput := mkWhere {
  organizationId : string;
  title : option TitleFilter;
  status : option string;
  OR : option (list alternative);
  categoryId : option (list string);
  tags : option (list string);
  location : option (list string)
}.

Definition setOR (where_ : AssetWhereInput) (alts : list alternative)
  : AssetWhereInput :=
  mkWhere (organizationId where_) (title where_) (status where_) (Some alts)
    (categoryId where_) (tags where_) (location where_).

(** [where.OR ?? []]. *)
Definition currentOR (where_ : AssetWhereInput) : list alternative :=
  match OR where_ with
  | Some alts => alts
  | None => []
  end.

(** [ids.includes(x)]. *)
Definition includes (x : string) (ids : list string) : bool :=
  existsb (fun id => id === x) ids.

(** [searchParams.get(key)]: the first value under [key], or [null]. *)
Fixpoint get (key : string) (params : list (string * string))
  : option string :=
  match params with
  | [] => None
  | (k, v) :: params' => if k === key then Some v else get key params'
  end.

Definition nonEmpty (ids : option (list string)) : option (list string) :=
  match ids with
  | Some (id :: ids') => Some (id :: ids')
  | _ => None
  end.

(** [if (search) { where.title = ... }]. *)
Definition withSearch (search : option string) (where_ : AssetWhereInput)
  : AssetWhereInput :=
  match search with
  | Some s =>
      if truthy s then
        mkWhere (organizationId where_)
          (Some (mkTitleFilter (trim (toLowerCase s)) "insensitive"))
          (status where_) (OR where_) (categoryId where_) (tags where_)
          (location where_)
      else where_
  | None => where_
  end.

(** [if (status) { where.status = status }]. *)
Definition withStatus (st : option string) (where_ : AssetWhereInput)
  : AssetWhereInput :=
  match st with
  | Some s =>
      if truthy s then
        mkWhere (organizationId where_) (title where_) (Some s) (OR where_)
          (categoryId where_) (tags where_) (location where_)
      else where_
  | None => where_
  end.

(** [if (categoriesIds && categoriesIds.length > 0) { ... }]. *)
Definition withCategories (ids : option (list string))
  (where_ : AssetWhereInput) : AssetWhereInput :=
  match nonEmpty ids with
  | Some ids =>
      if includes "uncategorized" ids
      then setOR where_ [CategoryIdIn ids; CategoryIdNull]
      else mkWhere (organizationId where_) (title where_) (status where_)
             (OR where_) (Some ids) (tags where_) (location where_)
  | None => where_
  end.

(** [if (tagsIds && tagsIds.length > 0) { ... }]. *)
Definition withTags (ids : option (list string)) (where_ : AssetWhereInput)
  : AssetWhereInput :=
  match nonEmpty ids with
  | Some ids =>
      if includes "untagged" ids
      then setOR where_ (currentOR where_ ++ [TagsSomeIdIn ids; TagsNone])
      else mkWhere (organizationId where_) (title where_) (status where_)
             (OR where_) (categoryId where_) (Some ids) (location where_)
  | None => where_
  end.

(** [if (locationIds && locationIds.length > 0) { ... }]. *)
Definition withLocations (ids : option (list string))
  (where_ : AssetWhereInput) : AssetWhereInput :=
  match nonEmpty ids with
  | Some ids =>
      if includes "without-location" ids
      then setOR where_ (currentOR where_ ++ [LocationIdIn ids; LocationIdNull])
      else mkWhere (organizationId where_) (title where_) (status where_)
             (OR where_) (categoryId where_) (tags where_) (Some ids)
  | None => where_
  end.

(** [if (teamMemberIds && teamMemberIds.length) { ... }]. *)
Definition withTeamMembers (ids : option (list string))
  (where_ : AssetWhereInput) : AssetWhereInput :=
  match nonEmpty ids with
  | Some ids =>
      setOR where_
        (currentOR where_
           ++ [ CustodyTeamMemberIdIn ids;
                CustodyCustodianUserIdIn ids;
                BookingsSomeCustodianTeamMemberIdIn ids;
                BookingsSomeCustodianUserIdIn ids ]
           ++ (if includes "without-custody" ids then [CustodyNull] else []))
  | None => where_
  end.

Context {host : Host}.

Definition getAssetsWhereInput (organizationId : string)
  (currentSearchParams : option string) : AssetWhereInput :=
  let where_ := mkWhere organizationId None None None None None None in
  match currentSearchParams with
  | None => where_
  | Some currentSearchParams =>
      if truthy currentSearchParams then
        let searchParams := URLSearchParams currentSearchParams in
        let paramsValues := getParamsValues searchParams in
        let status :=
          match get "status" searchParams with
          | Some st => if st === "ALL" then None else Some st
          | None => None
          end in
        withTeamMembers (teamMemberIds paramsValues)
          (withLocations (locationIds paramsValues)
             (withTags (tagsIds paramsValues)
                (withCategories (categoriesIds paramsValues)
                   (withStatus status
                      (withSearch (search paramsValues) where_)))))
      else where_
  end.

End WhereInput.
(** ** [getLocationUpdateNoteContent] *)

Section Notes.

(** What the function reads of a location. *)
Record Location := mkLocation {
  locationRecordId : string;
  locationName : string
}.

(** [`${currentLocation?.name.trim()}`] and [`${currentLocation?.id}`]:
    [undefined] when there is no current location. *)
Definition trimmedName (l : option Location) : option string :=
  option_map (fun l => trim (locationName l)) l.

Definition idOf (l : option Location) : option string :=
  option_map locationRecordId l.

(** [**first last**], both trimmed. *)
Definition actor (firstName lastName : string) : string :=
  "**" +:+ trim firstName +:+ " " +:+ trim lastName +:+ "**".

(** [**[name](/locations/id)**]. *)
Definition locationLink (name id : string) : string :=
  "**[" +:+ name +:+ "](/locations/" +:+ id +:+ ")**".

(** [isRemoving] is optional: absent, it is falsy. *)
Definition flag (b : option bool) : bool :=
  match b with
  | Some true => true
  | _ => false
  end.

Definition getLocationUpdateNoteContent
  (currentLocation newLocation : option Location)
  (firstName lastName assetName : string) (isRemoving : option bool)
  : string :=
  let message := EmptyString in
  let message :=
    match currentLocation, newLocation with
    | Some current, Some new =>
        actor firstName lastName +:+ " updated the location of **"
        +:+ trim assetName +:+ "** from "
        +:+ locationLink (trim (locationName current)) (locationRecordId current)
        +:+ " to "
        +:+ locationLink (trim (locationName new)) (locationRecordId new)
    | _, _ => message
    end in
  let message :=
    match newLocation, currentLocation with
    | Some new, None =>
        actor firstName lastName +:+ " set the location of **"
        +:+ trim assetName +:+ "** to "
        +:+ locationLink (trim (locationName new)) (locationRecordId new)
    | _, _ => message
    end in
  let message :=
    if flag isRemoving
       || match newLocation with Some _ => false | None => true end then
      actor firstName lastName +:+ " removed  **" +:+ trim assetName
      +:+ "** from location "
      +:+ locationLink (show (trimmedName currentLocation))
            (show (idOf currentLocation))
    else message in
  message.

End Notes.

End AssetUtils.


(* ================================================================== *)
(** * [operator-selector.tsx]: the operators the selector offers *)
(* ================================================================== *)

Module OperatorSelector.

(** The props of a [FilterOperatorDisplay] element. *)
Record FilterOperatorDisplay := mkDisplay {
  symbol : string;
  text : string
}.

(** [operatorsMap], key by key in the order of the object literal; its
    type [Record<FilterOperator, ...>] makes the keys the operators a
    filter can have. *)
Definition operatorsMap : list (string * FilterOperatorDisplay) :=
  [ ("is", mkDisplay "=" "is");
    ("isNot", mkDisplay "≠" "Is not");
    ("contains", mkDisplay "∋" "Contains");
    ("before", mkDisplay "<" "Before");
    ("after", mkDisplay ">" "After");
    ("between", mkDisplay "<>" "Between");
    ("gt", mkDisplay ">" "Greater than");
    ("lt", mkDisplay "<" "Lower than");
    ("gte", mkDisplay ">=" "Greater or equal");
    ("lte", mkDisplay "<=" "Lower or equal");
    ("in", mkDisplay "∈" "Contains");
    ("containsAll", mkDisplay "⊇" "Contains all");
    ("containsAny", mkDisplay "⊃" "Contains any") ].

(** [Object.entries(operatorsMap).map(([_k, v]) => v)]: what the popover
    of [OperatorSelector] lists. *)
Definition popoverContent : list FilterOperatorDisplay :=
  map (fun entry => snd entry) operatorsMap.

End OperatorSelector.
Import Js.

(* ================================================================== *)
(** * Specification-side definitions

    From here on the definitions say what the functions above are
    expected to compute, in the terms of the specification: the
    conjunct a filter stands for, the part a sort entry stands for, the
    record a query-string parameter stands for.  The theorems compare
    them with the embedding of the code. *)
(* ================================================================== *)

(** ** Strings: splitting *)

(** [s] holds no occurrence of the character [c]. *)
Fixpoint without (c : ascii) (s : string) : bool :=
  match s with
  | EmptyString => true
  | String x s' => negb (Ascii.eqb x c) && without c s'
  end.

(** The text before the first [c], the whole string when there is none. *)
Fixpoint beforeFirst (c : ascii) (s : string) : string :=
  match s with
  | EmptyString => EmptyString
  | String x s' => if Ascii.eqb x c then EmptyString
                   else String x (beforeFirst c s')
  end.

(** The text after the first [c], when there is one. *)
Fixpoint afterFirst (c : ascii) (s : string) : option string :=
  match s with
  | EmptyString => None
  | String x s' => if Ascii.eqb x c then Some s' else afterFirst c s'
  end.


(* ================================================================== *)
(** * What a filter contributes to the WHERE clause *)
(* ================================================================== *)

Section Conjuncts.
Context {host : Host}.
Import Prisma AdvancedFilters.

(** [ AND a."<field>" <op> ?], the value bound to the parameter. *)
Definition comparison (field op : string) (v : Js.value) : Sql :=
  {| head := " AND a." +:+ DQ +:+ field +:+ DQ +:+ " " +:+ op +:+ " ";
     tail := [(v, EmptyString)] |}.

(** [ AND DATE(a."<field>") <op> ?]. *)
Definition dateComparison (field op : string) (v : Js.value) : Sql :=
  {| head := " AND DATE(a." +:+ DQ +:+ field +:+ DQ +:+ ") " +:+ op +:+ " ";
     tail := [(v, EmptyString)] |}.

(** [ AND a."<field>" BETWEEN ? AND ?]. *)
Definition range (field : string) (lo hi : Js.value) : Sql :=
  {| head := " AND a." +:+ DQ +:+ field +:+ DQ +:+ " BETWEEN ";
     tail := [(lo, " AND "); (hi, EmptyString)] |}.

(** [ AND a."<field>" IN (?,...,?)], one parameter per element. *)
Definition membership (field : string) (elems : list Js.value) : Sql :=
  {| head := " AND a." +:+ DQ +:+ field +:+ DQ +:+ " IN (";
     tail := combine elems (repeat "," (length elems - 1) ++ [")"]) |}.

(** [?,...,?], one parameter per element. *)
Definition commaList (elems : list Js.value) : Sql :=
  {| head := EmptyString;
     tail := combine elems (repeat "," (length elems - 1) ++ [EmptyString]) |}.

(** The words of a search text: its maximal runs of non-white-space
    characters; none for [null]. *)
Definition searchWords (search : option string) : list string :=
  match search with
  | Some s => filter truthy (splitWhite (trim s))
  | None => []
  end.

(** The full-text conjunct for the given words, the query bound. *)
Definition searchConjunct (words : list string) : Sql :=
  {| head := " AND (" +:+ NL +:+ AdvancedIndexQuery.spaces 10
             +:+ "to_tsvector('english', a." +:+ quoted "title"
             +:+ " || ' ' || COALESCE(a." +:+ quoted "description"
             +:+ ", '')) @@ to_tsquery('english', ";
     tail :=
       [ (VStr (Js.join " | "
                  (map (fun word => word +:+ ":* | " +:+ word) words)),
          ")" +:+ NL +:+ AdvancedIndexQuery.spaces 8 +:+ ")" +:+ NL
          +:+ AdvancedIndexQuery.spaces 6) ] |}.

(** What one filter does to the clause built so far. *)
Inductive contribution :=
| Unchanged
| Adds (conjunct : Sql)
| Raises.

(** The operators each filter type compares with, and their SQL. *)
Definition comparisons (type : string) : list (string * string) :=
  if type === "string" then [("is", "="); ("isNot", "!=")]
  else if type === "enum" then [("is", "="); ("isNot", "!=")]
  else if type === "number" then
    [("is", "="); ("isNot", "!="); ("gt", ">"); ("lt", "<");
     ("gte", ">="); ("lte", "<=")]
  else if type === "date" then [("before", "<"); ("after", ">")]
  else [].

Definition isPair (v : Js.value) : option (Js.value * Js.value) :=
  match v with
  | VArr [lo; hi] => Some (lo, hi)
  | _ => None
  end.

(** The conjunct chosen by the filter's type and operator. *)
Definition contributionOf (f : Filter) : contribution :=
  let field := name f in
  if type f === "boolean" then Adds (comparison field "=" (value f))
  else
    match AdvancedIndexQuery.assoc (operator f) (comparisons (type f)) with
    | Some op => Adds (comparison field op (value f))
    | None =>
        if (type f === "date") && (operator f === "is")
        then Adds (dateComparison field "=" (value f))
        else if (type f === "date") && (operator f === "isNot")
        then Adds (dateComparison field "!=" (value f))
        else if (type f === "text") && (operator f === "contains")
        then Adds (comparison field "ILIKE"
                     (VStr ("%" +:+ toString (value f) +:+ "%")))
        else if ((type f === "number") || (type f === "date"))
                && (operator f === "between")
        then match isPair (value f) with
             | Some (lo, hi) => Adds (range field lo hi)
             | None => Unchanged
             end
        else if (type f === "enum") && (operator f === "in")
        then match value f with
             | VArr [] => Raises
             | VArr elems => Adds (membership field elems)
             | _ => Unchanged
             end
        else Unchanged
    end.

Definition contribute (w : Sql) (c : contribution) : result Sql :=
  match c with
  | Unchanged => Ok w
  | Adds conjunct => Ok (splice w conjunct)
  | Raises => Throw TypeError
  end.

(** The filter types [generateWhereClause] has a case for, and the case
    labels of the [switch] on the operator in each [add*Filter]
    ([addBooleanFilter] has no such [switch]). *)
Definition handledTypes : list string :=
  ["string"; "enum"; "text"; "number"; "boolean"; "date"].

Definition operatorCases (type : string) : list string :=
  if type === "string" then ["is"; "isNot"]
  else if type === "enum" then ["is"; "isNot"; "in"]
  else if type === "text" then ["contains"]
  else if type === "number" then
    ["is"; "isNot"; "gt"; "lt"; "gte"; "lte"; "between"]
  else if type === "date" then ["is"; "isNot"; "before"; "after"; "between"]
  else [].

(** [s] opens with [p]. *)
Definition opensWith (p s : string) : Prop := exists rest, s = p +:+ rest.

(** ** Raw text and bound parameters *)

(** What the raw SQL text may depend on in a filter value: whether it is
    an array, and of what length. *)
Definition shape (v : Js.value) : option nat :=
  match v with
  | VArr elems => Some (length elems)
  | _ => None
  end.

(** Two filters that differ at most in the content of their values. *)
Definition sameButValue (f g : Filter) : Prop :=
  name f = name g /\ type f = type g /\ operator f = operator g
  /\ shape (value f) = shape (value g).

(** Two outcomes with the same raw SQL text. *)
Definition sameRawText (r r' : result Sql) : Prop :=
  match r, r' with
  | Ok q, Ok q' => strings q = strings q'
  | Throw _, Throw _ => True
  | _, _ => False
  end.

(** [x] is the filter value [v], one of its elements, or the [ILIKE]
    pattern made of it. *)
Definition fromValue (v x : Js.value) : Prop :=
  x = v
  \/ (exists elems, v = VArr elems /\ In x elems)
  \/ x = VStr ("%" +:+ toString v +:+ "%").

(** The conjunct [c] is one of the templates, filled in from [f]. *)
Definition templated (f : Filter) (c : Sql) : Prop :=
  (exists op v,
     fromValue (value f) v
     /\ (c = comparison (name f) op v \/ c = dateComparison (name f) op v))
  \/ (exists lo hi, value f = VArr [lo; hi] /\ c = range (name f) lo hi)
  \/ (exists elems, value f = VArr elems /\ c = membership (name f) elems).

(** The filters the compiler passes over: the operator is none of the
    cases of the filter's type, or a [between] value is not an array of
    two elements, or the [in] value of an enum filter is not an array. *)
Definition malformed (f : Filter) : Prop :=
  ~ In (operator f) (operatorCases (type f))
  \/ (operator f = "between" /\ isPair (value f) = None)
  \/ (type f = "enum" /\ operator f = "in" /\ shape (value f) = None).

End Conjuncts.

(* ================================================================== *)
(** * What a sort entry contributes *)
(* ================================================================== *)

Section SortEntries.
Import AdvancedIndexQuery.

Definition noSorting : SortState := mkSortState [] [] [].

(** What one entry of [sortBy] pushes when the loop reaches it. *)
Definition entryState (s : string) : SortState :=
  sortStep noSorting (parseSortField s).

Definition entryParts (s : string) : list string :=
  orderByParts (entryState s).

Definition entrySortings (s : string) : list CustomFieldSorting :=
  cfSortings (entryState s).

Definition entryWarnings (s : string) : list string :=
  console (entryState s).

(** The ORDER BY clause of a list of parts. *)
Definition orderBy (parts : list string) : string :=
  match parts with
  | [] => EmptyString
  | _ => "ORDER BY " +:+ Js.join ", " parts
  end.

(** The relations an asset can be sorted by, and their ORDER BY column. *)
Definition relationColumns : list (string * string) :=
  [ ("kit", quoted "kitName");
    ("category", quoted "categoryName");
    ("location", quoted "locationName");
    ("custody", "custody->>'name'") ].

(** The sort names the compiler is written for: the seven direct asset
    fields, the four relations and the [cf_] names. *)
Definition knownSortName (n : string) : bool :=
  existsb (String.eqb n)
    (map fst directAssetFields ++ map fst relationColumns)
  || startsWith "cf_" n.

(** The name is a property [directAssetFields] inherits. *)
Definition inheritedName (n : string) : bool :=
  existsb (String.eqb n) (map fst objectPrototype).

(** The alias of a custom field: [cf_] and the name, each run of white
    space replaced by one underscore. *)
Definition customFieldAlias (customFieldName : string) : string :=
  "cf_" +:+ replaceWhite "_" customFieldName.

End SortEntries.

(* ================================================================== *)
(** * The text of a statement *)
(* ================================================================== *)

Section StatementText.
Context {host : Host}.
Import Prisma AdvancedIndexQuery.

(** The parameters of a statement as [?] marks, each followed by the raw
    text behind it. *)
Fixpoint placeholders (t : list (Js.value * string)) : string :=
  match t with
  | [] => EmptyString
  | (_, s) :: t' => "?" +:+ s +:+ placeholders t'
  end.

(** Statements spliced one behind the other, commas in between. *)
Fixpoint commaSeparated (qs : list Sql) : Sql :=
  match qs with
  | [] => empty
  | [q] => q
  | q :: qs' => splice q (splice (raw ",") (commaSeparated qs'))
  end.

(** The text of the correlated subquery selected under [alias]: the
    first [?] is the field type the [CASE] switches on, the second the
    name of the custom field. *)
Definition subqueryText (alias : string) : string :=
  "(" +:+ NL
  +:+ spaces 6 +:+ "SELECT " +:+ NL
  +:+ spaces 8 +:+ "CASE ?" +:+ NL
  +:+ spaces 10 +:+ "WHEN 'DATE' THEN " +:+ NL
  +:+ spaces 12 +:+ "(acfv.value->>'valueDate')::timestamp::text" +:+ NL
  +:+ spaces 10 +:+ "WHEN 'NUMBER' THEN " +:+ NL
  +:+ spaces 12 +:+ "(acfv.value->>'raw')::numeric::text" +:+ NL
  +:+ spaces 10 +:+ "WHEN 'BOOLEAN' THEN " +:+ NL
  +:+ spaces 12 +:+ "(acfv.value->>'valueBoolean')::boolean::text" +:+ NL
  +:+ spaces 10 +:+ "ELSE" +:+ NL
  +:+ spaces 12 +:+ "acfv.value->>'raw'" +:+ NL
  +:+ spaces 8 +:+ "END" +:+ NL
  +:+ spaces 6 +:+ "FROM public." +:+ quoted "AssetCustomFieldValue"
  +:+ " acfv" +:+ NL
  +:+ spaces 6 +:+ "JOIN public." +:+ quoted "CustomField"
  +:+ " cf ON acfv." +:+ quoted "customFieldId" +:+ " = cf.id" +:+ NL
  +:+ spaces 6 +:+ "WHERE acfv." +:+ quoted "assetId"
  +:+ " = a.id AND cf.name = ?" +:+ NL
  +:+ spaces 4 +:+ ") AS " +:+ alias.

(** The two parameters a custom-field sorting binds. *)
Definition subqueryValues (cf : CustomFieldSorting) : list Js.value :=
  [ofOption (cfFieldType cf); VStr (cfName cf)].

End StatementText.

(* ================================================================== *)
(** * What a query-string parameter decodes to *)
(* ================================================================== *)

Section FilterRecords.
Context {host : Host}.
Import AdvancedFilters AssetUtils.

(** The fixed mapping from field names to filter types; any other name
    is a [string] field. *)
Definition fieldTypes : list (string * string) :=
  [ ("id", "string");
    ("status", "enum");
    ("description", "text");
    ("valuation", "number");
    ("availableToBook", "boolean");
    ("createdAt", "date") ].

Definition fieldTypeOf (key : string) : string :=
  match AdvancedIndexQuery.assoc key fieldTypes with
  | Some t => t
  | None => "string"
  end.

(** The operator of a parameter: its text before the first [:]. *)
Definition operatorOf (v : string) : string := beforeFirst ":" v.

(** The value text of a parameter: what stands between the first and the
    second [:], and [None] when there is no [:]. *)
Definition valueTextOf (v : string) : option string :=
  option_map (beforeFirst ":") (afterFirst ":" v).

(** The value of a filter, parsed per field from the value text. *)
Definition filterValueOf (key operator text : string) : Js.value :=
  if key === "valuation" then
    if operator === "between"
    then VArr (map (fun piece => VNum (Number piece)) (split "," text))
    else VNum (Number text)
  else if key === "availableToBook" then VBool (toLowerCase text === "true")
  else if key === "createdAt" then
    if operator === "between" then VArr (map VStr (split "," text))
    else VStr text
  else if key === "status" then
    if operator === "in" then VArr (map VStr (split "," text))
    else VStr text
  else VStr text.

(** The filter of a parameter whose value holds a [:]. *)
Definition filterOf (param : string * string) : Filter :=
  let (key, v) := param in
  mkFilter key (fieldTypeOf key) (operatorOf v)
    (filterValueOf key (operatorOf v)
       (match valueTextOf v with
        | Some text => text
        | None => EmptyString
        end)).

(** One parameter, decoded as the callback of [forEach] does. *)
Definition parseParam (param : string * string) : result Filter :=
  let (key, v) := param in
  parsed <- parseFilterValue key (operatorOf v) (valueTextOf v) ;;
  Ok (mkFilter key (getFilterFieldType key) (operatorOf v) parsed).

(** The fields whose value is parsed with a method call on the text. *)
Definition parsedFields : list string :=
  ["valuation"; "availableToBook"; "createdAt"; "status"].

End FilterRecords.

(* ================================================================== *)
(** * What the [OR] of an asset query means *)
(* ================================================================== *)

Section Alternatives.
Import AssetUtils.

Definition categoryAlternatives (ids : list string) : list alternative :=
  [CategoryIdIn ids; CategoryIdNull].

Definition tagAlternatives (ids : list string) : list alternative :=
  [TagsSomeIdIn ids; TagsNone].

Definition locationAlternatives (ids : list string) : list alternative :=
  [LocationIdIn ids; LocationIdNull].

Definition custodyAlternatives (ids : list string) : list alternative :=
  [ CustodyTeamMemberIdIn ids;
    CustodyCustodianUserIdIn ids;
    BookingsSomeCustodianTeamMemberIdIn ids;
    BookingsSomeCustodianUserIdIn ids ]
  ++ (if includes "without-custody" ids then [CustodyNull] else []).

(** What the location and the team-member blocks add to [OR]. *)
Definition locationPart (ids : option (list string)) : list alternative :=
  match nonEmpty ids with
  | Some ids =>
      if includes "without-location" ids then locationAlternatives ids
      else []
  | None => []
  end.

Definition custodyPart (ids : option (list string)) : list alternative :=
  match nonEmpty ids with
  | Some ids => custodyAlternatives ids
  | None => []
  end.

(** What of an asset the alternatives look at. *)
Record Custody := mkCustody {
  custodyTeamMemberId : string;
  custodianUserId : option string
}.

Record Booking := mkBooking {
  custodianTeamMemberId : option string;
  bookingCustodianUserId : option string
}.

Record Asset := mkAsset {
  assetCategoryId : option string;
  assetTags : list string;
  assetLocationId : option string;
  assetCustody : option Custody;
  assetBookings : list Booking
}.

Definition isIn (ids : list string) (id : option string) : bool :=
  match id with
  | Some x => existsb (String.eqb x) ids
  | None => false
  end.

Definition isNull {A} (x : option A) : bool :=
  match x with
  | Some _ => false
  | None => true
  end.

(** Prisma's reading of each alternative: [in] is membership, [null] an
    absent relation or column, [some] and [none] quantify over the
    related records. *)
Definition satisfies (alt : alternative) (a : Asset) : bool :=
  match alt with
  | CategoryIdIn ids => isIn ids (assetCategoryId a)
  | CategoryIdNull => isNull (assetCategoryId a)
  | TagsSomeIdIn ids => existsb (fun t => isIn ids (Some t)) (assetTags a)
  | TagsNone => match assetTags a with [] => true | _ => false end
  | LocationIdIn ids => isIn ids (assetLocationId a)
  | LocationIdNull => isNull (assetLocationId a)
  | CustodyTeamMemberIdIn ids =>
      isIn ids (option_map custodyTeamMemberId (assetCustody a))
  | CustodyCustodianUserIdIn ids =>
      match assetCustody a with
      | Some c => isIn ids (custodianUserId c)
      | None => false
      end
  | BookingsSomeCustodianTeamMemberIdIn ids =>
      existsb (fun b => isIn ids (custodianTeamMemberId b)) (assetBookings a)
  | BookingsSomeCustodianUserIdIn ids =>
      existsb (fun b => isIn ids (bookingCustodianUserId b)) (assetBookings a)
  | CustodyNull => isNull (assetCustody a)
  end.

(** An [OR] array holds for an asset when one of its alternatives does;
    a query without [OR] puts no such condition. *)
Definition satisfiesOR (w : AssetWhereInput) (a : Asset) : bool :=
  match OR w with
  | Some alts => existsb (fun alt => satisfies alt a) alts
  | None => true
  end.

(** [searchParams.getAll(key)]. *)
Definition getAll (key : string) (params : list (string * string))
  : list string :=
  map snd (filter (fun p => fst p === key) params).

(** An instance of the [getParamsValues] parameter, to run
    [getAssetsWhereInput] on concrete query strings: each array is read
    with [getAll] under a key of its own. *)
Definition readParamsValues (params : list (string * string)) : ParamsValues :=
  mkParamsValues (Some (getAll "category" params))
    (Some (getAll "location" params))
    (Some (getAll "tag" params))
    (get "s" params)
    (Some (getAll "teamMember" params)).

End Alternatives.

(* ================================================================== *)
(** * Further specification-side definitions *)
(* ================================================================== *)

(** A text made of ASCII white space only: TAB, LF, VT, FF, CR, SPACE. *)
Fixpoint blank (s : string) : bool :=
  match s with
  | EmptyString => true
  | String c s' => ws1 c && blank s'
  end.

(** Tokens that are all white space. *)
Definition allWhite (ts : list token) : bool :=
  forallb (fun t => match t with White _ => true | Byte _ => false end) ts.

(** [p] occurs somewhere in [s]. *)
Fixpoint occurs (p s : string) : bool :=
  String.prefix p s
  || match s with
     | EmptyString => false
     | String _ s' => occurs p s'
     end.

Section QueryGroups.
Import AssetUtils.

(** The id list is not empty and holds the marker. *)
Definition marked (marker : string) (ids : option (list string)) : bool :=
  match nonEmpty ids with
  | Some l => includes marker l
  | None => false
  end.

(** What the category and the tag blocks add to [OR]. *)
Definition categoryPart (ids : option (list string)) : list alternative :=
  match nonEmpty ids with
  | Some l => if includes "uncategorized" l then categoryAlternatives l else []
  | None => []
  end.

Definition tagPart (ids : option (list string)) : list alternative :=
  match nonEmpty ids with
  | Some l => if includes "untagged" l then tagAlternatives l else []
  | None => []
  end.

(** The plain filter of a group: its non-empty id list, unless the list
    holds the marker. *)
Definition plainFilter (marker : string) (ids : option (list string))
  : option (list string) :=
  match nonEmpty ids with
  | Some l => if includes marker l then None else Some l
  | None => None
  end.

(** The status read from the query string: absent, empty and [ALL] mean
    no status. *)
Definition statusOf (params : list (string * string)) : option string :=
  match get "status" params with
  | Some st => if (st === "ALL") || negb (truthy st) then None else Some st
  | None => None
  end.

End QueryGroups.

Section ParsedValues.
Context {host : Host}.
Import AdvancedFilters.

Definition isNumber (v : Js.value) : bool :=
  match v with VNum _ => true | _ => false end.

Definition isText (v : Js.value) : bool :=
  match v with VStr _ => true | _ => false end.

(** A number, or an array of numbers. *)
Definition isNumberValue (v : Js.value) : bool :=
  match v with
  | VNum _ => true
  | VArr elems => forallb isNumber elems
  | _ => false
  end.

(** A string, an array of strings, or [undefined]. *)
Definition isTextValue (v : Js.value) : bool :=
  match v with
  | VStr _ | VUndefined => true
  | VArr elems => forallb isText elems
  | _ => false
  end.

(** The value of the filter is of the kind its type announces. *)
Definition agrees (f : Filter) : bool :=
  if type f === "number" then isNumberValue (value f)
  else if type f === "boolean" then
    match value f with VBool _ => true | _ => false end
  else isTextValue (value f).

(** The bound parameters a filter adds to the clause. *)
Definition boundOf (f : Filter) : list Js.value :=
  match contributionOf f with
  | Adds conjunct => Prisma.values conjunct
  | _ => []
  end.

(** The bound parameter of the search, when it has a word. *)
Definition searchValues (search : option string) : list Js.value :=
  match searchWords search with
  | [] => []
  | words => Prisma.values (searchConjunct words)
  end.

End ParsedValues.

Section SortedColumns.
Context {host : Host}.
Import Prisma AdvancedIndexQuery.

(** The name of a sort entry leads to an ORDER BY part: it is one the
    compiler is written for, or one [directAssetFields] inherits. *)
Definition sortable (entry : string) : bool :=
  knownSortName (beforeFirst ":" entry)
  || inheritedName (beforeFirst ":" entry).

(** The warning printed for an entry that is not sortable. *)
Definition unknownSortField (entry : string) : string :=
  "Unknown sort field: " +:+ beforeFirst ":" entry.

(** [assetQueryFragment] selects something under the name [column]. *)
Definition selects (column : string) : bool :=
  occurs (" AS " +:+ column +:+ ",") (text assetQueryFragment).

End SortedColumns.

(** The operators the selector offers: the keys of [operatorsMap]. *)
Definition offered : list string := map fst OperatorSelector.operatorsMap.
(* ================================================================== *)
(** * Lemmas on strings *)
(* ================================================================== *)

Lemma append_empty_r (s : string) : s +:+ EmptyString = s.
Proof. induction s as [|c s IH]; simpl; [reflexivity | now rewrite IH]. Qed.

Lemma append_assoc (a b c : string) : (a +:+ b) +:+ c = a +:+ b +:+ c.
Proof. induction a as [|x a IH]; simpl; [reflexivity | now rewrite IH]. Qed.

Lemma split_nonempty (c : ascii) (s : string) : split c s <> [].
Proof.
  induction s as [|x s IH]; simpl; [discriminate |].
  destruct (Ascii.eqb x c); [discriminate |].
  destruct (split c s); [contradiction | discriminate].
Qed.

Lemma split_without (c : ascii) (s : string) :
  without c s = true -> split c s = [s].
Proof.
  induction s as [|x s IH]; simpl; intros H; [reflexivity |].
  destruct (Ascii.eqb x c); [discriminate |].
  now rewrite (IH H).
Qed.

(** Splitting [a ++ c ++ b] when [a] holds no [c]. *)
Lemma split_app (c : ascii) (a b : string) :
  without c a = true -> split c (a +:+ String c b) = a :: split c b.
Proof.
  induction a as [|x a IH]; simpl; intros H.
  - now rewrite Ascii.eqb_refl.
  - destruct (Ascii.eqb x c); [discriminate |].
    now rewrite (IH H).
Qed.

Lemma hd_split (c : ascii) (s : string) :
  hd EmptyString (split c s) = beforeFirst c s.
Proof.
  induction s as [|x s IH]; simpl; [reflexivity |].
  destruct (Ascii.eqb x c); [reflexivity |].
  pose proof (split_nonempty c s) as Hne.
  destruct (split c s) as [|w ws]; [contradiction |].
  simpl in *. now rewrite IH.
Qed.

Lemma tl_split (c : ascii) (s : string) :
  tl (split c s) = match afterFirst c s with
                   | Some rest => split c rest
                   | None => []
                   end.
Proof.
  induction s as [|x s IH]; simpl; [reflexivity |].
  destruct (Ascii.eqb x c); [reflexivity |].
  pose proof (split_nonempty c s) as Hne.
  destruct (split c s) as [|w ws]; [contradiction |].
  exact IH.
Qed.

Lemma nth_error_split_1 (c : ascii) (s : string) :
  nth_error (split c s) 1
  = option_map (beforeFirst c) (afterFirst c s).
Proof.
  pose proof (tl_split c s) as Ht. pose proof (split_nonempty c s) as Hne.
  destruct (split c s) as [|w ws]; [contradiction |].
  simpl in *. subst ws.
  destruct (afterFirst c s) as [rest|]; simpl; [| reflexivity].
  pose proof (hd_split c rest) as Hh. pose proof (split_nonempty c rest) as Hr.
  destruct (split c rest); [contradiction | now simpl in *; subst].
Qed.

Lemma afterFirst_without (c : ascii) (s : string) :
  without c s = true <-> afterFirst c s = None.
Proof.
  induction s as [|x s IH]; simpl; [tauto |].
  destruct (Ascii.eqb x c); simpl; [| exact IH].
  split; discriminate.
Qed.

Lemma beforeFirst_without (c : ascii) (s : string) :
  without c (beforeFirst c s) = true.
Proof.
  induction s as [|x s IH]; simpl; [reflexivity |].
  destruct (Ascii.eqb x c) eqn:E; simpl; [reflexivity |].
  now rewrite E.
Qed.

Lemma beforeFirst_app (c : ascii) (a b : string) :
  without c a = true -> beforeFirst c (a +:+ String c b) = a.
Proof.
  induction a as [|x a IH]; simpl; intros H.
  - now rewrite Ascii.eqb_refl.
  - destruct (Ascii.eqb x c); [discriminate |]. now rewrite (IH H).
Qed.

Lemma afterFirst_app (c : ascii) (a b : string) :
  without c a = true -> afterFirst c (a +:+ String c b) = Some b.
Proof.
  induction a as [|x a IH]; simpl; intros H.
  - now rewrite Ascii.eqb_refl.
  - destruct (Ascii.eqb x c); [discriminate |]. exact (IH H).
Qed.

Lemma beforeFirst_all (c : ascii) (s : string) :
  without c s = true -> beforeFirst c s = s.
Proof.
  induction s as [|x s IH]; simpl; intros H; [reflexivity |].
  destruct (Ascii.eqb x c); [discriminate |]. now rewrite (IH H).
Qed.

(* ================================================================== *)
(** * The algebra of [Prisma.Sql] *)
(* ================================================================== *)

Section SqlAlgebra.
Context {host : Host}.
Import Prisma.

Lemma sql_eta (q : Sql) : {| head := head q; tail := tail q |} = q.
Proof. now destruct q. Qed.

Lemma appendLast_cons p t s :
  t <> [] -> appendLast (p :: t) s = p :: appendLast t s.
Proof. destruct t; [contradiction |]. now destruct p. Qed.

Lemma appendLast_nonempty t s : t <> [] -> appendLast t s <> [].
Proof.
  destruct t as [|[v x] t]; [contradiction |]. intros _.
  destruct t; discriminate.
Qed.

Lemma appendLast_app t1 t2 s :
  t2 <> [] -> appendLast (t1 ++ t2) s = t1 ++ appendLast t2 s.
Proof.
  intros H. induction t1 as [|p t1 IH]; [reflexivity |].
  rewrite <- !app_comm_cons, appendLast_cons, IH; [reflexivity |].
  destruct t1; [exact H | discriminate].
Qed.

Lemma appendLast_twice t a b :
  appendLast (appendLast t a) b = appendLast t (a +:+ b).
Proof.
  induction t as [|[v x] t IH]; [reflexivity |].
  destruct t as [|p t].
  - simpl. now rewrite append_assoc.
  - rewrite !(appendLast_cons (v, x)) by discriminate.
    rewrite appendLast_cons, IH; [reflexivity |].
    now apply appendLast_nonempty.
Qed.

Lemma appendLast_empty t : appendLast t EmptyString = t.
Proof.
  induction t as [|[v x] t IH]; [reflexivity |].
  destruct t as [|p t].
  - simpl. now rewrite append_empty_r.
  - rewrite appendLast_cons by discriminate. now rewrite IH.
Qed.

Lemma addText_nonempty q s :
  tail q <> [] ->
  addText q s = {| head := head q; tail := appendLast (tail q) s |}.
Proof. unfold addText. destruct (tail q); [contradiction | reflexivity]. Qed.

Lemma addText_addText q a b :
  addText (addText q a) b = addText q (a +:+ b).
Proof.
  destruct q as [h t]. destruct t as [|p t].
  - unfold addText. simpl. now rewrite append_assoc.
  - rewrite (addText_nonempty {| head := h; tail := p :: t |}) by discriminate.
    rewrite (addText_nonempty {| head := h; tail := p :: t |}) by discriminate.
    rewrite addText_nonempty by (now apply appendLast_nonempty).
    cbn [head tail]. now rewrite appendLast_twice.
Qed.

Lemma addText_empty q : addText q EmptyString = q.
Proof.
  destruct q as [h t]. destruct t as [|p t].
  - unfold addText. simpl. now rewrite append_empty_r.
  - rewrite addText_nonempty by discriminate. cbn [head tail].
    now rewrite appendLast_empty.
Qed.

Lemma addText_raw q s : addText q s = splice q (raw s).
Proof.
  unfold splice. simpl. rewrite app_nil_r. now rewrite sql_eta.
Qed.

Lemma splice_empty_l q : splice empty q = q.
Proof. now destruct q. Qed.

Lemma splice_empty_r q : splice q empty = q.
Proof. unfold empty. rewrite <- addText_raw. apply addText_empty. Qed.

Lemma addText_splice q c s :
  addText (splice q c) s = splice q (addText c s).
Proof.
  destruct c as [hc tc]. destruct tc as [|p tc].
  - unfold splice at 1. simpl. rewrite app_nil_r, sql_eta.
    rewrite addText_addText. unfold addText at 2. simpl.
    apply addText_raw.
  - rewrite addText_nonempty.
    + rewrite (addText_nonempty {| head := hc; tail := p :: tc |})
        by discriminate.
      unfold splice. cbn [head tail].
      now rewrite appendLast_app by discriminate.
    + unfold splice. simpl. now destruct (tail (addText q hc)).
Qed.

Lemma splice_assoc a b c : splice (splice a b) c = splice a (splice b c).
Proof.
  unfold splice at 1. rewrite addText_splice.
  unfold splice. simpl. now rewrite app_assoc.
Qed.

Lemma fill_splice w q h : fill (splice w q) h = splice w (fill q h).
Proof.
  destruct h as [[child|v] s]; simpl.
  - now rewrite splice_assoc, addText_splice.
  - unfold splice. simpl. now rewrite app_assoc.
Qed.

Lemma fold_fill_splice w rest : forall q,
  fold_left fill rest (splice w q) = splice w (fold_left fill rest q).
Proof.
  induction rest as [|h rest IH]; intros q; simpl; [reflexivity |].
  now rewrite fill_splice, IH.
Qed.

(** A template that opens with a nested clause is that clause followed by
    the rest of the template. *)
Lemma sql_nested_first w s rest :
  sql EmptyString ((Nested w, s) :: rest) = splice w (sql s rest).
Proof.
  unfold sql. simpl.
  replace (addText (splice {| head := EmptyString; tail := [] |} w) s)
    with (splice w {| head := s; tail := [] |}).
  - apply fold_fill_splice.
  - change {| head := EmptyString; tail := [] |} with empty.
    rewrite splice_empty_l. symmetry. apply addText_raw.
Qed.

Lemma fold_fill_bound pairs : forall q,
  fold_left fill (map (fun p => (Bound (fst p), snd p)) pairs) q
  = {| head := head q; tail := tail q ++ pairs |}.
Proof.
  induction pairs as [|[v s] pairs IH]; intros q; simpl.
  - now rewrite app_nil_r, sql_eta.
  - rewrite IH. simpl. now rewrite <- app_assoc.
Qed.

Lemma map_fst_appendLast (t : list (value * string)) s :
  map fst (appendLast t s) = map fst t.
Proof.
  induction t as [|[v x] t IH]; [reflexivity |].
  destruct t as [|p t]; [reflexivity |].
  rewrite appendLast_cons by discriminate.
  change (fst (v, x) :: map fst (appendLast (p :: t) s)
          = fst (v, x) :: map fst (p :: t)).
  now rewrite IH.
Qed.

Lemma values_addText q s : values (addText q s) = values q.
Proof.
  destruct q as [h t]. destruct t as [|p t]; [reflexivity |].
  rewrite addText_nonempty by discriminate. unfold values. cbn [head tail].
  apply map_fst_appendLast.
Qed.

Lemma values_splice q c : values (splice q c) = values q ++ values c.
Proof.
  unfold splice, values. simpl. rewrite map_app. f_equal.
  apply values_addText.
Qed.

(** The raw text of a spliced clause is determined by the raw text of its
    two parts. *)
Lemma map_snd_appendLast (t t' : list (value * string)) s :
  map snd t = map snd t' ->
  map snd (appendLast t s) = map snd (appendLast t' s).
Proof.
  revert t'. induction t as [|[v x] t IH]; intros [|[v' x'] t'] H;
    try discriminate; [reflexivity |].
  injection H as Hx Ht. cbn [snd] in Hx. subst x'.
  destruct t as [|p t]; destruct t' as [|p' t']; try discriminate.
  - reflexivity.
  - rewrite !appendLast_cons by discriminate.
    change (x :: map snd (appendLast (p :: t) s)
            = x :: map snd (appendLast (p' :: t') s)).
    f_equal. now apply IH.
Qed.

Lemma strings_addText w w' s :
  strings w = strings w' -> strings (addText w s) = strings (addText w' s).
Proof.
  destruct w as [h t], w' as [h' t']. unfold strings. cbn [head tail].
  intros [= -> Ht].
  destruct t as [|p t]; destruct t' as [|p' t']; try discriminate.
  - reflexivity.
  - rewrite !addText_nonempty by discriminate. cbn [head tail].
    f_equal. now apply map_snd_appendLast.
Qed.

Lemma strings_splice w w' c c' :
  strings w = strings w' -> strings c = strings c' ->
  strings (splice w c) = strings (splice w' c').
Proof.
  intros Hw Hc. unfold strings in Hc. injection Hc as Hh Ht.
  pose proof (strings_addText w w' (head c) Hw) as Ha.
  rewrite Hh in Ha at 2. unfold strings in *. unfold splice. cbn [head tail].
  injection Ha as Ha1 Ha2. rewrite !map_app. congruence.
Qed.

(** ** The text of a statement *)

Lemma join_cons sep p q ps :
  Js.join sep (p :: q :: ps) = p +:+ sep +:+ Js.join sep (q :: ps).
Proof. reflexivity. Qed.

Lemma text_placeholders q : text q = head q +:+ placeholders (tail q).
Proof.
  destruct q as [h t]. unfold text, strings. cbn [head tail].
  revert h. induction t as [|[v s] t IH]; intros h.
  - simpl. now rewrite append_empty_r.
  - cbn [map snd]. rewrite join_cons, IH. reflexivity.
Qed.

Lemma placeholders_app t1 t2 :
  placeholders (t1 ++ t2) = placeholders t1 +:+ placeholders t2.
Proof.
  induction t1 as [|[v s] t1 IH]; [reflexivity |].
  cbn [app placeholders]. rewrite IH. cbn. now rewrite !append_assoc.
Qed.

Lemma placeholders_appendLast t s :
  t <> [] -> placeholders (appendLast t s) = placeholders t +:+ s.
Proof.
  induction t as [|[v x] t IH]; [contradiction |]. intros _.
  destruct t as [|p t].
  - cbn. now rewrite append_empty_r, append_assoc.
  - rewrite appendLast_cons by discriminate.
    cbn [placeholders]. rewrite IH by discriminate.
    cbn. now rewrite !append_assoc.
Qed.

Lemma text_addText q s : text (addText q s) = text q +:+ s.
Proof.
  rewrite !text_placeholders. destruct q as [h t]. destruct t as [|p t].
  - unfold addText. cbn. now rewrite !append_empty_r.
  - rewrite addText_nonempty by discriminate. cbn [head tail].
    rewrite placeholders_appendLast by discriminate.
    now rewrite append_assoc.
Qed.

Lemma text_splice q c : text (splice q c) = text q +:+ text c.
Proof.
  rewrite (text_placeholders (splice q c)), (text_placeholders c).
  unfold splice. cbn [head tail]. rewrite placeholders_app.
  rewrite <- append_assoc, <- text_placeholders.
  now rewrite text_addText, append_assoc.
Qed.

Lemma text_commaSeparated qs :
  text (commaSeparated qs) = Js.join "," (map text qs).
Proof.
  induction qs as [|q qs IH]; [reflexivity |].
  destruct qs as [|q' qs]; [reflexivity |].
  change (commaSeparated (q :: q' :: qs))
    with (splice q (splice (raw ",") (commaSeparated (q' :: qs)))).
  rewrite !text_splice, IH. reflexivity.
Qed.

Lemma values_commaSeparated qs :
  values (commaSeparated qs) = flat_map values qs.
Proof.
  induction qs as [|q qs IH]; [reflexivity |].
  destruct qs as [|q' qs].
  - simpl. now rewrite app_nil_r.
  - change (commaSeparated (q :: q' :: qs))
      with (splice q (splice (raw ",") (commaSeparated (q' :: qs)))).
    rewrite !values_splice, IH. reflexivity.
Qed.

(** A template made of nested statements and commas. *)
Lemma fold_fill_nested q qs : forall acc,
  fold_left fill
    (combine (map Nested (q :: qs))
       (repeat "," (length qs) ++ [EmptyString])) acc
  = splice acc (commaSeparated (q :: qs)).
Proof.
  revert q. induction qs as [|q' qs IH]; intros q acc.
  - cbn [map combine repeat length app fold_left fill commaSeparated].
    apply addText_empty.
  - change (fold_left fill
              (combine (map Nested (q' :: qs))
                 (repeat "," (length qs) ++ [EmptyString]))
              (fill acc (Nested q, ","))
            = splice acc (splice q (splice (raw ",")
                                      (commaSeparated (q' :: qs))))).
    rewrite IH. cbn [fill]. rewrite addText_raw.
    now rewrite !splice_assoc.
Qed.

Lemma join_nested q qs :
  join (map Nested (q :: qs)) = Ok (commaSeparated (q :: qs)).
Proof.
  unfold join. cbn [map]. f_equal. unfold sql.
  change (Nested q :: map Nested qs) with (map Nested (q :: qs)).
  rewrite length_map, fold_fill_nested.
  change {| head := EmptyString; tail := [] |} with empty.
  apply splice_empty_l.
Qed.

End SqlAlgebra.

(* ================================================================== *)
(** * The WHERE-clause compiler *)
(* ================================================================== *)

(** Case analysis on a comparison of [x] with the literal [lit]. *)
Ltac str_case x lit :=
  let E := fresh "E" in
  destruct (String.eqb_spec x lit) as [E|E];
  [ subst x | rewrite ?(proj2 (String.eqb_neq x lit) E) ].

(** Case analysis on every comparison with a literal in the goal. *)
Ltac str_cases :=
  repeat (cbn;
          match goal with
          | |- context [String.eqb ?x ?lit] => str_case x lit
          end).

Ltac calc :=
  cbn -[Prisma.sql Prisma.splice Prisma.join AdvancedIndexQuery.compare
       AdvancedIndexQuery.compareDate AdvancedIndexQuery.between].

Section WhereClause.
Context {host : Host}.
Import Prisma AdvancedFilters AdvancedIndexQuery.

Lemma compare_splice w field op v :
  compare w field op v = splice w (comparison field op v).
Proof. unfold compare. rewrite sql_nested_first. reflexivity. Qed.

Lemma compareDate_splice w field op v :
  compareDate w field op v = splice w (dateComparison field op v).
Proof. unfold compareDate. rewrite sql_nested_first. reflexivity. Qed.

Lemma between_splice w field lo hi :
  between w field lo hi = splice w (range field lo hi).
Proof. unfold between. rewrite sql_nested_first. reflexivity. Qed.

Lemma combine_map_bound (l : list Js.value) : forall ss : list string,
  combine (map Bound l) ss
  = map (fun p : Js.value * string => (Bound (fst p), snd p)) (combine l ss).
Proof.
  induction l as [|x l IHl]; intros [|s ss]; simpl; try reflexivity.
  now rewrite IHl.
Qed.

(** [Prisma.join] of a non-empty array of plain values: the values, each
    followed by a comma, the last by nothing. *)
Lemma join_bound e elems :
  join (map Bound (e :: elems)) = Ok (commaList (e :: elems)).
Proof.
  unfold join, commaList. cbn [map length Nat.sub]. rewrite Nat.sub_0_r.
  f_equal. unfold sql.
  change (Bound e :: map Bound elems) with (map Bound (e :: elems)).
  rewrite combine_map_bound, fold_fill_bound. now rewrite length_map.
Qed.

Lemma combine_appendLast (elems : list Js.value) (seps : list string) last s :
  length seps + 1 = length elems ->
  appendLast (combine elems (seps ++ [last])) s
  = combine elems (seps ++ [last +:+ s]).
Proof.
  revert seps. induction elems as [|e elems IH]; intros seps H.
  - simpl in H. lia.
  - destruct seps as [|x seps]; simpl in H.
    + destruct elems; [reflexivity | simpl in H; lia].
    + destruct elems as [|e' elems]; [simpl in H; lia |].
      change (appendLast ((e, x) :: combine (e' :: elems) (seps ++ [last])) s
              = (e, x) :: combine (e' :: elems) (seps ++ [last +:+ s])).
      rewrite appendLast_cons.
      * f_equal. apply (IH seps). simpl in *. lia.
      * destruct seps; discriminate.
Qed.

Lemma sql_raw_first s0 x s rest :
  sql s0 ((Nested (raw x), s) :: rest) = sql (s0 +:+ x +:+ s) rest.
Proof.
  unfold sql. cbn [fold_left]. f_equal.
  unfold fill, splice, addText. simpl. now rewrite append_assoc.
Qed.

Lemma membership_commaList field e elems :
  addText (splice (raw (" AND a." +:+ DQ +:+ field +:+ DQ +:+ " IN ("))
             (commaList (e :: elems))) ")"
  = membership field (e :: elems).
Proof.
  rewrite addText_splice.
  rewrite addText_nonempty by (destruct elems; discriminate).
  unfold commaList, membership. cbn [head tail length Nat.sub].
  rewrite Nat.sub_0_r.
  rewrite combine_appendLast by (rewrite repeat_length; simpl; lia).
  unfold splice, addText. cbn [head tail app raw].
  now rewrite append_empty_r.
Qed.

Lemma membership_splice w field e elems list :
  join (map Bound (e :: elems)) = Ok list ->
  sql EmptyString
    [ (Nested w, " AND a." +:+ DQ);
      (Nested (raw field), DQ +:+ " IN (");
      (Nested list, ")") ]
  = splice w (membership field (e :: elems)).
Proof.
  rewrite join_bound. intros H. assert (list = commaList (e :: elems)) as ->
    by congruence.
  rewrite sql_nested_first, sql_raw_first. f_equal.
  rewrite <- membership_commaList. unfold sql. cbn [fold_left fill].
  now rewrite !append_assoc.
Qed.

(** Each [add*Filter] splices the conjunct its type and operator choose,
    whatever the clause built so far. *)
Lemma addFilter_contribution w f :
  addFilter w f = contribute w (contributionOf f).
Proof.
  destruct f as [n t o v]. unfold addFilter, contributionOf, comparisons.
  cbn [name type operator value].
  str_case t "string".
  { calc. unfold addStringFilter.
    str_case o "is"; [calc; now rewrite compare_splice |].
    str_case o "isNot"; [calc; now rewrite compare_splice |].
    reflexivity. }
  str_case t "enum".
  { calc. unfold addEnumFilter.
    str_case o "is"; [calc; now rewrite compare_splice |].
    str_case o "isNot"; [calc; now rewrite compare_splice |].
    str_case o "in"; [| reflexivity].
    calc. destruct v as [| | | | |elems]; try reflexivity.
    destruct elems as [|e elems]; [reflexivity |].
    destruct (join (map Bound (e :: elems))) as [list|err] eqn:J.
    - calc. f_equal. now apply membership_splice.
    - rewrite join_bound in J. discriminate. }
  str_case t "text".
  { calc. unfold addTextFilter.
    str_case o "contains"; [calc; now rewrite compare_splice | reflexivity]. }
  str_case t "number".
  { calc. unfold addNumberFilter.
    str_case o "is"; [calc; now rewrite compare_splice |].
    str_case o "isNot"; [calc; now rewrite compare_splice |].
    str_case o "gt"; [calc; now rewrite compare_splice |].
    str_case o "lt"; [calc; now rewrite compare_splice |].
    str_case o "gte"; [calc; now rewrite compare_splice |].
    str_case o "lte"; [calc; now rewrite compare_splice |].
    str_case o "between"; [| reflexivity].
    calc. destruct v as [| | | | |[|lo [|hi [|x elems]]]]; try reflexivity.
    calc. now rewrite between_splice. }
  str_case t "boolean".
  { calc. unfold addBooleanFilter. now rewrite compare_splice. }
  str_case t "date".
  { calc. unfold addDateFilter.
    str_case o "is"; [calc; now rewrite compareDate_splice |].
    str_case o "isNot"; [calc; now rewrite compareDate_splice |].
    str_case o "before"; [calc; now rewrite compare_splice |].
    str_case o "after"; [calc; now rewrite compare_splice |].
    str_case o "between"; [| reflexivity].
    calc. destruct v as [| | | | |[|lo [|hi [|x elems]]]]; try reflexivity.
    calc. now rewrite between_splice. }
  reflexivity.
Qed.

Lemma contribution_opens f :
  match contributionOf f with
  | Adds c => opensWith " AND " (head c)
  | _ => True
  end.
Proof.
  unfold contributionOf.
  repeat match goal with
         | |- context [if ?b then _ else _] => destruct b
         | |- context [assoc ?k ?t] => destruct (assoc k t)
         | |- context [isPair ?v] => destruct (isPair v) as [[? ?]|]
         | |- context [match value f with _ => _ end] =>
             destruct (value f) as [| | | | |[|? ?]]
         end;
    try exact I; eexists; reflexivity.
Qed.

Lemma foldM_app {A B} (f : A -> B -> result A) (xs ys : list B) : forall a,
  foldM f a (xs ++ ys) = (a' <- foldM f a xs ;; foldM f a' ys).
Proof.
  induction xs as [|x xs IH]; intros a; simpl; [reflexivity |].
  destruct (f a x); simpl; [apply IH | reflexivity].
Qed.

(** The [if (search)] block adds the full-text conjunct exactly when the
    search text has a word. *)
Lemma addSearch_words w search :
  addSearch w search
  = match searchWords search with
    | [] => w
    | words =>
        splice (raw (NL +:+ spaces 8)) (splice w (searchConjunct words))
    end.
Proof.
  destruct search as [s|]; [| reflexivity].
  unfold addSearch, searchWords.
  destruct s as [|c s]; [reflexivity |].
  cbn [truthy]. set (words := filter truthy (splitWhite (trim (String c s)))).
  destruct words as [|word words]; [reflexivity |].
  cbn [length Nat.ltb Nat.leb].
  unfold sql. cbn [fold_left fill].
  change {| head := NL +:+ spaces 8; tail := [] |} with (raw (NL +:+ spaces 8)).
  rewrite addText_splice. unfold splice at 2. f_equal.
  rewrite addText_raw. unfold splice, searchConjunct. cbn [head tail raw].
  now rewrite app_nil_r.
Qed.


(** ** Raw text against bound parameters *)

Lemma map_snd_combine (l l' : list Js.value) : forall ss : list string,
  length l = length l' -> map snd (combine l ss) = map snd (combine l' ss).
Proof.
  revert l'. induction l as [|x l IH]; intros [|x' l'] ss H;
    try discriminate; [reflexivity |].
  destruct ss as [|s ss]; [reflexivity |]. simpl. f_equal.
  apply IH. now injection H.
Qed.

Lemma strings_membership field elems elems' :
  length elems = length elems' ->
  strings (membership field elems) = strings (membership field elems').
Proof.
  intros H. unfold strings, membership. cbn [head tail]. f_equal.
  rewrite H. now apply map_snd_combine.
Qed.

Lemma contribution_sameRawText f g :
  sameButValue f g ->
  match contributionOf f, contributionOf g with
  | Unchanged, Unchanged => True
  | Adds c, Adds c' => strings c = strings c'
  | Raises, Raises => True
  | _, _ => False
  end.
Proof.
  destruct f as [n t o v], g as [n' t' o' v']. unfold sameButValue.
  cbn [name type operator value]. intros (<- & <- & <- & Hs).
  unfold contributionOf. cbn [name type operator value].
  destruct (t === "boolean"); [reflexivity |].
  destruct (assoc o (comparisons t)); [reflexivity |].
  repeat match goal with
         | |- context [if ?b then _ else _] => destruct b
         end;
    try reflexivity.
  - destruct v as [| | | | |[|lo [|hi [|x l]]]];
      destruct v' as [| | | | |[|lo' [|hi' [|x' l']]]];
      try discriminate; reflexivity.
  - destruct v as [| | | | |[|e l]]; destruct v' as [| | | | |[|e' l']];
      try discriminate; try reflexivity.
    apply strings_membership. simpl in *. congruence.
Qed.

Lemma foldM_sameRawText fs gs :
  Forall2 sameButValue fs gs ->
  forall w w', strings w = strings w' ->
  sameRawText (foldM addFilter w fs) (foldM addFilter w' gs).
Proof.
  induction 1 as [|f g fs gs Hfg _ IH]; intros w w' Hw; [exact Hw |].
  cbn [foldM]. rewrite !addFilter_contribution.
  pose proof (contribution_sameRawText f g Hfg) as Hc.
  destruct (contributionOf f), (contributionOf g); try contradiction;
    cbn [contribute bind]; try exact I.
  - now apply IH.
  - apply IH. now apply strings_splice.
Qed.

Lemma contribution_values f :
  match contributionOf f with
  | Adds c => Forall (fromValue (value f)) (values c)
  | _ => True
  end.
Proof.
  unfold contributionOf.
  destruct (type f === "boolean");
    [repeat constructor |].
  destruct (assoc (operator f) (comparisons (type f)));
    [repeat constructor |].
  repeat match goal with
         | |- context [if ?b then _ else _] => destruct b
         end;
    try exact I; try (repeat constructor; fail).
  - destruct (value f) as [| | | | |[|lo [|hi [|x l]]]]; try exact I.
    cbn. constructor; [| constructor; [| constructor]];
      right; left; eexists; (split; [reflexivity | simpl; tauto]).
  - destruct (value f) as [| | | | |[|e l]] eqn:E; try exact I.
    unfold membership, values. cbn [tail].
    rewrite <- E. apply Forall_forall. intros x Hx.
    right; left. exists (e :: l). split; [exact E |].
    apply in_map_iff in Hx. destruct Hx as ([y s] & <- & Hin).
    now apply in_combine_l in Hin.
Qed.

Lemma contribution_names f :
  match contributionOf f with
  | Adds c => exists pre post, head c = pre +:+ quoted (name f) +:+ post
  | _ => True
  end.
Proof.
  unfold contributionOf.
  repeat match goal with
         | |- context [if ?b then _ else _] => destruct b
         | |- context [assoc ?k ?t] => destruct (assoc k t)
         | |- context [isPair ?v] => destruct (isPair v) as [[? ?]|]
         | |- context [match value f with _ => _ end] =>
             destruct (value f) as [| | | | |[|? ?]]
         end;
    try exact I;
    first [ solve [exists " AND a."; eexists; unfold quoted;
                   rewrite !append_assoc; reflexivity]
          | solve [exists " AND DATE(a."; eexists; unfold quoted;
                   rewrite !append_assoc; reflexivity] ].
Qed.

(** ** Operator cases *)

Lemma unhandled_unchanged f :
  type f <> "boolean" ->
  ~ In (operator f) (operatorCases (type f)) ->
  contributionOf f = Unchanged.
Proof.
  destruct f as [n t o v]. cbn [name type operator value]. intros Hb Hn.
  unfold contributionOf, comparisons. unfold operatorCases in Hn.
  cbn [name type operator value].
  str_cases; try reflexivity; try contradiction;
    exfalso; apply Hn; cbn;
    rewrite ?(proj2 (String.eqb_neq _ _)) by assumption; cbn; tauto.
Qed.

Lemma malformed_unchanged f :
  type f <> "boolean" -> malformed f -> contributionOf f = Unchanged.
Proof.
  intros Hb [Hn|[[Ho Hv]|(Ht & Ho & Hv)]].
  - now apply unhandled_unchanged.
  - destruct f as [n t o v]. cbn [name type operator value] in *. subst o.
    unfold contributionOf, comparisons. cbn [name type operator value].
    rewrite Hv. str_cases; try reflexivity; contradiction.
  - destruct f as [n t o v]. cbn [name type operator value] in *. subst t o.
    destruct v; try discriminate; reflexivity.
Qed.

Lemma contribution_templated f :
  match contributionOf f with
  | Adds c => templated f c
  | _ => True
  end.
Proof.
  unfold contributionOf.
  assert (Hself : fromValue (value f) (value f)) by now left.
  assert (Hlike : fromValue (value f)
                    (VStr ("%" +:+ toString (value f) +:+ "%")))
    by (right; now right).
  destruct (type f === "boolean");
    [left; eexists; eexists; split; [exact Hself | now left] |].
  destruct (assoc (operator f) (comparisons (type f)));
    [left; eexists; eexists; split; [exact Hself | now left] |].
  repeat match goal with
         | |- context [if ?b then _ else _] => destruct b
         end;
    try exact I.
  - left; eexists; eexists; split; [exact Hself | now right].
  - left; eexists; eexists; split; [exact Hself | now right].
  - left; eexists; eexists; split; [exact Hlike | now left].
  - clear Hself Hlike.
    destruct (value f) as [| | | | |[|lo [|hi [|x l]]]] eqn:E; try exact I.
    right; left. now exists lo, hi.
  - clear Hself Hlike.
    destruct (value f) as [| | | | |[|e l]] eqn:E; try exact I.
    right; right. now exists (e :: l).
Qed.

Lemma contribution_raises f :
  contributionOf f = Raises ->
  type f = "enum" /\ operator f = "in" /\ value f = VArr [].
Proof.
  destruct f as [n t o v]. unfold contributionOf, comparisons.
  cbn [name type operator value].
  str_cases; try discriminate.
  - destruct v as [| | | | |[|e l]]; try discriminate. tauto.
  - destruct v as [| | | | |[|lo [|hi [|x l]]]]; discriminate.
  - destruct v as [| | | | |[|lo [|hi [|x l]]]]; discriminate.
Qed.

(** A filter that contributes nothing can be dropped from the list. *)
Lemma generateWhereClause_drop org search fs f gs :
  contributionOf f = Unchanged ->
  generateWhereClause org search (fs ++ f :: gs)
  = generateWhereClause org search (fs ++ gs).
Proof.
  intros H. unfold generateWhereClause. rewrite !foldM_app.
  destruct (foldM addFilter _ fs) as [w|e]; [| reflexivity].
  cbn [bind foldM]. now rewrite addFilter_contribution, H.
Qed.

(** C1 (amended).  Of what a filter supplies, the value enters the
    generated [Prisma.Sql] only as bound parameters: two calls whose
    filters differ at most in the content of their values (and whose
    organizations and search words differ) produce the same raw SQL
    text, and every parameter a filter binds is its value, an element of
    its value or the [ILIKE] pattern made of its value.  The field name
    is not bound: [Prisma.raw] splices it, between double quotes, into
    the raw text of the conjunct. *)
Theorem filter_values_bound_names_spliced :
  (forall org org' search search' fs gs,
     (searchWords search = [] <-> searchWords search' = []) ->
     Forall2 sameButValue fs gs ->
     sameRawText (generateWhereClause org search fs)
       (generateWhereClause org' search' gs))
  /\ (forall w f, addFilter w f = contribute w (contributionOf f))
  /\ (forall f,
        match contributionOf f with
        | Adds c =>
            Forall (fromValue (value f)) (values c)
            /\ exists pre post, head c = pre +:+ quoted (name f) +:+ post
        | _ => True
        end).
Proof.
  split; [| split].
  - intros org org' search search' fs gs Hs Hfg.
    unfold generateWhereClause. apply foldM_sameRawText; [exact Hfg |].
    rewrite !addSearch_words.
    destruct (searchWords search) as [|x xs];
      destruct (searchWords search') as [|y ys]; try reflexivity.
    + exfalso. now assert ((y :: ys) = []) by now apply Hs.
    + exfalso. now assert ((x :: xs) = []) by now apply Hs.
  - apply addFilter_contribution.
  - intros f. pose proof (contribution_values f) as Hv.
    pose proof (contribution_names f) as Hn.
    destruct (contributionOf f); auto.
Qed.

(** C7 (amended).  Each filter type is compiled by its own function with
    fewer than twelve operator cases, the default included.  An
    operator outside the cases of a type with a [switch] leaves the
    clause unchanged, and every call leaves the clause unchanged or
    splices one conjunct, templated from the filter and opening with
    [ AND ], behind it; the one exception is the [in] case of an enum
    filter on an empty array, where [Prisma.join] raises a [TypeError]. *)
Theorem add_filter_cases :
  (forall ty, In ty handledTypes -> length (operatorCases ty) + 1 < 12)
  /\ (forall w n o v,
        addFilter w (mkFilter n "string" o v) = Ok (addStringFilter w n o v)
        /\ addFilter w (mkFilter n "enum" o v) = addEnumFilter w n o v
        /\ addFilter w (mkFilter n "text" o v) = Ok (addTextFilter w n o v)
        /\ addFilter w (mkFilter n "number" o v) = Ok (addNumberFilter w n o v)
        /\ addFilter w (mkFilter n "boolean" o v) = Ok (addBooleanFilter w n v)
        /\ addFilter w (mkFilter n "date" o v) = Ok (addDateFilter w n o v))
  /\ (forall w f,
        type f <> "boolean" ->
        ~ In (operator f) (operatorCases (type f)) ->
        addFilter w f = Ok w)
  /\ (forall w f,
        addFilter w f = Ok w
        \/ (exists c,
              templated f c /\ opensWith " AND " (head c)
              /\ addFilter w f = Ok (splice w c))
        \/ (type f = "enum" /\ operator f = "in" /\ value f = VArr []
            /\ addFilter w f = Throw TypeError)).
Proof.
  split; [| split; [| split]].
  - intros ty H. simpl in H.
    repeat (destruct H as [<-|H]; [cbn; lia |]). contradiction.
  - intros w n o v. repeat split.
  - intros w f Hb Hn. rewrite addFilter_contribution.
    now rewrite unhandled_unchanged.
  - intros w f. rewrite addFilter_contribution.
    pose proof (contribution_templated f) as Ht.
    pose proof (contribution_opens f) as Ho.
    pose proof (contribution_raises f) as Hr.
    destruct (contributionOf f) as [|c|].
    + now left.
    + right; left. now exists c.
    + right; right. destruct Hr as (? & ? & ?); [reflexivity | tauto].
Qed.

(** C10 (amended).  A malformed or unrecognized filter of a type other
    than boolean leaves the WHERE clause unchanged: when its operator is
    none of the cases of its type, or its [between] value is not an array
    of two elements, or it is an enum filter whose [in] value is not an
    array, [generateWhereClause] returns what it returns with that filter
    removed.  The compiler is a pure function: there is no warning. *)
Theorem malformed_filter_ignored org search fs f gs :
  type f <> "boolean" ->
  malformed f ->
  generateWhereClause org search (fs ++ f :: gs)
  = generateWhereClause org search (fs ++ gs).
Proof.
  intros Hb Hm. apply generateWhereClause_drop.
  now apply malformed_unchanged.
Qed.

End WhereClause.

(** A witness for C1: two [is] filters on [id] with different values. *)
Lemma filter_values_bound_names_spliced_witness :
  (searchWords (Some "pump") = [] <-> searchWords (Some "drill") = [])
  /\ Forall2 sameButValue
       [AdvancedFilters.mkFilter "id" "string" "is" (VStr "a")]
       [AdvancedFilters.mkFilter "id" "string" "is" (VStr "b")]
  /\ sameRawText
       (AdvancedIndexQuery.generateWhereClause "org1" (Some "pump")
          [AdvancedFilters.mkFilter "id" "string" "is" (VStr "a")])
       (AdvancedIndexQuery.generateWhereClause "org2" (Some "drill")
          [AdvancedFilters.mkFilter "id" "string" "is" (VStr "b")]).
Proof.
  assert (Hs : searchWords (Some "pump") = []
               <-> searchWords (Some "drill") = [])
    by (split; discriminate).
  assert (Hf : Forall2 sameButValue
                 [AdvancedFilters.mkFilter "id" "string" "is" (VStr "a")]
                 [AdvancedFilters.mkFilter "id" "string" "is" (VStr "b")])
    by (repeat constructor).
  split; [exact Hs | split; [exact Hf |]].
  exact (proj1 filter_values_bound_names_spliced
           "org1" "org2" (Some "pump") (Some "drill") _ _ Hs Hf).
Defined.

(** The counterexample to C1 as stated: the field name of a filter is
    part of the raw SQL text and is not among the bound parameters. *)
Lemma field_name_in_raw_text :
  let field := "id" +:+ DQ +:+ " IS NOT NULL OR a." +:+ DQ +:+ "id" in
  exists q,
    AdvancedIndexQuery.generateWhereClause "org1" None
      [AdvancedFilters.mkFilter field "string" "is" (VStr "x")] = Ok q
    /\ Prisma.strings q
       = [ "WHERE a." +:+ quoted "organizationId" +:+ " = ";
           " AND a." +:+ quoted "id" +:+ " IS NOT NULL OR a."
           +:+ quoted "id" +:+ " = ";
           EmptyString ]
    /\ Prisma.values q = [VStr "org1"; VStr "x"].
Proof. eexists. repeat split. Qed.

(** A witness for C7: [contains] is no case of a number filter. *)
Lemma add_filter_cases_witness :
  AdvancedFilters.type
    (AdvancedFilters.mkFilter "valuation" "number" "contains" (VStr "1"))
  <> "boolean"
  /\ ~ In "contains" (operatorCases "number")
  /\ AdvancedIndexQuery.addFilter (AdvancedIndexQuery.organizationClause "org1")
       (AdvancedFilters.mkFilter "valuation" "number" "contains" (VStr "1"))
     = Ok (AdvancedIndexQuery.organizationClause "org1").
Proof.
  assert (Hb : AdvancedFilters.type
                 (AdvancedFilters.mkFilter "valuation" "number" "contains"
                    (VStr "1")) <> "boolean") by discriminate.
  assert (Hn : ~ In "contains" (operatorCases "number"))
    by (cbn; intuition discriminate).
  split; [exact Hb | split; [exact Hn |]].
  exact (proj1 (proj2 (proj2 add_filter_cases)) _ _ Hb Hn).
Defined.

(** The counterexample to C7 as stated: on an empty array the [in] case
    of an enum filter neither appends a conjunct nor leaves the clause
    unchanged. *)
Lemma enum_in_empty_array_raises :
  let w := AdvancedIndexQuery.organizationClause "org1" in
  let f := AdvancedFilters.mkFilter "status" "enum" "in" (VArr []) in
  AdvancedIndexQuery.addEnumFilter w "status" "in" (VArr []) = Throw TypeError
  /\ ~ (AdvancedIndexQuery.addFilter w f = Ok w
        \/ exists c, AdvancedIndexQuery.addFilter w f = Ok (Prisma.splice w c)).
Proof.
  split; [reflexivity |]. intros [H|[c H]]; discriminate.
Qed.

(** A witness for C10: a number filter with the operator [contains]. *)
Lemma malformed_filter_ignored_witness :
  AdvancedFilters.type
    (AdvancedFilters.mkFilter "valuation" "number" "contains" (VStr "1"))
  <> "boolean"
  /\ malformed
       (AdvancedFilters.mkFilter "valuation" "number" "contains" (VStr "1"))
  /\ AdvancedIndexQuery.generateWhereClause "org1" None
       ([AdvancedFilters.mkFilter "id" "string" "is" (VStr "a")]
        ++ AdvancedFilters.mkFilter "valuation" "number" "contains" (VStr "1")
           :: [])
     = AdvancedIndexQuery.generateWhereClause "org1" None
         ([AdvancedFilters.mkFilter "id" "string" "is" (VStr "a")] ++ []).
Proof.
  assert (Hb : AdvancedFilters.type
                 (AdvancedFilters.mkFilter "valuation" "number" "contains"
                    (VStr "1")) <> "boolean") by discriminate.
  assert (Hm : malformed
                 (AdvancedFilters.mkFilter "valuation" "number" "contains"
                    (VStr "1")))
    by (left; cbn; intuition discriminate).
  split; [exact Hb | split; [exact Hm |]].
  exact (malformed_filter_ignored "org1" None _ _ [] Hb Hm).
Defined.

(** The counterexample to C10 as stated: a boolean filter is compiled
    whatever its operator, so one whose operator is [between] and whose
    value is no array of two elements still changes the clause. *)
Lemma boolean_filter_never_ignored :
  let f := AdvancedFilters.mkFilter "availableToBook" "boolean" "between"
             (VBool true) in
  malformed f
  /\ AdvancedIndexQuery.generateWhereClause "org1" None [f]
     <> AdvancedIndexQuery.generateWhereClause "org1" None []
  /\ AdvancedIndexQuery.generateWhereClause "org1" None [f]
     = Ok (Prisma.splice (AdvancedIndexQuery.organizationClause "org1")
             (comparison "availableToBook" "=" (VBool true))).
Proof.
  repeat split; [| discriminate].
  right; left. split; reflexivity.
Qed.

(* ================================================================== *)
(** * The sort compiler *)
(* ================================================================== *)

Section SortCompiler.
Import AdvancedIndexQuery.

(** The loop only ever appends to its three lists. *)
Lemma sortStep_appends st field :
  sortStep st field
  = mkSortState
      (orderByParts st ++ orderByParts (sortStep noSorting field))
      (cfSortings st ++ cfSortings (sortStep noSorting field))
      (console st ++ console (sortStep noSorting field)).
Proof.
  destruct st as [parts sorts out]. unfold sortStep, pushPart.
  cbn [orderByParts cfSortings console app].
  destruct (lookupIn (fieldName field));
    repeat match goal with
           | |- context [if ?b then _ else _] => destruct b
           end;
    cbn [orderByParts cfSortings console app]; now rewrite ?app_nil_r.
Qed.

Lemma fold_sortStep fields : forall st,
  fold_left sortStep fields st
  = mkSortState
      (orderByParts st
         ++ flat_map (fun f => orderByParts (sortStep noSorting f)) fields)
      (cfSortings st
         ++ flat_map (fun f => cfSortings (sortStep noSorting f)) fields)
      (console st
         ++ flat_map (fun f => console (sortStep noSorting f)) fields).
Proof.
  induction fields as [|f fields IH]; intros st.
  - simpl. rewrite !app_nil_r. now destruct st.
  - cbn [fold_left flat_map]. rewrite IH, sortStep_appends.
    cbn [orderByParts cfSortings console]. now rewrite <- !app_assoc.
Qed.

Lemma flat_map_after_map {A B C} (f : A -> B) (g : B -> list C) l :
  flat_map g (map f l) = flat_map (fun x => g (f x)) l.
Proof. induction l as [|x l IH]; simpl; [reflexivity | now rewrite IH]. Qed.

Lemma sortLoop_entries sortBy :
  sortLoop sortBy
  = mkSortState (flat_map entryParts sortBy)
      (flat_map entrySortings sortBy)
      (flat_map entryWarnings sortBy).
Proof.
  unfold sortLoop. rewrite fold_sortStep. cbn [orderByParts cfSortings console app].
  now rewrite !flat_map_after_map.
Qed.

Lemma parseSortingOptions_entries sortBy :
  parseSortingOptions sortBy
  = mkSortingOptions (orderBy (flat_map entryParts sortBy))
      (flat_map entrySortings sortBy)
      (flat_map entryWarnings sortBy).
Proof.
  unfold parseSortingOptions. rewrite sortLoop_entries.
  cbn [orderByParts cfSortings console].
  now destruct (flat_map entryParts sortBy).
Qed.

Lemma assoc_absent key table :
  existsb (String.eqb key) (map fst table) = false -> assoc key table = None.
Proof.
  induction table as [|[k v] table IH]; [reflexivity |].
  cbn [map fst existsb assoc]. intros H.
  apply orb_false_iff in H. destruct H as [-> H]. now apply IH.
Qed.

Lemma parseSortField_split s name dir rest :
  split ":" s = name :: dir :: rest ->
  parseSortField s = mkSortField name (Some dir) (nth_error rest 0).
Proof. intros H. unfold parseSortField. now rewrite H. Qed.

(** An entry whose name is none of the known ones and is not inherited
    from [Object.prototype] reaches the final [else]. *)
Lemma unknown_entry s :
  knownSortName (beforeFirst ":" s) = false ->
  inheritedName (beforeFirst ":" s) = false ->
  entryState s
  = mkSortState [] [] ["Unknown sort field: " +:+ beforeFirst ":" s].
Proof.
  unfold knownSortName, inheritedName, entryState, parseSortField.
  rewrite hd_split. set (n := beforeFirst ":" s). intros Hk Hi.
  apply orb_false_iff in Hk. destruct Hk as [Hk Hcf].
  rewrite existsb_app in Hk. apply orb_false_iff in Hk.
  destruct Hk as [Hd Hr].
  unfold sortStep, lookupIn. cbn [fieldName].
  rewrite (assoc_absent _ _ Hd), (assoc_absent _ _ Hi).
  cbn in Hr. repeat (apply orb_false_iff in Hr; destruct Hr as [-> Hr]).
  now rewrite Hcf.
Qed.

(** C6.  The ORDER BY clause is empty when no entry produced a part and
    otherwise [ORDER BY ] followed by the parts, joined by [, ], in the
    order of the entries.  An entry [name:direction:...] whose name is
    one of the seven direct asset fields contributes the aliased column
    of the table, double-quoted, and the direction; the names [kit],
    [category], [location] and [custody] contribute ["kitName"],
    ["categoryName"], ["locationName"] and [custody->>'name']. *)
Theorem order_by_normal_columns :
  (forall sortBy,
     orderByClause (parseSortingOptions sortBy)
     = orderBy (flat_map entryParts sortBy))
  /\ (forall s name dir rest column,
        split ":" s = name :: dir :: rest ->
        assoc name directAssetFields = Some column ->
        entryParts s = [quoted column +:+ " " +:+ dir])
  /\ (forall s name dir rest column,
        split ":" s = name :: dir :: rest ->
        assoc name relationColumns = Some column ->
        entryParts s = [column +:+ " " +:+ dir])
  /\ map fst directAssetFields
     = ["id"; "name"; "valuation"; "status"; "description"; "createdAt";
        "availableToBook"]
  /\ assoc "name" directAssetFields = Some "assetTitle"
  /\ assoc "valuation" directAssetFields = Some "assetValue".
Proof.
  split; [| split; [| split; [| repeat split]]].
  - intros sortBy. now rewrite parseSortingOptions_entries.
  - intros s name dir rest column Hs Ha.
    unfold entryParts, entryState. rewrite (parseSortField_split _ _ _ _ Hs).
    unfold sortStep, lookupIn. cbn [fieldName direction]. now rewrite Ha.
  - intros s name dir rest column Hs Ha.
    unfold entryParts, entryState. rewrite (parseSortField_split _ _ _ _ Hs).
    unfold relationColumns in Ha. cbn [assoc] in Ha.
    revert Ha.
    str_case name "kit"; [intros [= <-]; reflexivity |].
    str_case name "category"; [intros [= <-]; reflexivity |].
    str_case name "location"; [intros [= <-]; reflexivity |].
    str_case name "custody"; [intros [= <-]; reflexivity |].
    discriminate.
Qed.

(** The loop on an entry [cf_X:dir:ftype]. *)
Lemma custom_field_entry X dir ftype :
  without ":" X = true -> without ":" dir = true ->
  without ":" ftype = true ->
  entryState ("cf_" +:+ X +:+ ":" +:+ dir +:+ ":" +:+ ftype)
  = mkSortState [customFieldAlias X +:+ " " +:+ dir]
      [mkCustomFieldSorting X "raw" (customFieldAlias X) (Some ftype)]
      [].
Proof.
  intros HX Hd Hf. unfold entryState, parseSortField.
  change ("cf_" +:+ X +:+ ":" +:+ dir +:+ ":" +:+ ftype)
    with (("cf_" +:+ X) +:+ String ":" (dir +:+ String ":" ftype)).
  rewrite split_app by exact HX.
  rewrite split_app by exact Hd.
  rewrite split_without by exact Hf.
  unfold sortStep, lookupIn, startsWith. cbn -[replaceWhite prefix].
  change (prefix "cf_" (String "c" (String "f" (String "_" X))))
    with (prefix EmptyString X).
  now destruct X.
Qed.

(** An unknown name that [directAssetFields] does not inherit either is
    warned about and ignored. *)
Lemma unknown_sort_field_ignored before s after :
  knownSortName (beforeFirst ":" s) = false ->
  inheritedName (beforeFirst ":" s) = false ->
  orderByClause (parseSortingOptions (before ++ s :: after))
  = orderByClause (parseSortingOptions (before ++ after))
  /\ customFieldSortings (parseSortingOptions (before ++ s :: after))
     = customFieldSortings (parseSortingOptions (before ++ after))
  /\ warnings (parseSortingOptions (before ++ s :: after))
     = warnings (parseSortingOptions before)
         ++ ["Unknown sort field: " +:+ beforeFirst ":" s]
         ++ warnings (parseSortingOptions after).
Proof.
  intros Hk Hi. rewrite !parseSortingOptions_entries.
  cbn [orderByClause customFieldSortings warnings].
  rewrite !flat_map_app. cbn [flat_map].
  unfold entryParts, entrySortings, entryWarnings.
  rewrite (unknown_entry s Hk Hi). cbn [orderByParts cfSortings console].
  repeat split.
Qed.

(** C2, at the failing input.  The name [toString] is none of the names
    the compiler is written for, yet [toString in directAssetFields]
    holds through the prototype chain: the entry is compiled into an
    ORDER BY part and no warning is printed, so the result differs from
    the result for the list without that entry. *)
Theorem inherited_name_not_warned :
  knownSortName "toString" = false
  /\ parseSortingOptions ["name:asc"; "toString:desc"]
     = mkSortingOptions
         ("ORDER BY " +:+ quoted "assetTitle" +:+ " asc, "
          +:+ quoted "function toString() { [native code] }" +:+ " desc")
         [] []
  /\ parseSortingOptions ["name:asc"]
     = mkSortingOptions ("ORDER BY " +:+ quoted "assetTitle" +:+ " asc")
         [] [].
Proof. repeat split. Qed.

End SortCompiler.

(** A witness for C6: sorting by title, then by custodian. *)
Lemma order_by_normal_columns_witness :
  split ":" "name:asc" = ["name"; "asc"]
  /\ AdvancedIndexQuery.assoc "name" AdvancedIndexQuery.directAssetFields
     = Some "assetTitle"
  /\ entryParts "name:asc" = [quoted "assetTitle" +:+ " asc"]
  /\ AdvancedIndexQuery.orderByClause
       (AdvancedIndexQuery.parseSortingOptions ["name:asc"; "custody:desc"])
     = "ORDER BY " +:+ quoted "assetTitle" +:+ " asc, custody->>'name' desc".
Proof.
  split; [reflexivity | split; [reflexivity | split]].
  - exact (proj1 (proj2 order_by_normal_columns)
             "name:asc" "name" "asc" [] "assetTitle" eq_refl eq_refl).
  - rewrite (proj1 order_by_normal_columns). reflexivity.
Defined.

Section CustomFieldSelect.
Context {host : Host}.
Import Prisma AdvancedIndexQuery.

Lemma text_customFieldSubquery cf :
  text (customFieldSubquery cf) = subqueryText (alias cf).
Proof.
  unfold customFieldSubquery, sql. cbn [fold_left fill].
  rewrite addText_empty, text_splice. reflexivity.
Qed.

Lemma values_customFieldSubquery cf :
  values (customFieldSubquery cf) = subqueryValues cf.
Proof.
  unfold customFieldSubquery, sql. cbn [fold_left fill].
  rewrite addText_empty, values_splice. reflexivity.
Qed.

Lemma generateCustomFieldSelect_nonempty cf cfs :
  generateCustomFieldSelect (cf :: cfs)
  = Ok (splice (raw ", ")
          (commaSeparated (map customFieldSubquery (cf :: cfs)))).
Proof.
  unfold generateCustomFieldSelect. cbn [length Nat.eqb].
  rewrite <- (map_map customFieldSubquery Nested).
  change (map customFieldSubquery (cf :: cfs))
    with (customFieldSubquery cf :: map customFieldSubquery cfs).
  rewrite join_nested. cbn [bind]. f_equal.
  unfold sql. cbn [fold_left fill].
  change {| head := ", "; tail := [] |} with (raw ", ").
  apply addText_empty.
Qed.

(** C5.  An entry [cf_X:dir:ftype] makes [parseSortingOptions] append
    the custom-field sorting [{name: X, valueKey: "raw", alias,
    fieldType: ftype}], where [alias] is [cf_] followed by [X] with each
    run of white space replaced by [_], and the ORDER BY part
    [alias dir].  [generateCustomFieldSelect] returns [Prisma.empty]
    exactly when the list of sortings is empty; otherwise it returns
    [, ] followed by one correlated subquery per sorting, separated by
    commas, each selected under its sorting's alias and binding the
    field type its [CASE] switches on (DATE, NUMBER, BOOLEAN, else the
    raw value) and the name of the custom field. *)
Theorem custom_field_sorting :
  (forall before after X dir ftype,
     without ":" X = true -> without ":" dir = true ->
     without ":" ftype = true ->
     let entry := "cf_" +:+ X +:+ ":" +:+ dir +:+ ":" +:+ ftype in
     let alias := "cf_" +:+ replaceWhite "_" X in
     customFieldSortings (parseSortingOptions (before ++ entry :: after))
     = customFieldSortings (parseSortingOptions before)
         ++ [mkCustomFieldSorting X "raw" alias (Some ftype)]
         ++ customFieldSortings (parseSortingOptions after)
     /\ orderByClause (parseSortingOptions (before ++ entry :: after))
        = orderBy (flat_map entryParts before
                     ++ [alias +:+ " " +:+ dir]
                     ++ flat_map entryParts after)
     /\ warnings (parseSortingOptions (before ++ entry :: after))
        = warnings (parseSortingOptions before)
            ++ warnings (parseSortingOptions after))
  /\ (forall cfs, generateCustomFieldSelect cfs = Ok empty <-> cfs = [])
  /\ (forall cfs,
        cfs <> [] ->
        exists q,
          generateCustomFieldSelect cfs = Ok q
          /\ text q
             = ", " +:+ Js.join ","
                          (map (fun cf => subqueryText (alias cf)) cfs)
          /\ values q = flat_map subqueryValues cfs).
Proof.
  split; [| split].
  - intros before after X dir ftype HX Hd Hf entry alias0.
    rewrite !parseSortingOptions_entries.
    cbn [customFieldSortings orderByClause warnings].
    rewrite !flat_map_app. cbn [flat_map].
    unfold entryParts at 2, entrySortings at 2, entryWarnings at 2.
    subst entry. rewrite (custom_field_entry X dir ftype HX Hd Hf).
    cbn [orderByParts cfSortings console]. repeat split.
  - intros [|cf cfs]; [now split |].
    rewrite generateCustomFieldSelect_nonempty.
    split; [| discriminate]. intros H. exfalso.
    apply (f_equal (fun r => match r with
                             | Ok q => text q
                             | Throw _ => EmptyString
                             end)) in H.
    rewrite text_splice in H. discriminate.
  - intros [|cf cfs] Hne; [contradiction |].
    eexists. split; [apply generateCustomFieldSelect_nonempty |].
    split.
    + rewrite text_splice, text_commaSeparated, map_map.
      rewrite (map_ext _ (fun cf => subqueryText (alias cf))
                 text_customFieldSubquery).
      reflexivity.
    + rewrite values_splice, values_commaSeparated.
      now rewrite flat_map_after_map.
Qed.

End CustomFieldSelect.

(** A witness for C5: sorting by the custom field [Serial  No]. *)
Lemma custom_field_sorting_witness :
  without ":" "Serial  No" = true /\ without ":" "desc" = true
  /\ without ":" "TEXT" = true
  /\ AdvancedIndexQuery.customFieldSortings
       (AdvancedIndexQuery.parseSortingOptions
          (["name:asc"] ++ ["cf_Serial  No:desc:TEXT"]))
     = [AdvancedIndexQuery.mkCustomFieldSorting "Serial  No" "raw"
          "cf_Serial_No" (Some "TEXT")]
  /\ AdvancedIndexQuery.orderByClause
       (AdvancedIndexQuery.parseSortingOptions
          (["name:asc"] ++ ["cf_Serial  No:desc:TEXT"]))
     = "ORDER BY " +:+ quoted "assetTitle" +:+ " asc, cf_Serial_No desc"
  /\ [AdvancedIndexQuery.mkCustomFieldSorting "Serial  No" "raw"
        "cf_Serial_No" (Some "TEXT")] <> []
  /\ exists q,
       AdvancedIndexQuery.generateCustomFieldSelect
         [AdvancedIndexQuery.mkCustomFieldSorting "Serial  No" "raw"
            "cf_Serial_No" (Some "TEXT")] = Ok q
       /\ Prisma.text q = ", " +:+ subqueryText "cf_Serial_No"
       /\ Prisma.values q = [VStr "TEXT"; VStr "Serial  No"].
Proof.
  assert (Hne : [AdvancedIndexQuery.mkCustomFieldSorting "Serial  No" "raw"
                   "cf_Serial_No" (Some "TEXT")] <> []) by discriminate.
  pose proof (proj1 custom_field_sorting ["name:asc"] [] "Serial  No" "desc"
                "TEXT" eq_refl eq_refl eq_refl) as (Hs & Ho & _).
  split; [reflexivity | split; [reflexivity | split; [reflexivity |]]].
  split; [exact Hs | split; [exact Ho | split; [exact Hne |]]].
  exact (proj2 (proj2 custom_field_sorting) _ Hne).
Defined.

(* ================================================================== *)
(** * The filter parser *)
(* ================================================================== *)

Section FilterParser.
Context {host : Host}.
Import AdvancedFilters AssetUtils.

Lemma getFilterFieldType_table key :
  getFilterFieldType key = fieldTypeOf key.
Proof.
  unfold getFilterFieldType, fieldTypeOf, fieldTypes.
  cbn [AdvancedIndexQuery.assoc]. str_cases; reflexivity.
Qed.

Lemma pushFilter_parseParam filters param :
  pushFilter filters param
  = (f <- parseParam param ;; Ok (filters ++ [f])).
Proof.
  destruct param as [key v].
  unfold pushFilter, parseParam, operatorOf, valueTextOf.
  rewrite hd_split, nth_error_split_1.
  now destruct (parseFilterValue key _ _).
Qed.

Lemma foldM_pushFilter params : forall acc,
  foldM pushFilter acc params
  = (fs <- mapM parseParam params ;; Ok (acc ++ fs)).
Proof.
  induction params as [|p params IH]; intros acc.
  - simpl. now rewrite app_nil_r.
  - cbn [foldM mapM]. rewrite pushFilter_parseParam.
    destruct (parseParam p) as [f|e]; [| reflexivity].
    cbn [bind]. rewrite IH.
    destruct (mapM parseParam params) as [fs|e]; [| reflexivity].
    cbn [bind]. now rewrite <- app_assoc.
Qed.

(** [parseFilters] decodes the parameters one by one, in order, and
    raises as soon as one of them does. *)
Lemma parseFilters_mapM filtersString :
  parseFilters filtersString
  = mapM parseParam (URLSearchParams filtersString).
Proof.
  unfold parseFilters. rewrite foldM_pushFilter.
  now destruct (mapM parseParam _).
Qed.

Lemma mapM_total {A B} (f : A -> result B) (g : A -> B) l :
  Forall (fun x => f x = Ok (g x)) l -> mapM f l = Ok (map g l).
Proof.
  induction 1 as [|x l Hx _ IH]; [reflexivity |].
  cbn [mapM map]. now rewrite Hx, IH.
Qed.

Lemma mapM_raises {A B} (f : A -> result B) l x :
  In x l -> throws (f x) -> mapM f l = Throw TypeError.
Proof.
  induction l as [|y l IH]; [contradiction |].
  intros [->|Hin] Hx; cbn [mapM].
  - destruct Hx as [[] ->]. reflexivity.
  - destruct (f y) as [b|[]]; [| reflexivity].
    cbn [bind]. now rewrite IH.
Qed.

Lemma mapM_raises_inv {A B} (f : A -> result B) l e :
  mapM f l = Throw e -> exists x, In x l /\ throws (f x).
Proof.
  induction l as [|y l IH]; [discriminate |].
  cbn [mapM]. destruct (f y) as [b|e'] eqn:E.
  - cbn [bind]. destruct (mapM f l) as [bs|e'']; [discriminate |].
    intros H. destruct (IH H) as (x & Hin & Hx).
    exists x. split; [now right | exact Hx].
  - intros _. exists y. split; [now left | now exists e'].
Qed.

Lemma valueTextOf_none v : valueTextOf v = None <-> without ":" v = true.
Proof.
  unfold valueTextOf. rewrite afterFirst_without.
  destruct (afterFirst ":" v); simpl; split; congruence.
Qed.

Lemma parseFilterValue_text key operator text :
  parseFilterValue key operator (Some text)
  = Ok (filterValueOf key operator text).
Proof.
  unfold parseFilterValue, filterValueOf. str_cases; reflexivity.
Qed.

Lemma parseParam_colon key v :
  without ":" v = false -> parseParam (key, v) = Ok (filterOf (key, v)).
Proof.
  intros H. unfold parseParam, filterOf.
  destruct (valueTextOf v) as [text|] eqn:E.
  - rewrite parseFilterValue_text. cbn [bind].
    now rewrite getFilterFieldType_table.
  - apply valueTextOf_none in E. congruence.
Qed.

Lemma parseParam_raises key v :
  throws (parseParam (key, v)) ->
  In key parsedFields /\ without ":" v = true.
Proof.
  intros [e H]. destruct (without ":" v) eqn:W.
  - split; [| reflexivity]. apply valueTextOf_none in W.
    unfold parseParam in H. rewrite W in H.
    unfold parseFilterValue, parsedFields in *. revert H.
    str_cases; try discriminate; intros _; simpl; tauto.
  - rewrite parseParam_colon in H by exact W. discriminate.
Qed.

Lemma parseParam_truncates key a b c :
  without ":" a = true -> without ":" b = true ->
  parseParam (key, a +:+ ":" +:+ b +:+ ":" +:+ c)
  = Ok (mkFilter key (getFilterFieldType key) a (filterValueOf key a b))
  /\ parseParam (key, a +:+ ":" +:+ b)
     = Ok (mkFilter key (getFilterFieldType key) a (filterValueOf key a b)).
Proof.
  intros Ha Hb. unfold parseParam, operatorOf, valueTextOf.
  change (a +:+ ":" +:+ b +:+ ":" +:+ c)
    with (a +:+ String ":" (b +:+ String ":" c)).
  change (a +:+ ":" +:+ b) with (a +:+ String ":" b).
  rewrite !beforeFirst_app, !afterFirst_app by exact Ha.
  cbn [option_map]. rewrite beforeFirst_app by exact Hb.
  rewrite beforeFirst_all by exact Hb.
  now rewrite parseFilterValue_text.
Qed.

(** C4 (amended).  For every filters string each of whose parameter
    values holds a [:], [parseFilters] returns one filter per parameter,
    in order: its name is the key, its operator the text before the
    first [:], its type the one the fixed table gives the key ([string]
    for a key outside the table), and its value is parsed per field from
    the text between the first and the second [:]: [valuation] as a
    number, or as the list of numbers between commas under [between];
    [availableToBook] as the test [toLowerCase() === "true"];
    [createdAt] split at commas under [between], [status] under [in];
    the text itself otherwise. *)
Theorem parseFilters_records :
  (forall key, getFilterFieldType key = fieldTypeOf key)
  /\ (forall filtersString,
        Forall (fun param => without ":" (snd param) = false)
          (URLSearchParams filtersString) ->
        parseFilters filtersString
        = Ok (map filterOf (URLSearchParams filtersString))).
Proof.
  split; [apply getFilterFieldType_table |].
  intros filtersString H. rewrite parseFilters_mapM.
  apply mapM_total. eapply Forall_impl; [| exact H].
  intros [key v] Hv. now apply parseParam_colon.
Qed.

(** C8.  [parseFilters] is partial.  A parameter value without [:]
    leaves the filter value [undefined]; the call then raises a
    [TypeError] for the field [availableToBook] whatever the value, for
    [valuation] and [createdAt] when the value is [between] and for
    [status] when it is [in]; and it raises only through a parameter of
    one of these four fields whose value holds no [:].  When a value
    holds more than one [:], what follows the second [:] does not reach
    the filter: the filter is the one of the value cut there. *)
Theorem parseFilters_partial :
  (forall filtersString,
     let params := URLSearchParams filtersString in
     (forall key v,
        In (key, v) params -> without ":" v = true ->
        nth_error (split ":" v) 1 = None)
     /\ (forall v,
           In ("availableToBook", v) params -> without ":" v = true ->
           parseFilters filtersString = Throw TypeError)
     /\ (In ("valuation", "between") params ->
         parseFilters filtersString = Throw TypeError)
     /\ (In ("createdAt", "between") params ->
         parseFilters filtersString = Throw TypeError)
     /\ (In ("status", "in") params ->
         parseFilters filtersString = Throw TypeError)
     /\ (throws (parseFilters filtersString) ->
         exists key v,
           In (key, v) params /\ In key parsedFields
           /\ without ":" v = true))
  /\ (forall filters key a b c,
        without ":" a = true -> without ":" b = true ->
        pushFilter filters (key, a +:+ ":" +:+ b +:+ ":" +:+ c)
        = pushFilter filters (key, a +:+ ":" +:+ b)
        /\ pushFilter filters (key, a +:+ ":" +:+ b +:+ ":" +:+ c)
           = Ok (filters
                   ++ [mkFilter key (getFilterFieldType key) a
                         (filterValueOf key a b)])).
Proof.
  split.
  - intros filtersString params. subst params.
    rewrite parseFilters_mapM. repeat split.
    + intros key v _ Hv. rewrite nth_error_split_1.
      now apply valueTextOf_none.
    + intros v Hin Hv. apply (mapM_raises _ _ _ Hin).
      apply valueTextOf_none in Hv. unfold parseParam. rewrite Hv.
      now exists TypeError.
    + intros Hin. apply (mapM_raises _ _ _ Hin). now exists TypeError.
    + intros Hin. apply (mapM_raises _ _ _ Hin). now exists TypeError.
    + intros Hin. apply (mapM_raises _ _ _ Hin). now exists TypeError.
    + intros [e H]. apply mapM_raises_inv in H.
      destruct H as ([key v] & Hin & Hx). exists key, v.
      split; [exact Hin |]. now apply parseParam_raises.
  - intros filters key a b c Ha Hb. rewrite !pushFilter_parseParam.
    destruct (parseParam_truncates key a b c Ha Hb) as [-> ->].
    now split.
Qed.

End FilterParser.

(** A witness for C4: four parameters, each with its operator. *)
Lemma parseFilters_records_witness :
  Forall (fun param => without ":" (snd param) = false)
    (URLSearchParams
       "valuation=between:10,20&status=in:AVAILABLE,IN_CUSTODY&availableToBook=is:True&name=is:drill")
  /\ AssetUtils.parseFilters
       "valuation=between:10,20&status=in:AVAILABLE,IN_CUSTODY&availableToBook=is:True&name=is:drill"
     = Ok [ AdvancedFilters.mkFilter "valuation" "number" "between"
              (VArr [VNum (NumOf "10"); VNum (NumOf "20")]);
            AdvancedFilters.mkFilter "status" "enum" "in"
              (VArr [VStr "AVAILABLE"; VStr "IN_CUSTODY"]);
            AdvancedFilters.mkFilter "availableToBook" "boolean" "is"
              (VBool true);
            AdvancedFilters.mkFilter "name" "string" "is" (VStr "drill") ].
Proof.
  assert (H : Forall (fun param => without ":" (snd param) = false)
                (URLSearchParams
                   "valuation=between:10,20&status=in:AVAILABLE,IN_CUSTODY&availableToBook=is:True&name=is:drill"))
    by (vm_compute; repeat constructor).
  split; [exact H |].
  exact (proj2 parseFilters_records _ H).
Defined.

(** The counterexample to C4 as stated: on a filters string whose one
    parameter has no [:] in its value, [parseFilters] returns no filter
    list at all. *)
Lemma parseFilters_no_list :
  URLSearchParams "availableToBook=true" = [("availableToBook", "true")]
  /\ AssetUtils.parseFilters "availableToBook=true" = Throw TypeError
  /\ forall filters,
       AssetUtils.parseFilters "availableToBook=true" <> Ok filters.
Proof. repeat split. discriminate. Qed.

(** A witness for C8: one string for each of the four fields, and a
    date whose time of day holds two more [:]. *)
Lemma parseFilters_partial_witness :
  (In ("availableToBook", "yes") (URLSearchParams "id=is:7&availableToBook=yes")
   /\ without ":" "yes" = true
   /\ AssetUtils.parseFilters "id=is:7&availableToBook=yes" = Throw TypeError)
  /\ (In ("valuation", "between") (URLSearchParams "valuation=between")
      /\ AssetUtils.parseFilters "valuation=between" = Throw TypeError)
  /\ (In ("createdAt", "between") (URLSearchParams "createdAt=between")
      /\ AssetUtils.parseFilters "createdAt=between" = Throw TypeError)
  /\ (In ("status", "in") (URLSearchParams "status=in")
      /\ AssetUtils.parseFilters "status=in" = Throw TypeError)
  /\ (without ":" "is" = true /\ without ":" "2024-05-01T10" = true
      /\ AssetUtils.pushFilter []
           ("createdAt", "is" +:+ ":" +:+ "2024-05-01T10" +:+ ":" +:+ "30:00")
         = Ok [AdvancedFilters.mkFilter "createdAt" "date" "is"
                 (VStr "2024-05-01T10")]).
Proof.
  assert (H1 : In ("availableToBook", "yes")
                 (URLSearchParams "id=is:7&availableToBook=yes"))
    by (right; now left).
  assert (H2 : In ("valuation", "between") (URLSearchParams "valuation=between"))
    by now left.
  assert (H3 : In ("createdAt", "between") (URLSearchParams "createdAt=between"))
    by now left.
  assert (H4 : In ("status", "in") (URLSearchParams "status=in"))
    by now left.
  refine (conj (conj H1 (conj eq_refl _))
            (conj (conj H2 _)
               (conj (conj H3 _)
                  (conj (conj H4 _) (conj eq_refl (conj eq_refl _)))))).
  - exact (proj1 (proj2 (proj1 parseFilters_partial _)) "yes" H1 eq_refl).
  - exact (proj1 (proj2 (proj2 (proj1 parseFilters_partial _))) H2).
  - exact (proj1 (proj2 (proj2 (proj2 (proj1 parseFilters_partial _)))) H3).
  - exact (proj1 (proj2 (proj2 (proj2 (proj2 (proj1 parseFilters_partial _)))))
             H4).
  - exact (proj2 (proj2 parseFilters_partial [] "createdAt" "is"
                    "2024-05-01T10" "30:00" eq_refl eq_refl)).
Defined.

(* ================================================================== *)
(** * The asset query of [getAssetsWhereInput] *)
(* ================================================================== *)

Section AssetQuery.
Context {host : Host}.
Import AssetUtils.
Variable getParamsValues : list (string * string) -> ParamsValues.

Lemma includes_nonEmpty x ids :
  includes x ids = true -> nonEmpty (Some ids) = Some ids.
Proof. destruct ids; [discriminate | reflexivity]. Qed.

(** The [uncategorized] branch assigns [OR]; the other branches extend
    it. *)
Lemma withCategories_uncategorized ids w :
  includes "uncategorized" ids = true ->
  withCategories (Some ids) w = setOR w (categoryAlternatives ids).
Proof.
  intros H. unfold withCategories.
  now rewrite (includes_nonEmpty _ _ H), H.
Qed.

Lemma withTags_untagged ids w :
  includes "untagged" ids = true ->
  withTags (Some ids) w = setOR w (currentOR w ++ tagAlternatives ids).
Proof.
  intros H. unfold withTags. now rewrite (includes_nonEmpty _ _ H), H.
Qed.

Lemma withLocations_OR ids w :
  currentOR (withLocations ids w) = currentOR w ++ locationPart ids
  /\ categoryId (withLocations ids w) = categoryId w
  /\ tags (withLocations ids w) = tags w
  /\ (OR w <> None -> OR (withLocations ids w) <> None).
Proof.
  unfold withLocations, locationPart.
  destruct (nonEmpty ids) as [l|].
  - destruct (includes "without-location" l); cbn;
      rewrite ?app_nil_r; repeat split; auto; discriminate.
  - rewrite app_nil_r. repeat split; auto.
Qed.

Lemma withTeamMembers_OR ids w :
  currentOR (withTeamMembers ids w) = currentOR w ++ custodyPart ids
  /\ categoryId (withTeamMembers ids w) = categoryId w
  /\ tags (withTeamMembers ids w) = tags w
  /\ (OR w <> None -> OR (withTeamMembers ids w) <> None).
Proof.
  unfold withTeamMembers, custodyPart.
  destruct (nonEmpty ids) as [l|].
  - cbn. repeat split; auto; discriminate.
  - rewrite app_nil_r. repeat split; auto.
Qed.

Lemma withStatus_keeps st w :
  OR (withStatus st w) = OR w /\ categoryId (withStatus st w) = categoryId w
  /\ tags (withStatus st w) = tags w.
Proof.
  unfold withStatus. destruct st as [s|]; [destruct (truthy s) |];
    repeat split.
Qed.

Lemma withSearch_keeps s w :
  OR (withSearch s w) = OR w /\ categoryId (withSearch s w) = categoryId w
  /\ tags (withSearch s w) = tags w.
Proof.
  unfold withSearch. destruct s as [s|]; [destruct (truthy s) |];
    repeat split.
Qed.

Lemma currentOR_some w alts :
  OR w <> None -> currentOR w = alts -> OR w = Some alts.
Proof. unfold currentOR. destruct (OR w); [congruence | contradiction]. Qed.

(** C9.  When [categoriesIds] holds [uncategorized] and [tagsIds] holds
    [untagged], the query has one top-level [OR] array: the two category
    alternatives, then the two tag alternatives, then the location
    alternatives (when [locationIds] holds [without-location]) and the
    custody alternatives (when team members are given), side by side,
    and neither [categoryId] nor [tags] is set.  An asset that satisfies
    a single alternative of a single group therefore satisfies the
    [OR].  The [uncategorized] branch assigns [OR] whatever it held,
    where the [untagged] branch extends it. *)
Theorem where_input_flattens_groups :
  (forall organizationId currentSearchParams cats tgs,
     truthy currentSearchParams = true ->
     let paramsValues :=
       getParamsValues (URLSearchParams currentSearchParams) in
     categoriesIds paramsValues = Some cats ->
     includes "uncategorized" cats = true ->
     tagsIds paramsValues = Some tgs ->
     includes "untagged" tgs = true ->
     let w := getAssetsWhereInput getParamsValues organizationId
                (Some currentSearchParams) in
     let alts := categoryAlternatives cats ++ tagAlternatives tgs
                 ++ locationPart (locationIds paramsValues)
                 ++ custodyPart (teamMemberIds paramsValues) in
     OR w = Some alts
     /\ categoryId w = None
     /\ tags w = None
     /\ (forall alt asset,
           In alt alts -> satisfies alt asset = true ->
           satisfiesOR w asset = true))
  /\ (forall w cats,
        includes "uncategorized" cats = true ->
        OR (withCategories (Some cats) w) = Some (categoryAlternatives cats))
  /\ (forall w tgs,
        includes "untagged" tgs = true ->
        OR (withTags (Some tgs) w)
        = Some (currentOR w ++ tagAlternatives tgs)).
Proof.
  split; [| split].
  - intros organizationId currentSearchParams cats tgs Hs pv Hc Hu Ht Hg w alts.
    assert (Hw : OR w = Some alts /\ categoryId w = None /\ tags w = None).
    { subst w. unfold getAssetsWhereInput. rewrite Hs. fold pv.
      rewrite Hc, Ht.
      set (st := match get "status" _ with Some _ => _ | None => _ end).
      set (w0 := withStatus st (withSearch (search pv) _)).
      assert (H0 : OR w0 = None /\ categoryId w0 = None /\ tags w0 = None).
      { subst w0. destruct (withStatus_keeps st
                              (withSearch (search pv)
                                 (mkWhere organizationId None None None None
                                    None None))) as (-> & -> & ->).
        destruct (withSearch_keeps (search pv)
                    (mkWhere organizationId None None None None None None))
          as (-> & -> & ->).
        repeat split. }
      destruct H0 as (H0 & H1 & H2).
      rewrite (withCategories_uncategorized cats w0 Hu).
      rewrite (withTags_untagged tgs _ Hg).
      set (w2 := setOR _ (_ ++ tagAlternatives tgs)).
      destruct (withLocations_OR (locationIds pv) w2) as (L1 & L2 & L3 & L4).
      destruct (withTeamMembers_OR (teamMemberIds pv)
                  (withLocations (locationIds pv) w2))
        as (T1 & T2 & T3 & T4).
      split; [| split].
      - apply currentOR_some.
        + apply T4, L4. subst w2. discriminate.
        + rewrite T1, L1. subst w2 alts. cbn [currentOR setOR OR].
          now rewrite <- !app_assoc.
      - rewrite T2, L2. subst w2. cbn. exact H1.
      - rewrite T3, L3. subst w2. cbn. exact H2. }
    destruct Hw as (Ho & Hcat & Htag). repeat split; try assumption.
    intros alt asset Hin Hsat. unfold satisfiesOR. rewrite Ho.
    apply existsb_exists. now exists alt.
  - intros w cats H. now rewrite withCategories_uncategorized.
  - intros w tgs H. now rewrite withTags_untagged.
Qed.

End AssetQuery.

(** A witness for C9: no category or no tag, and one team member.  An
    asset without category, with one other tag and in nobody's custody
    satisfies the [OR] through the single alternative [categoryId:
    null]. *)
Lemma where_input_flattens_groups_witness :
  let query := "category=uncategorized&category=c1&tag=untagged&teamMember=tm1" in
  let w := AssetUtils.getAssetsWhereInput readParamsValues "org1" (Some query) in
  let asset := mkAsset None ["t9"] (Some "l1") None [] in
  truthy query = true
  /\ AssetUtils.includes "uncategorized" ["uncategorized"; "c1"] = true
  /\ AssetUtils.includes "untagged" ["untagged"] = true
  /\ AssetUtils.OR w
     = Some [ AssetUtils.CategoryIdIn ["uncategorized"; "c1"];
              AssetUtils.CategoryIdNull;
              AssetUtils.TagsSomeIdIn ["untagged"];
              AssetUtils.TagsNone;
              AssetUtils.CustodyTeamMemberIdIn ["tm1"];
              AssetUtils.CustodyCustodianUserIdIn ["tm1"];
              AssetUtils.BookingsSomeCustodianTeamMemberIdIn ["tm1"];
              AssetUtils.BookingsSomeCustodianUserIdIn ["tm1"] ]
  /\ AssetUtils.categoryId w = None
  /\ AssetUtils.tags w = None
  /\ satisfies AssetUtils.TagsNone asset = false
  /\ satisfies (AssetUtils.TagsSomeIdIn ["untagged"]) asset = false
  /\ satisfiesOR w asset = true.
Proof.
  intros query w asset.
  pose proof (proj1 (where_input_flattens_groups readParamsValues)
                "org1" query ["uncategorized"; "c1"] ["untagged"]
                eq_refl eq_refl eq_refl eq_refl eq_refl)
    as (Ho & Hc & Ht & Hsat).
  refine (conj eq_refl (conj eq_refl (conj eq_refl
            (conj Ho (conj Hc (conj Ht (conj eq_refl (conj eq_refl _)))))))).
  exact (Hsat AssetUtils.CategoryIdNull asset
           (or_intror (or_introl eq_refl)) eq_refl).
Defined.

(* ================================================================== *)
(** * White space: [trim] and padding *)
(* ================================================================== *)

Lemma ws1_small c : ws1 c = true -> nat_of_ascii c < 128.
Proof.
  unfold ws1. intros H. apply orb_true_iff in H. destruct H as [H|H].
  - apply andb_true_iff in H. destruct H as [_ H].
    apply Nat.leb_le in H. lia.
  - apply Nat.eqb_eq in H. lia.
Qed.

Lemma ws2_second c1 c2 : ws2 c1 c2 = true -> nat_of_ascii c2 = 160.
Proof.
  unfold ws2. intros H. apply andb_true_iff in H. destruct H as [_ H].
  now apply Nat.eqb_eq in H.
Qed.

Lemma ws3_high c1 c2 c3 :
  ws3 c1 c2 c3 = true -> 128 <= nat_of_ascii c2 /\ 128 <= nat_of_ascii c3.
Proof.
  unfold ws3. cbv zeta. intros H.
  repeat rewrite ?orb_true_iff, ?andb_true_iff in H.
  repeat rewrite ?Nat.eqb_eq, ?Nat.leb_le in H. lia.
Qed.

Lemma ws2_after_ws1 c1 c : ws1 c = true -> ws2 c1 c = false.
Proof.
  intros H. apply ws1_small in H.
  destruct (ws2 c1 c) eqn:E; [| reflexivity].
  apply ws2_second in E. lia.
Qed.

Lemma ws3_mid_ws1 c1 c c3 : ws1 c = true -> ws3 c1 c c3 = false.
Proof.
  intros H. apply ws1_small in H.
  destruct (ws3 c1 c c3) eqn:E; [| reflexivity].
  apply ws3_high in E. lia.
Qed.

Lemma ws3_last_ws1 c1 c2 c : ws1 c = true -> ws3 c1 c2 c = false.
Proof.
  intros H. apply ws1_small in H.
  destruct (ws3 c1 c2 c) eqn:E; [| reflexivity].
  apply ws3_high in E. lia.
Qed.

Lemma scan_ws1 c s :
  ws1 c = true -> scan (String c s) = White (String c EmptyString) :: scan s.
Proof. intros H. cbn [scan]. now rewrite H. Qed.

Lemma scan_blank p : blank p = true -> allWhite (scan p) = true.
Proof.
  induction p as [|c p IH]; [reflexivity |].
  cbn [blank]. intros H. apply andb_true_iff in H. destruct H as [Hc Hp].
  rewrite scan_ws1 by exact Hc. cbn. now apply IH.
Qed.

(** Scanning does not look across the border to a blank suffix. *)
Lemma scan_app_blank p :
  blank p = true -> forall n s, String.length s <= n ->
  scan (s +:+ p) = scan s ++ scan p.
Proof.
  intros Hp. destruct p as [|c p]; [intros; now rewrite append_empty_r, app_nil_r |].
  cbn [blank] in Hp. apply andb_true_iff in Hp. destruct Hp as [Hc Hp].
  induction n as [|n IH]; intros s Hn.
  - destruct s; [reflexivity | simpl in Hn; lia].
  - destruct s as [|c1 t1]; [reflexivity |].
    cbn [String.append]. cbn [scan].
    destruct (ws1 c1); [cbn [app]; f_equal; apply IH; simpl in Hn; lia |].
    destruct t1 as [|c2 t2].
    + cbn [String.append]. rewrite (ws2_after_ws1 c1 c Hc).
      destruct p as [|c3 p]; [reflexivity |].
      now rewrite (ws3_mid_ws1 c1 c c3 Hc).
    + cbn [String.append]. destruct (ws2 c1 c2).
      * cbn [app]. f_equal. apply IH. simpl in Hn. lia.
      * destruct t2 as [|c3 t3].
        -- cbn [String.append]. rewrite (ws3_last_ws1 c1 c2 c Hc).
           cbn [app]. f_equal.
           change (String c2 (String c p)) with (String c2 EmptyString +:+ String c p).
           apply IH. simpl in *. lia.
        -- cbn [String.append]. destruct (ws3 c1 c2 c3).
           ++ cbn [app]. f_equal. apply IH. simpl in Hn. lia.
           ++ cbn [app]. f_equal.
              change (String c2 (String c3 (t3 +:+ String c p)))
                with (String c2 (String c3 t3) +:+ String c p).
              apply IH. simpl in *. lia.
Qed.

Lemma dropWhite_allWhite ts : allWhite ts = true -> dropWhite ts = [].
Proof.
  induction ts as [|[b|c] ts IH]; cbn; [reflexivity | exact IH | discriminate].
Qed.

Lemma dropWhite_app_allWhite a b :
  allWhite a = true -> dropWhite (a ++ b) = dropWhite b.
Proof.
  induction a as [|[w|c] a IH]; cbn; [reflexivity | exact IH | discriminate].
Qed.

Lemma allWhite_rev ts : allWhite (rev ts) = allWhite ts.
Proof.
  unfold allWhite. induction ts as [|t ts IH]; [reflexivity |].
  cbn [rev]. rewrite forallb_app, IH. cbn. destruct t; cbn;
    now rewrite ?andb_true_r, ?andb_false_r.
Qed.

Lemma trim_tokens_suffix ts ts' :
  allWhite ts' = true ->
  dropWhite (rev (dropWhite (ts ++ ts'))) = dropWhite (rev (dropWhite ts)).
Proof.
  intros H. induction ts as [|[w|c] ts IH].
  - cbn [app]. now rewrite (dropWhite_allWhite ts' H).
  - exact IH.
  - cbn [app dropWhite]. cbn [rev]. rewrite rev_app_distr, <- app_assoc.
    apply dropWhite_app_allWhite. now rewrite allWhite_rev.
Qed.

(** [trim] does not see ASCII white space around a text. *)
Lemma trim_padded before s after :
  blank before = true -> blank after = true ->
  trim (before +:+ s +:+ after) = trim s.
Proof.
  intros Hb Ha. unfold trim. f_equal. f_equal.
  assert (Hdrop : dropWhite (scan (before +:+ s +:+ after))
                  = dropWhite (scan (s +:+ after))).
  { clear Ha. induction before as [|c p IH]; [reflexivity |].
    cbn [blank] in Hb. apply andb_true_iff in Hb. destruct Hb as [Hc Hp].
    cbn [String.append]. rewrite scan_ws1 by exact Hc. cbn [dropWhite].
    now apply IH. }
  rewrite Hdrop, (scan_app_blank after Ha (String.length s) s (le_n _)).
  apply trim_tokens_suffix. now apply scan_blank.
Qed.

Lemma trim_blank p : blank p = true -> trim p = EmptyString.
Proof.
  intros H. unfold trim. now rewrite (dropWhite_allWhite _ (scan_blank p H)).
Qed.

(* ================================================================== *)
(** * The location note *)
(* ================================================================== *)

Section LocationNote.
Import AssetUtils.

Lemma actor_not_empty first last rest : actor first last +:+ rest <> EmptyString.
Proof. discriminate. Qed.

(** X1.  The note is never empty, and removal has precedence: when
    [isRemoving] is set, or when there is no new location, the note is the
    removal note whatever the two locations are, with the text
    [undefined] for the name and the id of a current location that is
    not there. *)
Theorem location_note_removal_first :
  (forall current new first last asset removing,
     getLocationUpdateNoteContent current new first last asset removing
     <> EmptyString)
  /\ (forall current new first last asset removing,
        flag removing = true \/ new = None ->
        getLocationUpdateNoteContent current new first last asset removing
        = actor first last +:+ " removed  **" +:+ trim asset
          +:+ "** from location "
          +:+ locationLink (show (trimmedName current)) (show (idOf current)))
  /\ (forall current new first last asset removing,
        flag removing = false ->
        getLocationUpdateNoteContent current (Some new) first last asset
          removing
        = actor first last
          +:+ match current with
              | Some c =>
                  " updated the location of **" +:+ trim asset +:+ "** from "
                  +:+ locationLink (trim (locationName c)) (locationRecordId c)
                  +:+ " to "
              | None => " set the location of **" +:+ trim asset +:+ "** to "
              end
          +:+ locationLink (trim (locationName new)) (locationRecordId new)).
Proof.
  split; [| split].
  - intros current new first last asset removing.
    unfold getLocationUpdateNoteContent.
    destruct (flag removing); [discriminate |].
    destruct new; [| discriminate]. destruct current; discriminate.
  - intros current new first last asset removing H.
    unfold getLocationUpdateNoteContent.
    destruct H as [-> | ->]; [reflexivity |].
    now rewrite orb_true_r.
  - intros current new first last asset removing H.
    unfold getLocationUpdateNoteContent. rewrite H. cbn [orb].
    destruct current; unfold actor; now rewrite !append_assoc.
Qed.


End LocationNote.

(** A witness for X1: a removal although both locations are given. *)
Lemma location_note_removal_first_witness :
  (AssetUtils.flag (Some true) = true
   \/ Some (AssetUtils.mkLocation "l2" "Barn") = None)
  /\ AssetUtils.getLocationUpdateNoteContent
       (Some (AssetUtils.mkLocation "l1" " Shed "))
       (Some (AssetUtils.mkLocation "l2" "Barn"))
       "Ann" "Lee " "Drill" (Some true)
     = "**Ann Lee** removed  **Drill** from location **[Shed](/locations/l1)**".
Proof.
  assert (H : AssetUtils.flag (Some true) = true
              \/ Some (AssetUtils.mkLocation "l2" "Barn") = None)
    by (left; reflexivity).
  split; [exact H |].
  exact (proj1 (proj2 location_note_removal_first) _ _ _ _ _ _ H).
Defined.


(* ================================================================== *)
(** * More on [getAssetsWhereInput] *)
(* ================================================================== *)

Section AssetQueryShape.
Context {host : Host}.
Import AssetUtils.
Variable getParamsValues : list (string * string) -> ParamsValues.

(** What each block of the function does to each key. *)
Lemma withSearch_shape s w :
  organizationId (withSearch s w) = organizationId w
  /\ status (withSearch s w) = status w
  /\ OR (withSearch s w) = OR w
  /\ categoryId (withSearch s w) = categoryId w
  /\ tags (withSearch s w) = tags w
  /\ location (withSearch s w) = location w.
Proof.
  unfold withSearch. destruct s as [x|]; [destruct (truthy x) |];
    repeat split.
Qed.

Lemma withStatus_shape st w :
  organizationId (withStatus st w) = organizationId w
  /\ title (withStatus st w) = title w
  /\ status (withStatus st w)
     = match st with
       | Some x => if truthy x then Some x else status w
       | None => status w
       end
  /\ OR (withStatus st w) = OR w
  /\ categoryId (withStatus st w) = categoryId w
  /\ tags (withStatus st w) = tags w
  /\ location (withStatus st w) = location w.
Proof.
  unfold withStatus. destruct st as [x|]; [destruct (truthy x) |];
    repeat split.
Qed.

Lemma withCategories_shape ids w :
  organizationId (withCategories ids w) = organizationId w
  /\ title (withCategories ids w) = title w
  /\ status (withCategories ids w) = status w
  /\ OR (withCategories ids w)
     = (if marked "uncategorized" ids then Some (categoryPart ids) else OR w)
  /\ categoryId (withCategories ids w)
     = match nonEmpty ids with
       | Some l => if includes "uncategorized" l then categoryId w else Some l
       | None => categoryId w
       end
  /\ tags (withCategories ids w) = tags w
  /\ location (withCategories ids w) = location w.
Proof.
  unfold withCategories, marked, categoryPart.
  destruct (nonEmpty ids) as [l|];
    [destruct (includes "uncategorized" l) |]; repeat split.
Qed.

Lemma withTags_shape ids w :
  organizationId (withTags ids w) = organizationId w
  /\ title (withTags ids w) = title w
  /\ status (withTags ids w) = status w
  /\ OR (withTags ids w)
     = (if marked "untagged" ids then Some (currentOR w ++ tagPart ids)
        else OR w)
  /\ categoryId (withTags ids w) = categoryId w
  /\ tags (withTags ids w)
     = match nonEmpty ids with
       | Some l => if includes "untagged" l then tags w else Some l
       | None => tags w
       end
  /\ location (withTags ids w) = location w.
Proof.
  unfold withTags, marked, tagPart.
  destruct (nonEmpty ids) as [l|];
    [destruct (includes "untagged" l) |]; repeat split.
Qed.

Lemma withLocations_shape ids w :
  organizationId (withLocations ids w) = organizationId w
  /\ title (withLocations ids w) = title w
  /\ status (withLocations ids w) = status w
  /\ OR (withLocations ids w)
     = (if marked "without-location" ids
        then Some (currentOR w ++ locationPart ids) else OR w)
  /\ categoryId (withLocations ids w) = categoryId w
  /\ tags (withLocations ids w) = tags w
  /\ location (withLocations ids w)
     = match nonEmpty ids with
       | Some l => if includes "without-location" l then location w else Some l
       | None => location w
       end.
Proof.
  unfold withLocations, marked, locationPart.
  destruct (nonEmpty ids) as [l|];
    [destruct (includes "without-location" l) |]; repeat split.
Qed.

Lemma withTeamMembers_shape ids w :
  organizationId (withTeamMembers ids w) = organizationId w
  /\ title (withTeamMembers ids w) = title w
  /\ status (withTeamMembers ids w) = status w
  /\ OR (withTeamMembers ids w)
     = match nonEmpty ids with
       | Some _ => Some (currentOR w ++ custodyPart ids)
       | None => OR w
       end
  /\ categoryId (withTeamMembers ids w) = categoryId w
  /\ tags (withTeamMembers ids w) = tags w
  /\ location (withTeamMembers ids w) = location w.
Proof.
  unfold withTeamMembers, custodyPart.
  destruct (nonEmpty ids) as [l|]; repeat split.
Qed.

(** The query for a non-empty search-params string, key by key. *)
Lemma getAssetsWhereInput_keys org sp :
  truthy sp = true ->
  let pv := getParamsValues (URLSearchParams sp) in
  let w := getAssetsWhereInput getParamsValues org (Some sp) in
  organizationId w = org
  /\ status w = statusOf (URLSearchParams sp)
  /\ currentOR w
     = categoryPart (categoriesIds pv) ++ tagPart (tagsIds pv)
       ++ locationPart (locationIds pv) ++ custodyPart (teamMemberIds pv)
  /\ (OR w = None <->
      marked "uncategorized" (categoriesIds pv) = false
      /\ marked "untagged" (tagsIds pv) = false
      /\ marked "without-location" (locationIds pv) = false
      /\ nonEmpty (teamMemberIds pv) = None)
  /\ categoryId w = plainFilter "uncategorized" (categoriesIds pv)
  /\ tags w = plainFilter "untagged" (tagsIds pv)
  /\ location w = plainFilter "without-location" (locationIds pv).
Proof.
  intros Hs pv w. subst w. unfold getAssetsWhereInput. rewrite Hs. fold pv.
  set (st := match get "status" _ with Some _ => _ | None => _ end).
  set (w0 := mkWhere org None None None None None None).
  destruct (withSearch_shape (search pv) w0) as (S1 & S2 & S3 & S4 & S5 & S6).
  set (w1 := withSearch (search pv) w0) in *.
  destruct (withStatus_shape st w1) as (A1 & _ & A3 & A4 & A5 & A6 & A7).
  set (w2 := withStatus st w1) in *.
  destruct (withCategories_shape (categoriesIds pv) w2)
    as (B1 & _ & B3 & B4 & B5 & B6 & B7).
  set (w3 := withCategories (categoriesIds pv) w2) in *.
  destruct (withTags_shape (tagsIds pv) w3)
    as (C1 & _ & C3 & C4 & C5 & C6 & C7).
  set (w4 := withTags (tagsIds pv) w3) in *.
  destruct (withLocations_shape (locationIds pv) w4)
    as (D1 & _ & D3 & D4 & D5 & D6 & D7).
  set (w5 := withLocations (locationIds pv) w4) in *.
  destruct (withTeamMembers_shape (teamMemberIds pv) w5)
    as (E1 & _ & E3 & E4 & E5 & E6 & E7).
  set (w6 := withTeamMembers (teamMemberIds pv) w5) in *.
  assert (O2 : OR w2 = None) by (rewrite A4, S3; reflexivity).
  assert (K3 : currentOR w3 = categoryPart (categoriesIds pv)).
  { unfold currentOR. rewrite B4, O2. unfold marked, categoryPart.
    destruct (nonEmpty (categoriesIds pv)) as [l|]; [| reflexivity].
    now destruct (includes "uncategorized" l). }
  assert (K4 : currentOR w4
               = categoryPart (categoriesIds pv) ++ tagPart (tagsIds pv)).
  { unfold currentOR at 1. rewrite C4. unfold marked, tagPart.
    destruct (nonEmpty (tagsIds pv)) as [l|].
    - destruct (includes "untagged" l); [now rewrite K3 |].
      rewrite app_nil_r. exact K3.
    - rewrite app_nil_r. exact K3. }
  assert (K5 : currentOR w5
               = categoryPart (categoriesIds pv) ++ tagPart (tagsIds pv)
                 ++ locationPart (locationIds pv)).
  { unfold currentOR at 1. rewrite D4. unfold marked.
    unfold locationPart at 2.
    destruct (nonEmpty (locationIds pv)) as [l|] eqn:E.
    - destruct (includes "without-location" l) eqn:I.
      + rewrite K4, <- app_assoc. f_equal. f_equal.
        unfold locationPart. now rewrite E, I.
      + rewrite app_nil_r. exact K4.
    - rewrite app_nil_r. exact K4. }
  assert (K6 : currentOR w6
               = categoryPart (categoriesIds pv) ++ tagPart (tagsIds pv)
                 ++ locationPart (locationIds pv)
                 ++ custodyPart (teamMemberIds pv)).
  { unfold currentOR at 1. rewrite E4. unfold custodyPart at 2.
    destruct (nonEmpty (teamMemberIds pv)) as [l|] eqn:E.
    - rewrite K5, <- !app_assoc. do 3 f_equal.
      unfold custodyPart. now rewrite E.
    - rewrite !app_nil_r. exact K5. }
  split; [| split; [| split; [| split; [split |]]]].
  - now rewrite E1, D1, C1, B1, A1, S1.
  - rewrite E3, D3, C3, B3, A3, S2. subst st. unfold statusOf. cbn [status w0].
    destruct (get "status" (URLSearchParams sp)) as [x|]; [| reflexivity].
    destruct (x === "ALL"); [reflexivity |]. cbn [orb].
    now destruct (truthy x).
  - exact K6.
  - intros H. rewrite E4 in H.
    destruct (nonEmpty (teamMemberIds pv)); [discriminate |].
    rewrite D4 in H.
    destruct (marked "without-location" (locationIds pv)); [discriminate |].
    rewrite C4 in H.
    destruct (marked "untagged" (tagsIds pv)); [discriminate |].
    rewrite B4 in H.
    destruct (marked "uncategorized" (categoriesIds pv)); [discriminate |].
    repeat split.
  - intros (H1 & H2 & H3 & H4).
    now rewrite E4, H4, D4, H3, C4, H2, B4, H1.
  - split; [| split].
    + rewrite E5, D5, C5, B5, A5, S4. unfold plainFilter. cbn [categoryId w0].
      now destruct (nonEmpty (categoriesIds pv)).
    + rewrite E6, D6, C6, B6, A6, S5. unfold plainFilter. cbn [tags w0].
      now destruct (nonEmpty (tagsIds pv)).
    + rewrite E7, D7, C7, B7, A7, S6. unfold plainFilter. cbn [location w0].
      now destruct (nonEmpty (locationIds pv)).
Qed.

(** X3.  Every query is scoped to the organization, and without search
    params (null or the empty string) the organization is its only
    condition. *)
Theorem where_input_scoped organizationId currentSearchParams :
  AssetUtils.organizationId
    (getAssetsWhereInput getParamsValues organizationId currentSearchParams)
  = organizationId
  /\ (match currentSearchParams with
      | Some s => truthy s
      | None => false
      end = false ->
      getAssetsWhereInput getParamsValues organizationId currentSearchParams
      = mkWhere organizationId None None None None None None).
Proof.
  destruct currentSearchParams as [s|]; [| now split].
  destruct (truthy s) eqn:E.
  - split; [| discriminate].
    exact (proj1 (getAssetsWhereInput_keys organizationId s E)).
  - unfold getAssetsWhereInput. rewrite E. now split.
Qed.

(** X4.  The status condition is the [status] parameter of the query
    string, and it is never [ALL] nor empty: these and an absent
    parameter leave the status free. *)
Theorem where_input_status organizationId currentSearchParams st :
  status (getAssetsWhereInput getParamsValues organizationId
            currentSearchParams) = Some st
  <-> exists s,
        currentSearchParams = Some s /\ truthy s = true
        /\ get "status" (URLSearchParams s) = Some st
        /\ st <> "ALL" /\ st <> EmptyString.
Proof.
  destruct currentSearchParams as [s|].
  - destruct (truthy s) eqn:E.
    + destruct (getAssetsWhereInput_keys organizationId s E) as (_ & -> & _).
      unfold statusOf. split.
      * intros H. exists s.
        destruct (get "status" (URLSearchParams s)) as [x|] eqn:G;
          [| discriminate].
        destruct (String.eqb_spec x "ALL") as [->|Hall]; [discriminate |].
        cbn [orb] in H. destruct x as [|c x]; [discriminate |].
        cbn [truthy negb] in H. injection H as <-.
        repeat split; auto; discriminate.
      * intros (s' & [= <-] & _ & G & H1 & H2). rewrite G.
        apply String.eqb_neq in H1. rewrite H1. cbn [orb].
        destruct st; [contradiction | reflexivity].
    + unfold getAssetsWhereInput. rewrite E. cbn [status].
      split; [discriminate |].
      intros (s' & [= <-] & H & _). congruence.
  - cbn. split; [discriminate |]. now intros (s' & H & _).
Qed.

(** X5.  For every non-empty search-params string the [OR] array is the
    alternatives of the groups that ask for one, in the order category,
    tag, location, custody; and the query has no [OR] exactly when no id
    list holds its marker and no team member is given. *)
Theorem where_input_or organizationId currentSearchParams :
  truthy currentSearchParams = true ->
  let paramsValues := getParamsValues (URLSearchParams currentSearchParams) in
  let w := getAssetsWhereInput getParamsValues organizationId
             (Some currentSearchParams) in
  currentOR w
  = categoryPart (categoriesIds paramsValues)
    ++ tagPart (tagsIds paramsValues)
    ++ locationPart (locationIds paramsValues)
    ++ custodyPart (teamMemberIds paramsValues)
  /\ (OR w = None <->
      marked "uncategorized" (categoriesIds paramsValues) = false
      /\ marked "untagged" (tagsIds paramsValues) = false
      /\ marked "without-location" (locationIds paramsValues) = false
      /\ nonEmpty (teamMemberIds paramsValues) = None).
Proof.
  intros H pv w.
  destruct (getAssetsWhereInput_keys organizationId currentSearchParams H)
    as (_ & _ & Ho & Hn & _).
  split; [exact Ho | exact Hn].
Qed.

(** X6.  A list of category, tag or location ids becomes a plain
    conjunctive filter ([categoryId], [tags], [location]) exactly when
    it is not empty and does not hold its marker ([uncategorized],
    [untagged], [without-location]); with the marker the group lives in
    [OR] only. *)
Theorem where_input_plain_filters organizationId currentSearchParams :
  truthy currentSearchParams = true ->
  let paramsValues := getParamsValues (URLSearchParams currentSearchParams) in
  let w := getAssetsWhereInput getParamsValues organizationId
             (Some currentSearchParams) in
  categoryId w = plainFilter "uncategorized" (categoriesIds paramsValues)
  /\ tags w = plainFilter "untagged" (tagsIds paramsValues)
  /\ location w = plainFilter "without-location" (locationIds paramsValues).
Proof.
  intros H pv w.
  exact (proj2 (proj2 (proj2 (proj2
           (getAssetsWhereInput_keys organizationId currentSearchParams H))))).
Qed.

End AssetQueryShape.

(** A witness for X3: no search params at all. *)
Lemma where_input_scoped_witness :
  match @None string with Some s => truthy s | None => false end = false
  /\ AssetUtils.getAssetsWhereInput readParamsValues "org1" None
     = AssetUtils.mkWhere "org1" None None None None None None.
Proof.
  split; [reflexivity |].
  exact (proj2 (where_input_scoped readParamsValues "org1" None) eq_refl).
Defined.

(** A witness for X4: the status [AVAILABLE] is kept, [ALL] is not. *)
Lemma where_input_status_witness :
  (exists s,
     Some "status=AVAILABLE&tag=t1" = Some s /\ truthy s = true
     /\ AssetUtils.get "status" (URLSearchParams s) = Some "AVAILABLE"
     /\ "AVAILABLE" <> "ALL" /\ "AVAILABLE" <> EmptyString)
  /\ AssetUtils.status
       (AssetUtils.getAssetsWhereInput readParamsValues "org1"
          (Some "status=AVAILABLE&tag=t1")) = Some "AVAILABLE"
  /\ AssetUtils.status
       (AssetUtils.getAssetsWhereInput readParamsValues "org1"
          (Some "status=ALL&tag=t1")) = None.
Proof.
  assert (H : exists s,
            Some "status=AVAILABLE&tag=t1" = Some s /\ truthy s = true
            /\ AssetUtils.get "status" (URLSearchParams s) = Some "AVAILABLE"
            /\ "AVAILABLE" <> "ALL" /\ "AVAILABLE" <> EmptyString).
  { exists "status=AVAILABLE&tag=t1".
    refine (conj eq_refl (conj eq_refl (conj eq_refl (conj _ _))));
      discriminate. }
  refine (conj H (conj _ eq_refl)).
  exact (proj2 (where_input_status readParamsValues "org1"
                  (Some "status=AVAILABLE&tag=t1") "AVAILABLE") H).
Defined.

(** A witness for X5: uncategorized assets or those at no location. *)
Lemma where_input_or_witness :
  let query := "category=uncategorized&tag=t1&location=without-location&location=l1" in
  truthy query = true
  /\ AssetUtils.OR
       (AssetUtils.getAssetsWhereInput readParamsValues "org1" (Some query))
     = Some [ AssetUtils.CategoryIdIn ["uncategorized"];
              AssetUtils.CategoryIdNull;
              AssetUtils.LocationIdIn ["without-location"; "l1"];
              AssetUtils.LocationIdNull ].
Proof.
  intros query.
  pose proof (proj1 (where_input_or readParamsValues "org1" query eq_refl))
    as H.
  refine (conj eq_refl _).
  apply currentOR_some; [discriminate | exact H].
Defined.

(** A witness for X6: plain tags beside uncategorized assets. *)
Lemma where_input_plain_filters_witness :
  let query := "category=uncategorized&tag=t1&tag=t2" in
  let w := AssetUtils.getAssetsWhereInput readParamsValues "org1" (Some query) in
  truthy query = true
  /\ AssetUtils.categoryId w = None
  /\ AssetUtils.tags w = Some ["t1"; "t2"]
  /\ AssetUtils.location w = None.
Proof.
  intros query w.
  refine (conj eq_refl _).
  exact (where_input_plain_filters readParamsValues "org1" query eq_refl).
Defined.

(* ================================================================== *)
(** * More on the filter parser and the WHERE compiler *)
(* ================================================================== *)

Section ParsedFilters.
Context {host : Host}.
Import AdvancedFilters AssetUtils.

Lemma mapM_Forall2 {A B} (f : A -> result B) l : forall ys,
  mapM f l = Ok ys -> Forall2 (fun x y => f x = Ok y) l ys.
Proof.
  induction l as [|x l IH]; intros ys.
  - intros [= <-]. constructor.
  - cbn [mapM]. destruct (f x) as [y|e] eqn:E; [| discriminate].
    cbn [bind]. destruct (mapM f l) as [ys'|e]; [| discriminate].
    intros [= <-]. constructor; [exact E | now apply IH].
Qed.

Lemma forallb_map_const {A B} (p : B -> bool) (g : A -> B) l :
  (forall x, p (g x) = true) -> forallb p (map g l) = true.
Proof.
  intros H. induction l as [|x l IH]; [reflexivity |].
  cbn. now rewrite H, IH.
Qed.

Lemma split_length c s : 1 <= length (split c s).
Proof.
  pose proof (split_nonempty c s). destruct (split c s); [contradiction |].
  simpl. lia.
Qed.

(** What one decoded parameter looks like, colon or no colon. *)
Lemma parseParam_returns key v f :
  parseParam (key, v) = Ok f ->
  name f = key /\ operator f = operatorOf v /\ type f = fieldTypeOf key
  /\ agrees f = true
  /\ (forall n, shape (value f) = Some n ->
      1 <= n
      /\ ((key = "valuation" \/ key = "createdAt") /\ operatorOf v = "between"
          \/ key = "status" /\ operatorOf v = "in")).
Proof.
  unfold parseParam. rewrite getFilterFieldType_table.
  destruct (parseFilterValue key (operatorOf v) (valueTextOf v)) as [x|e] eqn:E;
    [| discriminate].
  cbn [bind]. intros [= <-]. cbn [name operator type value].
  split; [reflexivity | split; [reflexivity | split; [reflexivity |]]].
  revert E. unfold parseFilterValue, agrees, fieldTypeOf, fieldTypes, splitComma.
  cbn [name operator type value AdvancedIndexQuery.assoc].
  set (o := operatorOf v). set (t := valueTextOf v). clearbody o t.
  str_cases; destruct t as [text|]; cbn; try discriminate; intros [= <-];
    cbn [shape];
    (split;
     [ try reflexivity; now apply forallb_map_const
     | intros n [= <-]; rewrite ?length_map;
       (split; [apply split_length | tauto]) ]).
Qed.

Lemma parseFilters_Forall2 filtersString fs :
  parseFilters filtersString = Ok fs ->
  Forall2 (fun param f => parseParam param = Ok f)
    (URLSearchParams filtersString) fs.
Proof. rewrite parseFilters_mapM. apply mapM_Forall2. Qed.

(** X7.  Whenever [parseFilters] returns, it returns one filter per
    parameter, in order, and the name, the operator and the type of each
    are the key, the text before the first [:] of the value and the type
    the table gives the key, whether or not the value holds a [:]. *)
Theorem parseFilters_names_operators_types filtersString fs :
  parseFilters filtersString = Ok fs ->
  map name fs = map fst (URLSearchParams filtersString)
  /\ map operator fs
     = map (fun param => operatorOf (snd param)) (URLSearchParams filtersString)
  /\ map type fs
     = map (fun param => fieldTypeOf (fst param)) (URLSearchParams filtersString).
Proof.
  intros H. apply parseFilters_Forall2 in H.
  induction H as [|[key v] f params fs Hf _ IH]; [repeat split |].
  destruct (parseParam_returns key v f Hf) as (Hn & Ho & Ht & _).
  destruct IH as (IH1 & IH2 & IH3). cbn [map fst snd].
  now rewrite Hn, Ho, Ht, IH1, IH2, IH3.
Qed.

(** X8.  Whenever [parseFilters] returns, every filter has one of the six
    types the WHERE compiler handles and a value of the kind its type
    announces: a number filter carries a number or an array of numbers,
    a boolean filter a boolean, every other filter a string, an array of
    strings or [undefined]. *)
Theorem parseFilters_values_agree filtersString fs :
  parseFilters filtersString = Ok fs ->
  Forall (fun f => In (type f) handledTypes /\ agrees f = true) fs.
Proof.
  intros H. apply parseFilters_Forall2 in H.
  induction H as [|[key v] f params fs Hf _ IH]; constructor; [| exact IH].
  destruct (parseParam_returns key v f Hf) as (_ & _ & Ht & Ha & _).
  split; [| exact Ha]. rewrite Ht. clear.
  unfold fieldTypeOf, fieldTypes, handledTypes.
  cbn [AdvancedIndexQuery.assoc]. str_cases; simpl; tauto.
Qed.

(** X9.  Whenever [parseFilters] returns, a filter value is an array
    only for [valuation] and [createdAt] under [between] and for [status]
    under [in], and such an array is never empty. *)
Theorem parseFilters_arrays filtersString fs f n :
  parseFilters filtersString = Ok fs ->
  In f fs -> shape (value f) = Some n ->
  1 <= n
  /\ ((name f = "valuation" \/ name f = "createdAt")
       /\ operator f = "between"
      \/ name f = "status" /\ operator f = "in").
Proof.
  intros H. apply parseFilters_Forall2 in H.
  induction H as [|[key v] g params fs Hg _ IH]; [contradiction |].
  intros [<-|Hin] Hs; [| now apply IH].
  destruct (parseParam_returns key v g Hg) as (Hn & Ho & _ & _ & Harr).
  rewrite Hn, Ho. now apply Harr.
Qed.

End ParsedFilters.

(** A witness for X7: a value without [:] and a value with two. *)
Lemma parseFilters_names_operators_types_witness :
  AssetUtils.parseFilters "kit=none&createdAt=is:2024-05-01T10:30"
  = Ok [ AdvancedFilters.mkFilter "kit" "string" "none" VUndefined;
         AdvancedFilters.mkFilter "createdAt" "date" "is"
           (VStr "2024-05-01T10") ]
  /\ map AdvancedFilters.name
       [ AdvancedFilters.mkFilter "kit" "string" "none" VUndefined;
         AdvancedFilters.mkFilter "createdAt" "date" "is"
           (VStr "2024-05-01T10") ]
     = ["kit"; "createdAt"].
Proof.
  assert (H : AssetUtils.parseFilters "kit=none&createdAt=is:2024-05-01T10:30"
              = Ok [ AdvancedFilters.mkFilter "kit" "string" "none" VUndefined;
                     AdvancedFilters.mkFilter "createdAt" "date" "is"
                       (VStr "2024-05-01T10") ])
    by reflexivity.
  refine (conj H _).
  exact (proj1 (parseFilters_names_operators_types _ _ H)).
Defined.

(** A witness for X8: a number without a value is the number [NaN]. *)
Lemma parseFilters_values_agree_witness :
  AssetUtils.parseFilters "valuation=gt&availableToBook=is:TRUE"
  = Ok [ AdvancedFilters.mkFilter "valuation" "number" "gt" (VNum NumNaN);
         AdvancedFilters.mkFilter "availableToBook" "boolean" "is"
           (VBool true) ]
  /\ Forall (fun f => In (AdvancedFilters.type f) handledTypes
                      /\ agrees f = true)
       [ AdvancedFilters.mkFilter "valuation" "number" "gt" (VNum NumNaN);
         AdvancedFilters.mkFilter "availableToBook" "boolean" "is"
           (VBool true) ].
Proof.
  assert (H : AssetUtils.parseFilters "valuation=gt&availableToBook=is:TRUE"
              = Ok [ AdvancedFilters.mkFilter "valuation" "number" "gt"
                       (VNum NumNaN);
                     AdvancedFilters.mkFilter "availableToBook" "boolean" "is"
                       (VBool true) ])
    by reflexivity.
  refine (conj H _).
  exact (parseFilters_values_agree _ _ H).
Defined.

(** A witness for X9: a [status] list with an empty text behind [in:]. *)
Lemma parseFilters_arrays_witness :
  AssetUtils.parseFilters "status=in:"
  = Ok [AdvancedFilters.mkFilter "status" "enum" "in" (VArr [VStr EmptyString])]
  /\ In (AdvancedFilters.mkFilter "status" "enum" "in" (VArr [VStr EmptyString]))
       [AdvancedFilters.mkFilter "status" "enum" "in" (VArr [VStr EmptyString])]
  /\ shape (VArr [VStr EmptyString]) = Some 1
  /\ 1 <= 1.
Proof.
  assert (H : AssetUtils.parseFilters "status=in:"
              = Ok [AdvancedFilters.mkFilter "status" "enum" "in"
                      (VArr [VStr EmptyString])])
    by reflexivity.
  assert (Hin : In (AdvancedFilters.mkFilter "status" "enum" "in"
                      (VArr [VStr EmptyString]))
                  [AdvancedFilters.mkFilter "status" "enum" "in"
                     (VArr [VStr EmptyString])])
    by (left; reflexivity).
  refine (conj H (conj Hin (conj eq_refl _))).
  exact (proj1 (parseFilters_arrays _ _ _ 1 H Hin eq_refl)).
Defined.

Section ParseThenCompile.
Context {host : Host}.
Import Prisma AdvancedFilters AdvancedIndexQuery AssetUtils.

(** The clause after the filters: the clause before, with the conjuncts
    of the filters spliced behind it. *)
Lemma foldM_addFilter_splice fs : forall w q,
  foldM addFilter w fs = Ok q ->
  exists c, q = splice w c /\ values c = flat_map boundOf fs.
Proof.
  induction fs as [|f fs IH]; intros w q.
  - intros [= <-]. exists empty. now rewrite splice_empty_r.
  - cbn [foldM flat_map]. rewrite addFilter_contribution.
    unfold boundOf at 1.
    destruct (contributionOf f) as [|c|]; cbn [contribute bind app].
    + intros H. destruct (IH _ _ H) as (c' & -> & Hv). now exists c'.
    + intros H. destruct (IH _ _ H) as (c' & -> & Hv).
      exists (splice c c'). split; [apply splice_assoc |].
      now rewrite values_splice, Hv.
    + discriminate.
Qed.

Lemma foldM_addFilter_returns fs : forall w,
  Forall (fun f => contributionOf f <> Raises) fs ->
  exists q, foldM addFilter w fs = Ok q.
Proof.
  induction fs as [|f fs IH]; intros w H; [now exists w |].
  inversion H as [|? ? Hf Hfs]; subst. cbn [foldM].
  rewrite addFilter_contribution.
  destruct (contributionOf f) as [|c|]; cbn [contribute bind];
    [now apply IH | now apply IH | contradiction].
Qed.

Lemma parsed_never_raises param f :
  parseParam param = Ok f -> contributionOf f <> Raises.
Proof.
  destruct param as [key v]. intros H Hr.
  apply contribution_raises in Hr. destruct Hr as (_ & _ & Hv).
  destruct (parseParam_returns key v f H) as (_ & _ & _ & _ & Harr).
  destruct (Harr 0) as [Hle _]; [now rewrite Hv | lia].
Qed.

(** X10.  The filters [parseFilters] returns never make the WHERE
    compiler raise: for every organization and search,
    [generateWhereClause] returns a clause for them. *)
Theorem parsed_filters_compile filtersString fs organizationId search :
  parseFilters filtersString = Ok fs ->
  exists q, generateWhereClause organizationId search fs = Ok q.
Proof.
  intros H. apply parseFilters_Forall2 in H.
  unfold generateWhereClause. apply foldM_addFilter_returns.
  induction H as [|param f params fs Hf _ IH]; constructor; [| exact IH].
  now apply (parsed_never_raises param).
Qed.


(** X12.  Every clause [generateWhereClause] returns opens, after at most
    a line break and spaces, with the organization condition, and the
    organization id is its first bound parameter: no search and no
    filter can put anything before it. *)
Theorem where_clause_scoped organizationId search fs q :
  generateWhereClause organizationId search fs = Ok q ->
  hd_error (values q) = Some (VStr organizationId)
  /\ exists lead rest,
       blank lead = true
       /\ text q
          = lead +:+ "WHERE a." +:+ quoted "organizationId" +:+ " = ?"
            +:+ rest.
Proof.
  unfold generateWhereClause. intros H.
  apply foldM_addFilter_splice in H. destruct H as (c & -> & _).
  rewrite values_splice, text_splice, addSearch_words.
  destruct (searchWords search) as [|x xs].
  - split; [reflexivity |]. exists EmptyString, (text c). now split.
  - split; [reflexivity |].
    rewrite !text_splice.
    exists (NL +:+ spaces 8), (text (searchConjunct (x :: xs)) +:+ text c).
    split; [reflexivity |].
    change (text (raw (NL +:+ spaces 8))) with (NL +:+ spaces 8).
    change (text (organizationClause organizationId))
      with ("WHERE a." +:+ quoted "organizationId" +:+ " = ?").
    now rewrite !append_assoc.
Qed.

(** X13.  The bound parameters of a returned clause are, in this order,
    the organization id, the search query when the search has a word,
    and the parameters of the filters in the order of the list. *)
Theorem where_clause_parameters organizationId search fs q :
  generateWhereClause organizationId search fs = Ok q ->
  values q
  = VStr organizationId :: searchValues search ++ flat_map boundOf fs.
Proof.
  unfold generateWhereClause. intros H.
  apply foldM_addFilter_splice in H. destruct H as (c & -> & Hc).
  rewrite values_splice, Hc, addSearch_words. unfold searchValues.
  destruct (searchWords search) as [|x xs]; [reflexivity |].
  now rewrite !values_splice.
Qed.

(** X14.  ASCII white space around the search text does not change the
    clause, and a search made of white space only is no search. *)
Theorem search_ignores_padding organizationId fs :
  (forall before search after,
     blank before = true -> blank after = true ->
     generateWhereClause organizationId
       (Some (before +:+ search +:+ after)) fs
     = generateWhereClause organizationId (Some search) fs)
  /\ (forall search,
        blank search = true ->
        generateWhereClause organizationId (Some search) fs
        = generateWhereClause organizationId None fs).
Proof.
  split.
  - intros before search after Hb Ha. unfold generateWhereClause.
    rewrite !addSearch_words. unfold searchWords.
    now rewrite trim_padded.
  - intros search Hs. unfold generateWhereClause.
    rewrite !addSearch_words. unfold searchWords.
    now rewrite trim_blank.
Qed.

End ParseThenCompile.

(* ================================================================== *)
(** * More on the sort compiler *)
(* ================================================================== *)

Section SortEntriesMore.
Import AdvancedIndexQuery.

Lemma startsWith_cf n :
  startsWith "cf_" n = true -> n = "cf_" +:+ slice 3 n.
Proof.
  unfold startsWith.
  destruct n as [|a [|b [|c r]]]; cbn [String.prefix slice];
    repeat match goal with
           | |- context [ascii_dec ?x ?y] => destruct (ascii_dec x y)
           end;
    try discriminate.
  intros _. subst. now destruct r.
Qed.

(** The three ways the loop treats an entry named [n]: a part for a
    column, a part and a sorting for a custom field, or a warning. *)
Lemma entryState_cases s :
  let n := beforeFirst ":" s in
  let d := nth_error (split ":" s) 1 in
  (startsWith "cf_" n = false
   /\ exists part, entryState s = mkSortState [part] [] [])
  \/ (startsWith "cf_" n = true
      /\ entryState s
         = mkSortState
             [customFieldAlias (slice 3 n) +:+ " " +:+ show d]
             [mkCustomFieldSorting (slice 3 n) "raw"
                (customFieldAlias (slice 3 n)) (nth_error (split ":" s) 2)]
             [])
  \/ (startsWith "cf_" n = false
      /\ entryState s
         = mkSortState [] [] ["Unknown sort field: " +:+ n]).
Proof.
  intros n d. unfold entryState, parseSortField. rewrite hd_split.
  fold n d. set (ft := nth_error (split ":" s) 2). clearbody n d ft.
  unfold sortStep, lookupIn, directAssetFields, objectPrototype, pushPart,
    noSorting.
  cbn [assoc fieldName direction fieldType orderByParts cfSortings console app].
  repeat match goal with
         | |- context [String.eqb n ?lit] =>
             destruct (String.eqb_spec n lit) as [->|?];
             [left; split; [reflexivity | eexists; reflexivity] |]
         end.
  destruct (startsWith "cf_" n) eqn:E.
  - right; left. now split.
  - right; right. now split.
Qed.

Lemma entry_counts s :
  length (entryParts s) + length (entryWarnings s) = 1
  /\ length (entrySortings s) <= length (entryParts s).
Proof.
  unfold entryParts, entrySortings, entryWarnings.
  destruct (entryState_cases s) as [(_ & part & ->)|[(_ & ->)|(_ & ->)]];
    cbn; lia.
Qed.

Lemma length_flat_map_sum {A B} (f g : A -> list B) l :
  (forall x, length (f x) + length (g x) = 1) ->
  length (flat_map f l) + length (flat_map g l) = length l.
Proof.
  intros H. induction l as [|x l IH]; [reflexivity |].
  cbn [flat_map length]. rewrite !length_app. specialize (H x). lia.
Qed.

Lemma length_flat_map_le {A B C} (f : A -> list B) (g : A -> list C) l :
  (forall x, length (f x) <= length (g x)) ->
  length (flat_map f l) <= length (flat_map g l).
Proof.
  intros H. induction l as [|x l IH]; [reflexivity |].
  cbn [flat_map]. rewrite !length_app. specialize (H x). lia.
Qed.

(** X15.  No entry of [sortBy] is dropped in silence: the loop pushes
    exactly one ORDER BY part or prints exactly one warning for each, so
    parts and warnings together are as many as the entries; and there are
    at most as many custom-field sortings as parts. *)
Theorem sort_entries_accounted sortBy :
  length (orderByParts (sortLoop sortBy))
  + length (warnings (parseSortingOptions sortBy))
  = length sortBy
  /\ length (customFieldSortings (parseSortingOptions sortBy))
     <= length (orderByParts (sortLoop sortBy)).
Proof.
  rewrite parseSortingOptions_entries, sortLoop_entries.
  cbn [orderByParts warnings customFieldSortings]. split.
  - apply length_flat_map_sum. intros s. apply entry_counts.
  - apply length_flat_map_le. intros s. apply entry_counts.
Qed.

(** X16.  Sorting is compositional: the parts, the custom-field sortings
    and the warnings of [before ++ after] are those of [before] followed
    by those of [after]. *)
Theorem sort_of_concatenation before after :
  orderByParts (sortLoop (before ++ after))
  = orderByParts (sortLoop before) ++ orderByParts (sortLoop after)
  /\ customFieldSortings (parseSortingOptions (before ++ after))
     = customFieldSortings (parseSortingOptions before)
       ++ customFieldSortings (parseSortingOptions after)
  /\ warnings (parseSortingOptions (before ++ after))
     = warnings (parseSortingOptions before)
       ++ warnings (parseSortingOptions after).
Proof.
  rewrite !parseSortingOptions_entries, !sortLoop_entries.
  cbn [orderByParts customFieldSortings warnings].
  now rewrite !flat_map_app.
Qed.

(** X17.  Every custom-field sorting returned has the value key [raw]
    and the alias [cf_] followed by its name with white space replaced;
    it comes from an entry named [cf_] and that name, and the ORDER BY
    parts hold its alias followed by the direction of that entry. *)
Theorem sortings_match_order_by sortBy cf :
  In cf (customFieldSortings (parseSortingOptions sortBy)) ->
  valueKey cf = "raw"
  /\ alias cf = "cf_" +:+ replaceWhite "_" (cfName cf)
  /\ exists entry,
       In entry sortBy
       /\ beforeFirst ":" entry = "cf_" +:+ cfName cf
       /\ cfFieldType cf = nth_error (split ":" entry) 2
       /\ In (alias cf +:+ " " +:+ show (nth_error (split ":" entry) 1))
            (orderByParts (sortLoop sortBy)).
Proof.
  rewrite parseSortingOptions_entries, sortLoop_entries.
  cbn [customFieldSortings orderByParts]. intros H.
  apply in_flat_map in H. destruct H as (entry & Hin & Hcf).
  unfold entrySortings in Hcf.
  destruct (entryState_cases entry) as [(_ & part & E)|[(Hp & E)|(_ & E)]];
    rewrite E in Hcf; cbn [cfSortings] in Hcf; try contradiction.
  destruct Hcf as [<-|[]]. cbn [valueKey alias cfName cfFieldType].
  split; [reflexivity | split; [reflexivity |]].
  exists entry. split; [exact Hin |].
  split; [now apply startsWith_cf | split; [reflexivity |]].
  apply in_flat_map. exists entry. split; [exact Hin |].
  unfold entryParts. rewrite E. now left.
Qed.

End SortEntriesMore.

Section SelectOfSortings.
Context {host : Host}.
Import Prisma AdvancedIndexQuery.

Lemma generateCustomFieldSelect_empty cfs :
  generateCustomFieldSelect cfs = Ok empty <-> cfs = [].
Proof.
  destruct cfs as [|cf cfs]; [now split |].
  rewrite generateCustomFieldSelect_nonempty.
  split; [| discriminate]. intros H. exfalso.
  apply (f_equal (fun r => match r with
                           | Ok q => text q
                           | Throw _ => EmptyString
                           end)) in H.
  rewrite text_splice in H. discriminate.
Qed.

Lemma flat_map_nil {A B} (f : A -> list B) l :
  flat_map f l = [] <-> Forall (fun x => f x = []) l.
Proof.
  induction l as [|x l IH]; cbn [flat_map].
  - split; constructor.
  - split.
    + intros H. apply app_eq_nil in H. destruct H as [Hx Hl].
      constructor; [exact Hx | now apply IH].
    + intros H. inversion H as [|? ? Hx Hl]; subst.
      rewrite Hx. now apply IH.
Qed.

(** X18.  The SELECT list gains nothing from the sort options exactly
    when no entry is named with the prefix [cf_]:
    [generateCustomFieldSelect] on the sortings of [parseSortingOptions]
    returns [Prisma.empty] in that case and in no other, and it never
    raises. *)
Theorem select_empty_without_custom_fields sortBy :
  (generateCustomFieldSelect (customFieldSortings (parseSortingOptions sortBy))
   = Ok empty
   <-> Forall (fun entry => startsWith "cf_" (beforeFirst ":" entry) = false)
         sortBy)
  /\ exists q,
       generateCustomFieldSelect
         (customFieldSortings (parseSortingOptions sortBy)) = Ok q.
Proof.
  split.
  - rewrite generateCustomFieldSelect_empty, parseSortingOptions_entries.
    cbn [customFieldSortings]. rewrite flat_map_nil.
    split; intros H; (eapply Forall_impl; [| exact H]); intros entry He;
      unfold entrySortings in *;
      destruct (entryState_cases entry)
        as [(Hp & part & E)|[(Hp & E)|(Hp & E)]];
      rewrite ?E in *; cbn [cfSortings] in *; congruence.
  - destruct (customFieldSortings (parseSortingOptions sortBy)) as [|cf cfs].
    + now exists empty.
    + eexists. apply generateCustomFieldSelect_nonempty.
Qed.

End SelectOfSortings.

(* ================================================================== *)
(** * Entries without a column, and the columns the query selects *)
(* ================================================================== *)

Section UnknownEntries.
Import AdvancedIndexQuery.

Lemma sortable_entry s :
  sortable s = true -> entryWarnings s = [].
Proof.
  unfold sortable, knownSortName, inheritedName, entryWarnings, entryState,
    parseSortField.
  rewrite hd_split. set (n := beforeFirst ":" s).
  set (d := nth_error (split ":" s) 1). set (ft := nth_error (split ":" s) 2).
  clearbody n d ft.
  unfold sortStep, lookupIn, directAssetFields, objectPrototype, pushPart,
    noSorting, relationColumns.
  cbn [assoc fieldName direction fieldType orderByParts cfSortings console app
       map fst existsb].
  repeat match goal with
         | |- context [String.eqb n ?lit] =>
             destruct (String.eqb_spec n lit) as [->|?];
             [intros _; reflexivity |]
         end.
  cbn [orb]. destruct (startsWith "cf_" n); [reflexivity | discriminate].
Qed.

Lemma unsortable_entry s :
  sortable s = false ->
  entryState s = mkSortState [] [] [unknownSortField s].
Proof.
  unfold sortable. intros H. apply orb_false_iff in H.
  destruct H as [Hk Hi]. now apply unknown_entry.
Qed.

Lemma flat_map_filter {A B} (p : A -> bool) (f : A -> list B) l :
  (forall x, p x = false -> f x = []) ->
  flat_map f l = flat_map f (filter p l).
Proof.
  intros H. induction l as [|x l IH]; [reflexivity |].
  cbn [filter flat_map]. destruct (p x) eqn:E.
  - cbn [flat_map]. now rewrite IH.
  - now rewrite (H _ E).
Qed.

(** X19.  Entries that are not sortable change nothing but the warnings:
    the ORDER BY clause and the custom-field sortings are those of the
    sortable entries alone, which are compiled without a warning, and
    the warnings name the other entries, one each, in their order. *)
Theorem unsortable_entries_only_warn sortBy :
  let kept := filter sortable sortBy in
  let dropped := filter (fun entry => negb (sortable entry)) sortBy in
  orderByClause (parseSortingOptions sortBy)
  = orderByClause (parseSortingOptions kept)
  /\ customFieldSortings (parseSortingOptions sortBy)
     = customFieldSortings (parseSortingOptions kept)
  /\ warnings (parseSortingOptions kept) = []
  /\ warnings (parseSortingOptions sortBy) = map unknownSortField dropped.
Proof.
  cbv zeta. rewrite !parseSortingOptions_entries.
  cbn [orderByClause customFieldSortings warnings].
  assert (Hp : flat_map entryParts sortBy
               = flat_map entryParts (filter sortable sortBy)).
  { apply flat_map_filter. intros s E. unfold entryParts.
    now rewrite (unsortable_entry _ E). }
  assert (Hs : flat_map entrySortings sortBy
               = flat_map entrySortings (filter sortable sortBy)).
  { apply flat_map_filter. intros s E. unfold entrySortings.
    now rewrite (unsortable_entry _ E). }
  rewrite <- Hp, <- Hs. clear Hp Hs.
  split; [reflexivity | split; [reflexivity |]].
  split.
  - induction sortBy as [|s l IH]; [reflexivity |].
    cbn [filter]. destruct (sortable s) eqn:E; [| exact IH].
    cbn [flat_map]. now rewrite (sortable_entry _ E), IH.
  - induction sortBy as [|s l IH]; [reflexivity |].
    cbn [filter flat_map]. destruct (sortable s) eqn:E; cbn [negb].
    + now rewrite (sortable_entry _ E), IH.
    + unfold entryWarnings at 1. rewrite (unsortable_entry _ E).
      cbn [console map app]. now rewrite IH.
Qed.

End UnknownEntries.

Section SelectedColumns.
Context {host : Host}.
Import Prisma AdvancedIndexQuery.

(** X20.  Whatever column the sort compiler orders by for a direct asset
    field or a relation is a column [assetQueryFragment] selects: the
    aliased column of each of the seven fields, ["kitName"],
    ["categoryName"] and ["locationName"] are selected under their
    double-quoted names, and [custody], whose [name] the relation
    [custody] orders by, under its bare name. *)
Theorem sort_columns_selected :
  (forall name column,
     assoc name directAssetFields = Some column ->
     selects (quoted column) = true)
  /\ (forall name column,
        In (name, column) relationColumns -> name <> "custody" ->
        selects column = true)
  /\ In ("custody", "custody->>'name'") relationColumns
  /\ selects "custody" = true.
Proof.
  split; [| split; [| split]].
  - intros name column. unfold directAssetFields. cbn [assoc].
    repeat match goal with
           | |- context [String.eqb name ?lit] =>
               destruct (String.eqb name lit);
               [intros [= <-]; vm_compute; reflexivity |]
           end.
    discriminate.
  - intros name column H Hn. unfold relationColumns in H. cbn [In] in H.
    destruct H as [H|[H|[H|[H|[]]]]]; injection H as <- <-;
      try (vm_compute; reflexivity).
    now contradiction Hn.
  - unfold relationColumns. cbn [In]. tauto.
  - vm_compute. reflexivity.
Qed.

End SelectedColumns.

(* ================================================================== *)
(** * Witnesses for the parse-then-compile and sort properties *)
(* ================================================================== *)

(** A witness for X10: a number filter and a status list. *)
Lemma parsed_filters_compile_witness :
  AssetUtils.parseFilters "valuation=gt:5&status=in:AVAILABLE,IN_CUSTODY"
  = Ok [ AdvancedFilters.mkFilter "valuation" "number" "gt" (VNum (NumOf "5"));
         AdvancedFilters.mkFilter "status" "enum" "in"
           (VArr [VStr "AVAILABLE"; VStr "IN_CUSTODY"]) ]
  /\ exists q,
       AdvancedIndexQuery.generateWhereClause "org1" (Some "pump")
         [ AdvancedFilters.mkFilter "valuation" "number" "gt"
             (VNum (NumOf "5"));
           AdvancedFilters.mkFilter "status" "enum" "in"
             (VArr [VStr "AVAILABLE"; VStr "IN_CUSTODY"]) ]
       = Ok q.
Proof.
  refine ((fun H => conj H (parsed_filters_compile _ _ "org1" (Some "pump") H))
            _).
  reflexivity.
Defined.


(** A witness for X12: a search and a filter behind the organization. *)
Lemma where_clause_scoped_witness :
  exists q,
    AdvancedIndexQuery.generateWhereClause "org1" (Some "pump")
      [AdvancedFilters.mkFilter "id" "string" "is" (VStr "a")] = Ok q
    /\ hd_error (Prisma.values q) = Some (VStr "org1")
    /\ exists lead rest,
         blank lead = true
         /\ Prisma.text q
            = lead +:+ "WHERE a." +:+ quoted "organizationId" +:+ " = ?"
              +:+ rest.
Proof.
  eexists.
  refine ((fun H => conj H (where_clause_scoped "org1" (Some "pump") _ _ H)) _).
  reflexivity.
Defined.

(** A witness for X13: the same clause and its parameters. *)
Lemma where_clause_parameters_witness :
  exists q,
    AdvancedIndexQuery.generateWhereClause "org1" (Some "pump")
      [AdvancedFilters.mkFilter "id" "string" "is" (VStr "a")] = Ok q
    /\ Prisma.values q
       = VStr "org1"
         :: searchValues (Some "pump")
         ++ flat_map boundOf
              [AdvancedFilters.mkFilter "id" "string" "is" (VStr "a")].
Proof.
  eexists.
  refine ((fun H => conj H (where_clause_parameters "org1" (Some "pump") _ _ H))
            _).
  reflexivity.
Defined.

(** A witness for X14: a search between a space and a line break. *)
Lemma search_ignores_padding_witness :
  blank " " = true /\ blank NL = true
  /\ AdvancedIndexQuery.generateWhereClause "org1"
       (Some (" " +:+ "pump" +:+ NL)) []
     = AdvancedIndexQuery.generateWhereClause "org1" (Some "pump") [].
Proof.
  assert (Hb : blank " " = true) by reflexivity.
  assert (Ha : blank NL = true) by reflexivity.
  refine (conj Hb (conj Ha _)).
  exact (proj1 (search_ignores_padding "org1" []) " " "pump" NL Hb Ha).
Defined.

(** A witness for X17: the sorting of a custom field named with two
    spaces. *)
Lemma sortings_match_order_by_witness :
  In (AdvancedIndexQuery.mkCustomFieldSorting "Serial  No" "raw"
        "cf_Serial_No" (Some "TEXT"))
    (AdvancedIndexQuery.customFieldSortings
       (AdvancedIndexQuery.parseSortingOptions
          ["name:asc"; "cf_Serial  No:desc:TEXT"]))
  /\ "cf_Serial_No" = "cf_" +:+ replaceWhite "_" "Serial  No".
Proof.
  assert (H : In (AdvancedIndexQuery.mkCustomFieldSorting "Serial  No" "raw"
                    "cf_Serial_No" (Some "TEXT"))
                (AdvancedIndexQuery.customFieldSortings
                   (AdvancedIndexQuery.parseSortingOptions
                      ["name:asc"; "cf_Serial  No:desc:TEXT"])))
    by (vm_compute; left; reflexivity).
  refine (conj H _).
  exact (proj1 (proj2 (sortings_match_order_by _ _ H))).
Defined.

(** A witness for X20: the column the name [name] is sorted by. *)
Lemma sort_columns_selected_witness :
  AdvancedIndexQuery.assoc "name" AdvancedIndexQuery.directAssetFields
  = Some "assetTitle"
  /\ selects (quoted "assetTitle") = true.
Proof.
  assert (H : AdvancedIndexQuery.assoc "name"
                AdvancedIndexQuery.directAssetFields = Some "assetTitle")
    by reflexivity.
  refine (conj H _).
  exact (proj1 sort_columns_selected "name" "assetTitle" H).
Defined.

(* ================================================================== *)
(** * The title condition of the Prisma query *)
(* ================================================================== *)

Section AssetQueryTitle.
Context {host : Host}.
Variable getParamsValues : list (string * string) -> AssetUtils.ParamsValues.
Import AssetUtils.

Lemma lower_ascii_ws1 c : ws1 c = true -> lower_ascii c = c.
Proof.
  unfold ws1, lower_ascii. intros H.
  destruct ((65 <=? nat_of_ascii c) && (nat_of_ascii c <=? 90)) eqn:E;
    [| reflexivity].
  exfalso. rewrite andb_true_iff, !Nat.leb_le in E.
  rewrite orb_true_iff, andb_true_iff, !Nat.leb_le, Nat.eqb_eq in H. lia.
Qed.

Lemma toLowerCase_blank s : blank s = true -> toLowerCase s = s.
Proof.
  induction s as [|c s IH]; [reflexivity |].
  cbn [blank toLowerCase]. intros H. apply andb_true_iff in H.
  destruct H as [Hc Hs]. now rewrite (lower_ascii_ws1 _ Hc), IH.
Qed.

Lemma getAssetsWhereInput_title org sp :
  truthy sp = true ->
  title (getAssetsWhereInput getParamsValues org (Some sp))
  = title (withSearch (search (getParamsValues (URLSearchParams sp)))
             (mkWhere org None None None None None None)).
Proof.
  intros Hs. unfold getAssetsWhereInput. rewrite Hs.
  set (pv := getParamsValues (URLSearchParams sp)).
  set (st := match get "status" _ with Some _ => _ | None => _ end).
  set (w1 := withSearch (search pv) _).
  destruct (withStatus_shape st w1) as (_ & A & _).
  set (w2 := withStatus st w1) in *.
  destruct (withCategories_shape (categoriesIds pv) w2) as (_ & B & _).
  set (w3 := withCategories (categoriesIds pv) w2) in *.
  destruct (withTags_shape (tagsIds pv) w3) as (_ & C & _).
  set (w4 := withTags (tagsIds pv) w3) in *.
  destruct (withLocations_shape (locationIds pv) w4) as (_ & D & _).
  set (w5 := withLocations (locationIds pv) w4) in *.
  destruct (withTeamMembers_shape (teamMemberIds pv) w5) as (_ & E & _).
  now rewrite E, D, C, B, A.
Qed.

(** X21.  For a non-empty search-params string, the query has a title
    condition exactly when the search is given and not the empty string;
    and a search of ASCII white space only, which is such a search, asks
    for titles that contain the empty string. *)
Theorem where_input_title organizationId currentSearchParams :
  truthy currentSearchParams = true ->
  let paramsValues := getParamsValues (URLSearchParams currentSearchParams) in
  let w := getAssetsWhereInput getParamsValues organizationId
             (Some currentSearchParams) in
  (title w = None
   <-> search paramsValues = None \/ search paramsValues = Some EmptyString)
  /\ (forall s,
        search paramsValues = Some s -> blank s = true -> s <> EmptyString ->
        title w = Some (mkTitleFilter EmptyString "insensitive")).
Proof.
  intros Hs pv w. subst w. rewrite (getAssetsWhereInput_title _ _ Hs).
  fold pv. unfold withSearch. split.
  - destruct (search pv) as [[|c s]|]; cbn [truthy title].
    + split; [now right | reflexivity].
    + split; [discriminate | intros [H|H]; discriminate].
    + split; [now left | reflexivity].
  - intros s -> Hb Hn. destruct s as [|c s]; [contradiction |].
    cbn [truthy title].
    now rewrite (toLowerCase_blank _ Hb), (trim_blank _ Hb).
Qed.

End AssetQueryTitle.

(** A witness for X21: a search of two spaces. *)
Lemma where_input_title_witness :
  let query := "s=++&status=ALL" in
  let w := AssetUtils.getAssetsWhereInput readParamsValues "org1" (Some query) in
  truthy query = true
  /\ AssetUtils.search (readParamsValues (URLSearchParams query)) = Some "  "
  /\ blank "  " = true
  /\ "  " <> EmptyString
  /\ AssetUtils.title w
     = Some (AssetUtils.mkTitleFilter EmptyString "insensitive").
Proof.
  intros query w.
  assert (Hs : AssetUtils.search (readParamsValues (URLSearchParams query))
               = Some "  ") by reflexivity.
  assert (Hn : "  " <> EmptyString) by discriminate.
  refine (conj eq_refl (conj Hs (conj eq_refl (conj Hn _)))).
  exact (proj2 (where_input_title readParamsValues "org1" query eq_refl)
           "  " Hs eq_refl Hn).
Defined.

(* ================================================================== *)
(** * The operators of the selector and the WHERE compiler *)
(* ================================================================== *)

Section OfferedOperators.
Context {host : Host}.
Import Prisma AdvancedFilters AdvancedIndexQuery.

Lemma operatorCases_offered ty op :
  In op (operatorCases ty) ->
  In op offered /\ op <> "containsAll" /\ op <> "containsAny".
Proof.
  unfold operatorCases.
  repeat match goal with
         | |- context [String.eqb ty ?lit] => destruct (String.eqb ty lit)
         end;
    cbn [In]; intros H;
    repeat (destruct H as [<-|H];
            [split; [vm_compute; tauto | split; discriminate] |]);
    contradiction.
Qed.

Ltac compiled_with ty v :=
  exists ty, v; split; [discriminate |]; intros n w; eexists;
  rewrite addFilter_contribution; split; [reflexivity | discriminate].

(** X22.  Of the thirteen operators the selector offers, eleven are
    compiled for some type of filter with a [switch] on the operator: a
    filter of that type and operator adds a conjunct with a bound
    parameter.  [containsAll] and [containsAny] are compiled for none,
    and neither is an operator the selector does not offer: such a
    filter, unless it is boolean, leaves the clause as it is. *)
Theorem offered_operators_compiled :
  length offered = 13
  /\ (forall op,
        In op offered -> op <> "containsAll" -> op <> "containsAny" ->
        exists ty v,
          ty <> "boolean"
          /\ forall n w, exists c,
               addFilter w (mkFilter n ty op v) = Ok (splice w c)
               /\ values c <> [])
  /\ (forall w f,
        type f <> "boolean" ->
        ~ In (operator f) offered
        \/ operator f = "containsAll" \/ operator f = "containsAny" ->
        addFilter w f = Ok w).
Proof.
  split; [reflexivity | split].
  - intros op H Hall Hany. unfold offered in H.
    cbn [OperatorSelector.operatorsMap map fst In] in H.
    repeat (destruct H as [<-|H];
            [first [ solve [compiled_with "string" (VStr "x")]
                   | solve [compiled_with "text" (VStr "x")]
                   | solve [compiled_with "date" (VStr "x")]
                   | solve [compiled_with "date" (VArr [VStr "x"; VStr "y"])]
                   | solve [compiled_with "number" (VStr "1")]
                   | solve [compiled_with "enum" (VArr [VStr "x"])]
                   | contradiction ] |]).
    contradiction.
  - intros w f Hb H. rewrite addFilter_contribution.
    rewrite unhandled_unchanged; [reflexivity | exact Hb |].
    intros Hin. apply operatorCases_offered in Hin.
    destruct Hin as (Ho & Hall & Hany).
    destruct H as [H|[H|H]]; contradiction.
Qed.

End OfferedOperators.

(** A witness for X22: [gte] is compiled for numbers, [containsAny] for
    nothing. *)
Lemma offered_operators_compiled_witness :
  In "gte" offered
  /\ AdvancedFilters.type
       (AdvancedFilters.mkFilter "tags" "string" "containsAny" (VStr "t1"))
     <> "boolean"
  /\ AdvancedIndexQuery.addFilter (AdvancedIndexQuery.organizationClause "org1")
       (AdvancedFilters.mkFilter "tags" "string" "containsAny" (VStr "t1"))
     = Ok (AdvancedIndexQuery.organizationClause "org1").
Proof.
  assert (Hin : In "gte" offered) by (vm_compute; tauto).
  assert (Hb : AdvancedFilters.type
                 (AdvancedFilters.mkFilter "tags" "string" "containsAny"
                    (VStr "t1")) <> "boolean") by discriminate.
  refine (conj Hin (conj Hb _)).
  exact (proj2 (proj2 offered_operators_compiled) _ _ Hb
           (or_intror (or_intror eq_refl))).
Defined.
